(** * securitypizza_etl: a shallow embedding of the HIBP bulk loader

    The development follows the two revisions of [securitypizza_etl.go]:

    - [src/securitypizza_etl.go]: identifier-only rows, the hash is
      hex-decoded and re-encoded with [encoding/ascii85]
      (module [Reencode], [BATCH_SIZE = 60_000]);
    - [src/src/securitypizza_etl.go]: count rows, the hash is lower-cased
      and the value parsed with [strconv.Atoi]
      (module [CountMode], [BATCH_SIZE = 10_000]).

    Go strings are byte strings, modelled by [string]; [[]byte] is
    [list byte]; Go's [int] is the 64-bit two's complement integer, modelled
    by [Z] with the wrap-around written out ([wrap_int]).

    - Part I models the functions of Go's standard library that the loader
      calls, from the library's algorithms: [hex.DecodeString],
      [ascii85.Encode] (and [ascii85.Decode], its inverse),
      [utf8.ValidString], [strings.SplitN], [strings.ToLower],
      [strconv.Atoi] and the verb [%d].
    - Part II is the loader.  The database, the file system and
      [time.Parse] are collaborators the loader only talks to; they are
      gathered in the record [Env], and a run is a function from the state
      of the store to an [Outcome]: the final store, the events of the run
      ([log.Printf] lines and executed statements, in order) and its
      result, which is a value, a [log.Fatal] exit or a panic.  The
      deferred [Close] calls have no effect on what is stated here and are
      left out, and so is [hibpPasswordsEtl], a copy of the count-mode
      loader for password rows.
    - Part III states and proves the properties. *)

From Stdlib Require Import ZArith List Bool Lia.
From Stdlib.Strings Require Import String Ascii Byte.
From Stdlib Require Import DecimalString DecimalPos.
Import ListNotations.

Local Open Scope string_scope.
Local Open Scope list_scope.
Local Open Scope Z_scope.

(* ================================================================= *)
(** * Part I: the Go standard library, as far as the loader uses it   *)
(* ================================================================= *)

(** ** Bytes and machine integers *)

Definition byte_to_Z (b : byte) : Z := Z.of_N (Byte.to_N b).

(** Go's conversion [byte(v)]: the low eight bits. *)
Definition byte_of_Z (z : Z) : byte :=
  match Byte.of_N (Z.to_N (z mod 256)) with
  | Some b => b
  | None => x00
  end.

Definition ascii_to_Z (c : ascii) : Z := Z.of_N (N_of_ascii c).

(** [uint32] arithmetic wraps modulo 2^32. *)
Definition wrap_u32 (z : Z) : Z := z mod 4294967296.

(** [int] is 64 bits wide on the platforms the loader is built for. *)
Definition intSize : Z := 64.
Definition int_min : Z := - 9223372036854775808.
Definition int_max : Z := 9223372036854775807.

(** Two's complement wrap-around of [int] arithmetic. *)
Definition wrap_int (z : Z) : Z :=
  (z + 9223372036854775808) mod 18446744073709551616 - 9223372036854775808.

(** ** encoding/hex *)

Inductive hex_error : Type :=
| InvalidByteError (c : ascii)
| ErrLength.

(** [reverseHexTable]: the value of a hex digit, [None] for the table's
    [0xff] entries. *)
Definition fromHexChar (c : ascii) : option Z :=
  let n := ascii_to_Z c in
  if (48 <=? n) && (n <=? 57) then Some (n - 48)
  else if (97 <=? n) && (n <=? 102) then Some (n - 97 + 10)
  else if (65 <=? n) && (n <=? 70) then Some (n - 65 + 10)
  else None.

(** The hex alphabet: [0-9], [a-f] and [A-F]. *)
Definition hexDigit (c : ascii) : bool :=
  let n := ascii_to_Z c in
  ((48 <=? n) && (n <=? 57)) || ((97 <=? n) && (n <=? 102))
  || ((65 <=? n) && (n <=? 70)).

(** A valid hex string: hex digits only, an even number of them. *)
Definition validHex (s : string) : bool :=
  forallb hexDigit (list_ascii_of_string s) && Nat.even (String.length s).

(** [hex.DecodeString]: two digits per byte; an invalid digit is reported
    before an odd length. *)
Fixpoint hex_DecodeString (s : string) : hex_error + list byte :=
  match s with
  | EmptyString => inr []
  | String p EmptyString =>
      match fromHexChar p with
      | None => inl (InvalidByteError p)
      | Some _ => inl ErrLength
      end
  | String p (String q rest) =>
      match fromHexChar p with
      | None => inl (InvalidByteError p)
      | Some a =>
          match fromHexChar q with
          | None => inl (InvalidByteError q)
          | Some b =>
              match hex_DecodeString rest with
              | inl e => inl e
              | inr bs => inr (byte_of_Z (Z.lor (Z.shiftl a 4) b) :: bs)
              end
          end
      end
  end.

(** ** encoding/ascii85 *)

Module ascii85.

(** [MaxEncodedLen(n) = (n + 3) / 4 * 5]. *)
Definition MaxEncodedLen (n : nat) : nat := ((n + 3) / 4 * 5)%nat.

(** The [switch len(src)] that packs up to four source bytes, big endian,
    into a [uint32]; absent bytes contribute nothing. *)
Definition pack (b0 b1 b2 b3 : Z) : Z :=
  Z.lor (Z.lor (Z.lor b3 (Z.shiftl b2 8)) (Z.shiftl b1 16)) (Z.shiftl b0 24).

(** [for i := 4; i >= 0; i-- { dst[i] = '!' + byte(v%85); v /= 85 }],
    run for [n] rounds: the digits come out most significant first. *)
Fixpoint digits (n : nat) (v : Z) (acc : list byte) : list byte :=
  match n with
  | O => acc
  | S n' => digits n' (v / 85) (byte_of_Z (33 + v mod 85) :: acc)
  end.

Definition z_char : byte := "z"%byte.

(** One round of [Encode]'s loop on a group [g] of [k] source bytes
    ([k] is 4 for every group but possibly the last): the bytes the round
    leaves in [dst[0:m]]. *)
Definition encode_group (k : nat) (v : Z) : list byte :=
  if (v =? 0) && (4 <=? k)%nat then [z_char]
  else firstn (5 - (4 - k)) (digits 5 v []).

(** [Encode(dst, src)] with [len(dst) = cap]: the bytes written to
    [dst[0:n]], or [None] when a round indexes [dst] out of range (every
    round clears [dst[0..4]] first, so it needs five bytes of room). *)
Fixpoint Encode (cap : nat) (src : list byte) : option (list byte) :=
  match src with
  | [] => Some []
  | [b0] =>
      if (cap <? 5)%nat then None
      else Some (encode_group 1 (pack (byte_to_Z b0) 0 0 0))
  | [b0; b1] =>
      if (cap <? 5)%nat then None
      else Some (encode_group 2 (pack (byte_to_Z b0) (byte_to_Z b1) 0 0))
  | [b0; b1; b2] =>
      if (cap <? 5)%nat then None
      else Some (encode_group 3
                   (pack (byte_to_Z b0) (byte_to_Z b1) (byte_to_Z b2) 0))
  | b0 :: b1 :: b2 :: b3 :: rest =>
      if (cap <? 5)%nat then None
      else
        let g := encode_group 4
                   (pack (byte_to_Z b0) (byte_to_Z b1)
                         (byte_to_Z b2) (byte_to_Z b3)) in
        match Encode (cap - List.length g) rest with
        | None => None
        | Some out => Some (g ++ out)
        end
  end.

(** What [Encode] writes when [dst] is never too short. *)
Fixpoint encode (src : list byte) : list byte :=
  match src with
  | [] => []
  | [b0] => encode_group 1 (pack (byte_to_Z b0) 0 0 0)
  | [b0; b1] => encode_group 2 (pack (byte_to_Z b0) (byte_to_Z b1) 0 0)
  | [b0; b1; b2] =>
      encode_group 3 (pack (byte_to_Z b0) (byte_to_Z b1) (byte_to_Z b2) 0)
  | b0 :: b1 :: b2 :: b3 :: rest =>
      encode_group 4
        (pack (byte_to_Z b0) (byte_to_Z b1) (byte_to_Z b2) (byte_to_Z b3))
        ++ encode rest
  end.

Inductive CorruptInputError : Type := CorruptInput (offset : nat).

(** The four bytes [byte(v >> 24), byte(v >> 16), byte(v >> 8), byte(v)]. *)
Definition unpack (v : Z) : list byte :=
  [byte_of_Z (Z.shiftr v 24); byte_of_Z (Z.shiftr v 16);
   byte_of_Z (Z.shiftr v 8); byte_of_Z v].

(** [for i := nb; i < 5; i++ { v = v*85 + 84 }], as [n] rounds. *)
Fixpoint pad84 (n : nat) (v : Z) : Z :=
  match n with
  | O => v
  | S n' => pad84 n' (wrap_u32 (v * 85 + 84))
  end.

(** [for i := 0; i < nb-1; i++ { dst[ndst] = byte(v >> 24); v <<= 8 }]. *)
Fixpoint take_high (n : nat) (v : Z) : list byte :=
  match n with
  | O => []
  | S n' => byte_of_Z (Z.shiftr v 24) :: take_high n' (wrap_u32 (Z.shiftl v 8))
  end.

(** [Decode(dst, src, true)] for a destination with room for the whole
    output: the loop over [src] carries the offset [i], the accumulator [v]
    and the digit count [nb]; the end of [src] flushes a short group. *)
Fixpoint decode_from (src : list byte) (i : nat) (v : Z) (nb : nat)
  : CorruptInputError + list byte :=
  match src with
  | [] =>
      if (0 <? nb)%nat then
        if (nb =? 1)%nat then inl (CorruptInput i)
        else inr (take_high (nb - 1) (pad84 (5 - nb) v))
      else inr []
  | b :: rest =>
      let c := byte_to_Z b in
      if c <=? 32 then decode_from rest (S i) v nb
      else
        let step (v' : Z) (nb' : nat) :=
          if (nb' =? 5)%nat then
            match decode_from rest (S i) 0 0 with
            | inl e => inl e
            | inr out => inr (unpack v' ++ out)
            end
          else decode_from rest (S i) v' nb' in
        if (c =? 122) && (nb =? 0)%nat then step 0 5%nat
        else if (33 <=? c) && (c <=? 117) then
          step (wrap_u32 (v * 85 + (c - 33))) (S nb)
        else inl (CorruptInput i)
  end.

Definition Decode (src : list byte) : CorruptInputError + list byte :=
  decode_from src 0 0 0.

(** The number of aligned four-byte groups of [src] that are all zero:
    the groups [Encode] shortens to a single [z]. *)
Fixpoint zero_groups (src : list byte) : nat :=
  match src with
  | b0 :: b1 :: b2 :: b3 :: rest =>
      let v := pack (byte_to_Z b0) (byte_to_Z b1)
                    (byte_to_Z b2) (byte_to_Z b3) in
      ((if Z.eqb v 0 then 1 else 0) + zero_groups rest)%nat
  | _ => O
  end.

(** The output alphabet: the digits [!] to [u], and [z]. *)
Definition alphabet (b : byte) : Prop := 33 <= byte_to_Z b <= 122.

(** Five characters for every full group and [k + 1] for a last group of
    [k < 4] bytes. *)
Definition width (n : nat) : nat :=
  (5 * (n / 4) + (if n mod 4 =? 0 then 0 else n mod 4 + 1))%nat.

End ascii85.

(** ** unicode/utf8 *)

Module utf8.

(** The tables [first] and [acceptRanges]: for a leading byte, the length of
    the sequence and the range accepted for its second byte; [None] stands
    for the entry [xx] (illegal leading byte). *)
Definition first (c : Z) : option (nat * (Z * Z)) :=
  if c <? 128 then Some (1%nat, (128, 191))
  else if c <? 194 then None
  else if c <=? 223 then Some (2%nat, (128, 191))
  else if c =? 224 then Some (3%nat, (160, 191))
  else if c <=? 236 then Some (3%nat, (128, 191))
  else if c =? 237 then Some (3%nat, (128, 159))
  else if c <=? 239 then Some (3%nat, (128, 191))
  else if c =? 240 then Some (4%nat, (144, 191))
  else if c <=? 243 then Some (4%nat, (128, 191))
  else if c =? 244 then Some (4%nat, (128, 143))
  else None.

(** A continuation byte lies in [[locb, hicb]]. *)
Definition cont (c : ascii) : bool :=
  (128 <=? ascii_to_Z c) && (ascii_to_Z c <=? 191).

Definition within (r : Z * Z) (c : ascii) : bool :=
  (fst r <=? ascii_to_Z c) && (ascii_to_Z c <=? snd r).

(** [utf8.ValidString]. *)
Fixpoint ValidString (s : string) : bool :=
  match s with
  | EmptyString => true
  | String si rest =>
      if ascii_to_Z si <? 128 then ValidString rest
      else
        match first (ascii_to_Z si) with
        | None => false
        | Some (size, accept) =>
            match rest with
            | EmptyString => false
            | String c1 r1 =>
                if negb (within accept c1) then false
                else if (size =? 2)%nat then ValidString r1
                else
                  match r1 with
                  | EmptyString => false
                  | String c2 r2 =>
                      if negb (cont c2) then false
                      else if (size =? 3)%nat then ValidString r2
                      else
                        match r2 with
                        | EmptyString => false
                        | String c3 r3 =>
                            if negb (cont c3) then false else ValidString r3
                        end
                  end
            end
        end
  end.

End utf8.

(** Printable ASCII: the bytes from the space to the tilde. *)
Definition printable (c : ascii) : bool :=
  (32 <=? ascii_to_Z c) && (ascii_to_Z c <=? 126).

(** ** strings *)

Module strings.

(** [strings.IndexByte]: the offset of the first [c] in [s]. *)
Fixpoint IndexByte (s : string) (c : ascii) : option nat :=
  match s with
  | EmptyString => None
  | String a rest =>
      if Ascii.eqb a c then Some O
      else option_map S (IndexByte rest c)
  end.

(** The loop of [genSplit] for a one-byte separator:
    [for i < n { m := Index(s, sep); if m < 0 { break };
                 a[i] = s[:m]; s = s[m+len(sep):]; i++ }; a[i] = s]. *)
Fixpoint genSplit (n : nat) (s : string) (sep : ascii) : list string :=
  match n with
  | O => [s]
  | S n' =>
      match IndexByte s sep with
      | None => [s]
      | Some m =>
          substring 0 m s
            :: genSplit n' (substring (m + 1) (String.length s - (m + 1)) s) sep
      end
  end.

(** [strings.SplitN(s, sep, n)] for a one-byte separator and [n >= 0]:
    no substrings for [n = 0], and at most [len(s) + 1] of them. *)
Definition SplitN (s : string) (sep : ascii) (n : nat) : list string :=
  match n with
  | O => []
  | S _ => genSplit (Nat.min n (String.length s + 1) - 1) s sep
  end.

Definition isASCII (s : string) : bool :=
  forallb (fun c => ascii_to_Z c <? 128) (list_ascii_of_string s).

Definition isUpper (c : ascii) : bool :=
  (65 <=? ascii_to_Z c) && (ascii_to_Z c <=? 90).

Definition hasUpper (s : string) : bool :=
  existsb isUpper (list_ascii_of_string s).

(** [c += 'a' - 'A'] for an upper-case letter. *)
Definition lowerByte (c : ascii) : ascii :=
  if isUpper c then ascii_of_N (Z.to_N (ascii_to_Z c + 32)) else c.

Fixpoint mapBytes (f : ascii -> ascii) (s : string) : string :=
  match s with
  | EmptyString => EmptyString
  | String c rest => String (f c) (mapBytes f rest)
  end.

(** [strings.ToLower]: the ASCII path is modelled in full; a string with a
    byte outside ASCII goes through [strings.Map(unicode.ToLower, s)],
    which is taken as the parameter [unicodeLower]. *)
Definition ToLower (unicodeLower : string -> string) (s : string) : string :=
  if isASCII s then
    if hasUpper s then mapBytes lowerByte s else s
  else unicodeLower s.

(** [strings.Join]. *)
Definition Join (elems : list string) (sep : string) : string :=
  String.concat sep elems.

End strings.

(** ** strconv *)

Module strconv.

Inductive NumError : Type := ErrSyntax | ErrRange.

Definition maxUint64 : Z := 18446744073709551615.

(** The digit loop of [ParseUint(s, 10, 64)]. *)
Fixpoint ParseUint_digits (s : string) (n : Z) : NumError + Z :=
  match s with
  | EmptyString => inr n
  | String c rest =>
      let c := ascii_to_Z c in
      if (48 <=? c) && (c <=? 57) then
        if n >=? maxUint64 / 10 + 1 then inl ErrRange
        else
          let n1 := n * 10 + (c - 48) in
          if n1 >? maxUint64 then inl ErrRange
          else ParseUint_digits rest n1
      else inl ErrSyntax
  end.

Definition ParseUint (s : string) : NumError + Z :=
  match s with
  | EmptyString => inl ErrSyntax
  | _ => ParseUint_digits s 0
  end.

(** [ParseInt(s, 10, 0)]: an optional sign, then [ParseUint], then the
    range check against [1 << 63]. *)
Definition ParseInt (s : string) : NumError + Z :=
  match s with
  | EmptyString => inl ErrSyntax
  | String c rest =>
      let neg := Ascii.eqb c "-" in
      let digits := if Ascii.eqb c "+" || neg then rest else s in
      match ParseUint digits with
      | inl e => inl e
      | inr un =>
          let cutoff := 9223372036854775808 in
          if negb neg && (un >=? cutoff) then inl ErrRange
          else if neg && (un >? cutoff) then inl ErrRange
          else inr (if neg then - un else un)
      end
  end.

(** The fast path of [Atoi]: [n = n*10 + int(ch)] over the digits. *)
Fixpoint Atoi_digits (s : string) (n : Z) : NumError + Z :=
  match s with
  | EmptyString => inr n
  | String ch rest =>
      let ch := (ascii_to_Z ch - 48) mod 256 in
      if ch >? 9 then inl ErrSyntax
      else Atoi_digits rest (n * 10 + ch)
  end.

(** [strconv.Atoi]: strings of 1 to 18 bytes take the fast path, all others
    go through [ParseInt]. *)
Definition Atoi (s : string) : NumError + Z :=
  let sLen := String.length s in
  if ((0 <? sLen) && (sLen <? 19))%nat then
    match s with
    | EmptyString => inl ErrSyntax
    | String c rest =>
        let signed := Ascii.eqb c "-" || Ascii.eqb c "+" in
        let digits := if signed then rest else s in
        if signed && (String.length digits <? 1)%nat then inl ErrSyntax
        else
          match Atoi_digits digits 0 with
          | inl e => inl e
          | inr n => inr (if Ascii.eqb c "-" then - n else n)
          end
    end
  else ParseInt s.

End strconv.

(** ** fmt *)

(** The verb [%d] applied to an [int]. *)
Definition fmt_d (n : Z) : string := NilZero.string_of_int (Z.to_int n).

(* ================================================================= *)
(** * Part II: the loader                                              *)
(* ================================================================= *)

(** ** Values, events and the collaborators *)

(** Go's [error] values, by their message. *)
Definition error : Type := string.

(** A [time.Time] as produced from the layout [DATE_FORMAT]: a calendar
    date. *)
Record Time : Type := mkTime { year : Z; month : Z; day : Z }.

(** The [interface{}] values handed to [log] and to [Exec]. *)
#[local] Set Warnings "-register-all".
Inductive Value : Type :=
| VString (s : string)
| VInt (n : Z)
| VTime (t : Time)
| VError (e : error)
| VSlice (vs : list Value).

(** What a run does to the outside world, in order. *)
Inductive Event : Type :=
| Log (format : string) (args : list Value)
| Exec (sql : string) (args : list Value) (err : option error).

(** What a [bufio.Scanner] with the default split function yields over an
    opened file: the lines returned by [Text()] while [Scan()] is true, and
    the value of [Err()] afterwards. *)
Record File : Type := mkFile { tokens : list string; scan_err : option error }.

(** The collaborators: [time.Parse], [pgxpool.Connect], [Pool.Exec] on
    a store of type [Store], [os.Open], and the non-ASCII path of
    [strings.ToLower]. *)
Record Env (Store : Type) : Type := mkEnv {
  time_Parse : string -> string -> error + Time;
  pgxpool_Connect : string -> option error;
  pool_Exec : Store -> string -> list Value -> Store * option error;
  os_Open : string -> error + File;
  unicodeLower : string -> string
}.

Arguments time_Parse {Store} _ _ _.
Arguments pgxpool_Connect {Store} _ _.
Arguments pool_Exec {Store} _ _ _ _.
Arguments os_Open {Store} _ _.
Arguments unicodeLower {Store} _ _.

(** ** The monad of a run: store passing, an event log, and the two ways a
    Go process stops early ([log.Fatal] exits, an index out of range
    panics). *)

Inductive Result (A : Type) : Type :=
| Return (a : A)
| Fatal (args : list Value)
| Panic.

Arguments Return {A} a.
Arguments Fatal {A} args.
Arguments Panic {A}.

Record Outcome (Store A : Type) : Type := mkOutcome {
  store_of : Store;
  events_of : list Event;
  result_of : Result A
}.

Arguments mkOutcome {Store A} _ _ _.
Arguments store_of {Store A} _.
Arguments events_of {Store A} _.
Arguments result_of {Store A} _.

Definition M (Store A : Type) : Type := Store -> Outcome Store A.

Definition ret {Store A : Type} (a : A) : M Store A :=
  fun s => mkOutcome s [] (Return a).

(** The outcome [o], after the events [evs] have already happened. *)
Definition prepend {Store A : Type} (evs : list Event) (o : Outcome Store A)
  : Outcome Store A :=
  mkOutcome (store_of o) (evs ++ events_of o) (result_of o).

Definition bind {Store A B : Type} (m : M Store A) (k : A -> M Store B)
  : M Store B :=
  fun s =>
    let o := m s in
    match result_of o with
    | Return a => prepend (events_of o) (k a (store_of o))
    | Fatal args => mkOutcome (store_of o) (events_of o) (Fatal args)
    | Panic => mkOutcome (store_of o) (events_of o) Panic
    end.

Declare Scope run_scope.
Delimit Scope run_scope with run.
Notation "x <- m ;; k" := (bind m (fun x => k))
  (at level 61, m at next level, right associativity) : run_scope.
Notation "m ;; k" := (bind m (fun _ => k))
  (at level 61, right associativity) : run_scope.
Local Open Scope run_scope.

(** [log.Printf]. *)
Definition log_Printf {Store : Type} (format : string) (args : list Value)
  : M Store unit :=
  fun s => mkOutcome s [Log format args] (Return tt).

(** [log.Fatal]: the process exits. *)
Definition log_Fatal {Store A : Type} (args : list Value) : M Store A :=
  fun s => mkOutcome s [] (Fatal args).

Definition panic {Store A : Type} : M Store A :=
  fun s => mkOutcome s [] Panic.

(** [dbPool.Exec(ctx, sql, args...)], returning its [err]. *)
Definition dbPool_Exec {Store : Type} (E : Env Store)
  (sql : string) (args : list Value) : M Store (option error) :=
  fun s =>
    let (s', err) := pool_Exec E s sql args in
    mkOutcome s' [Exec sql args err] (Return err).

(** ** What the two revisions share *)

Definition DATE_FORMAT : string := "January 2 2006".
Definition IMPORT_TABLE_SCHEMA : string :=
  "CREATE TABLE IF NOT EXISTS imports (import_id serial PRIMARY KEY, name VARCHAR(200) NOT NULL, state VARCHAR(50) NOT NULL, import_date DATE NOT NULL)".
Definition IMPORTS_INSERT : string :=
  "INSERT INTO imports (name, state, import_date) VALUES ($1, $2, $3)".

(** The local variables of the scanning loop. *)
Record Loop (Row : Type) : Type := mkLoop {
  count : Z;
  errors : Z;
  rowData : list Row
}.

Arguments mkLoop {Row} _ _ _.
Arguments count {Row} _.
Arguments errors {Row} _.
Arguments rowData {Row} _.

Section Shared.

Context {Store : Type} (E : Env Store).

Definition stringToDate (date : string) : M Store Time :=
  if String.eqb date EmptyString then
    log_Fatal [VString "Missing required date field e.g. November 19 2020"]
  else
    match time_Parse E DATE_FORMAT date with
    | inl err => log_Fatal [VError err]
    | inr time =>
        log_Printf "File import time %s" [VTime time] ;;
        ret time
    end.

Definition dbLogImportData (name state : string) (time : Time)
  : M Store unit :=
  err <- dbPool_Exec E IMPORTS_INSERT [VString name; VString state; VTime time] ;;
  match err with
  | Some e => log_Printf "Error writing to imports: %v" [VError e]
  | None => ret tt
  end.

Definition dbSchemaCreate (idempotentSchema : string) : M Store unit :=
  err <- dbPool_Exec E idempotentSchema [] ;;
  match err with
  | Some e => log_Fatal [VError e]
  | None => ret tt
  end.

(** [pgxpool.Connect] followed by [if err != nil { log.Fatal(err) }]. *)
Definition connect (connectionString : string) : M Store unit :=
  match pgxpool_Connect E connectionString with
  | Some err => log_Fatal [VError err]
  | None => ret tt
  end.

(** [os.Open] followed by [if err != nil { log.Fatal(err) }]. *)
Definition open (filename : string) : M Store File :=
  match os_Open E filename with
  | inl err => log_Fatal [VError err]
  | inr f => ret f
  end.

(** The start of [hibpEtl], up to the opened file: the date, the pool, the
    two schema statements and [os.Open]. *)
Definition setup (schema connectionString filename date : string)
  : M Store (Time * File) :=
  time <- stringToDate date ;;
  log_Printf "HIBP Processing file %s for %s" [VString filename; VString date] ;;
  connect connectionString ;;
  dbSchemaCreate schema ;;
  dbSchemaCreate IMPORT_TABLE_SCHEMA ;;
  f <- open filename ;;
  ret (time, f).

(** [for s.Scan() { body }] over the lines the scanner yields. *)
Fixpoint scan {St : Type} (body : string -> St -> M Store St)
  (lines : list string) (st : St) : M Store St :=
  match lines with
  | [] => ret st
  | line :: rest => st' <- body line st ;; scan body rest st'
  end.

(** [err = s.Err(); if err != nil { log.Fatal(err) }]. *)
Definition check_scan (f : File) : M Store unit :=
  match scan_err f with
  | Some err => log_Fatal [VError err]
  | None => ret tt
  end.

(** Lines 118-126: the terminal state and the ledger entry. *)
Definition report (name : string) (errors : Z) (time : Time) : M Store unit :=
  state <- (if errors >? 0 then
              log_Printf "%d Error(s) found" [VInt errors] ;; ret "error"
            else ret "done") ;;
  dbLogImportData name state time.

End Shared.

(** *** Vocabulary for the statements below *)

(** The terminal state recorded for an error count. *)
Definition state_of (errors : Z) : string :=
  if errors >? 0 then "error" else "done".

(** The ledger statement of a run with [errors] errors, answered [err]. *)
Definition ledger_entry (name : string) (errors : Z) (time : Time)
  (err : option error) : Event :=
  Exec IMPORTS_INSERT [VString name; VString (state_of errors); VTime time] err.

(** The events of [report]. *)
Definition report_events (name : string) (errors : Z) (time : Time)
  (err : option error) : list Event :=
  (if errors >? 0 then [Log "%d Error(s) found" [VInt errors]] else [])
    ++ ledger_entry name errors time err
    :: match err with
       | Some e => [Log "Error writing to imports: %v" [VError e]]
       | None => []
       end.

(** What a batch adds to the error counter. *)
Definition batch_errors (err : option error) : Z :=
  match err with Some _ => 1 | None => 0 end.

Definition is_exec (ev : Event) : bool :=
  match ev with Exec _ _ _ => true | Log _ _ => false end.

(** An execution of the ledger statement. *)
Definition is_ledger (ev : Event) : bool :=
  match ev with
  | Exec sql _ _ => String.eqb sql IMPORTS_INSERT
  | Log _ _ => false
  end.

(** An execution of a multi-row insert into [hibp]. *)
Definition is_batch_write (ev : Event) : bool :=
  match ev with
  | Exec sql _ _ => String.prefix "INSERT INTO hibp " sql
  | Log _ _ => false
  end.

(** ** [src/securitypizza_etl.go]: identifier-only rows *)

Module Reencode.

Definition BATCH_SIZE : Z := 60000.
Definition HIBP_TABLE_SCHEMA : string :=
  "CREATE TABLE IF NOT EXISTS hibp (hibp_id CHAR(25) NOT NULL PRIMARY KEY, password VARCHAR(150))".

(** The [range] loop of [hibpProcessRowDataBatch], from index [i]. *)
Fixpoint placeholders (rowData : list string) (i : Z)
  (values : list string) (args : list Value) : list string * list Value :=
  match rowData with
  | [] => (values, args)
  | row :: rest =>
      placeholders rest (i + 1)
        (values ++ [("($" ++ fmt_d (i + 1) ++ ")")%string])
        (args ++ [VString row])
  end.

Definition batch_query (rowData : list string) : string :=
  ("INSERT INTO hibp (hibp_id) VALUES "
     ++ strings.Join (fst (placeholders rowData 0 [] [])) ","
     ++ " ON CONFLICT (hibp_id) DO NOTHING")%string.

Definition batch_args (rowData : list string) : list Value :=
  snd (placeholders rowData 0 [] []).

(** Lines 96-100: the identifier of a decoded hash; [None] is the panic of
    [ascii85.Encode] on a destination that is too short. *)
Definition reencode (hash : list byte) : option string :=
  let hibpLen := ascii85.MaxEncodedLen (List.length hash) in
  match ascii85.Encode hibpLen hash with
  | None => None
  | Some written => Some (string_of_list_byte written)
  end.

Section Loader.

Context {Store : Type} (E : Env Store).

Definition hibpProcessRowDataBatch (rowData : list string) : M Store Z :=
  let query := batch_query rowData in
  let args := batch_args rowData in
  err <- dbPool_Exec E query args ;;
  match err with
  | Some e =>
      log_Printf "Err: %v on %s: %v" [VError e; VString query; VSlice args] ;;
      ret (wrap_int (0 + 1))
  | None => ret 0
  end.

(** Lines 104-110: count the row, append it, flush a full batch. *)
Definition accept (hibp : string) (st : Loop string) : M Store (Loop string) :=
  let count := wrap_int (count st + 1) in
  let rowData := rowData st ++ [hibp] in
  if Z.rem count BATCH_SIZE =? 0 then
    log_Printf "processing %d..." [VInt count] ;;
    e <- hibpProcessRowDataBatch rowData ;;
    ret (mkLoop count (wrap_int (errors st + e)) [])
  else ret (mkLoop count (errors st) rowData).

(** Lines 86-110: the body of the scanning loop. *)
Definition scan_line (line : string) (st : Loop string)
  : M Store (Loop string) :=
  match strings.SplitN line ":" 2 with
  | [data0; data1] =>
      match hex_DecodeString data0 with
      | inl err => ret (mkLoop (count st) (wrap_int (errors st + 1)) (rowData st))
      | inr hash =>
          match reencode hash with
          | None => panic
          | Some hibp =>
              (if negb (utf8.ValidString hibp) then
                 log_Fatal [VString "Warning not a string %v"; VString hibp]
               else ret tt) ;;
              accept hibp st
          end
      end
  | _ => ret (mkLoop (count st) (wrap_int (errors st + 1)) (rowData st))
  end.

(** Lines 61-116: everything up to and including the final flush. *)
Definition load (connectionString filename date : string)
  : M Store (Z * Z * Time) :=
  r <- setup E HIBP_TABLE_SCHEMA connectionString filename date ;;
  let '(time, f) := r in
  st <- scan scan_line (tokens f) (mkLoop 0 0 []) ;;
  check_scan f ;;
  e <- hibpProcessRowDataBatch (rowData st) ;;
  ret (count st, wrap_int (errors st + e), time).

Definition hibpEtl (connectionString filename date : string) : M Store Z :=
  r <- load connectionString filename date ;;
  let '(count, errors, time) := r in
  report E "pwned-passwords-sha1" errors time ;;
  ret count.

End Loader.

(** *** Vocabulary for the statements below *)

(** The identifier a line yields, [None] for a line counted as an error. *)
Definition parse (line : string) : option string :=
  match strings.SplitN line ":" 2 with
  | [data0; data1] =>
      match hex_DecodeString data0 with
      | inl _ => None
      | inr hash => reencode hash
      end
  | _ => None
  end.

(** The events of one call of [hibpProcessRowDataBatch] answered [err]. *)
Definition batch_events (rowData : list string) (err : option error)
  : list Event :=
  Exec (batch_query rowData) (batch_args rowData) err
    :: match err with
       | Some e =>
           [Log "Err: %v on %s: %v"
              [VError e; VString (batch_query rowData);
               VSlice (batch_args rowData)]]
       | None => []
       end.

End Reencode.

(** ** [src/src/securitypizza_etl.go]: count rows *)

Module CountMode.

Definition BATCH_SIZE : Z := 10000.
Definition HIBP_TABLE_SCHEMA : string :=
  "CREATE TABLE IF NOT EXISTS hibp (hibp_id CHAR(40) NOT NULL PRIMARY KEY, password VARCHAR(200), count INT)".

Record hibpData : Type := mkData { hash : string; hcount : Z }.

(** The [range] loop of [hibpProcessRowDataBatch], from index [i]. *)
Fixpoint placeholders (rowData : list hibpData) (i : Z)
  (values : list string) (args : list Value) : list string * list Value :=
  match rowData with
  | [] => (values, args)
  | row :: rest =>
      placeholders rest (i + 1)
        (values ++ [("($" ++ fmt_d (i * 2 + 1) ++ ", $"
                          ++ fmt_d (i * 2 + 2) ++ ")")%string])
        ((args ++ [VString (hash row)]) ++ [VInt (hcount row)])
  end.

Definition batch_query (rowData : list hibpData) : string :=
  ("INSERT INTO hibp (hibp_id, count) VALUES "
     ++ strings.Join (fst (placeholders rowData 0 [] [])) ","
     ++ " ON CONFLICT (hibp_id) DO UPDATE SET count = EXCLUDED.count")%string.

Definition batch_args (rowData : list hibpData) : list Value :=
  snd (placeholders rowData 0 [] []).

Section Loader.

Context {Store : Type} (E : Env Store).

Definition hibpProcessRowDataBatch (rowData : list hibpData) : M Store Z :=
  let query := batch_query rowData in
  let args := batch_args rowData in
  err <- dbPool_Exec E query args ;;
  match err with
  | Some e =>
      log_Printf "Err: %v on %s" [VError e; VString query] ;;
      ret (wrap_int (0 + 1))
  | None => ret 0
  end.

(** Lines 101-110: count the row, append it, flush a full batch. *)
Definition accept (row : hibpData) (st : Loop hibpData)
  : M Store (Loop hibpData) :=
  let count := wrap_int (count st + 1) in
  let rowData := rowData st ++ [row] in
  if Z.rem count BATCH_SIZE =? 0 then
    log_Printf "processing %d..." [VInt count] ;;
    e <- hibpProcessRowDataBatch rowData ;;
    ret (mkLoop count (wrap_int (errors st + e)) [])
  else ret (mkLoop count (errors st) rowData).

(** Lines 90-110: the body of the scanning loop. *)
Definition scan_line (line : string) (st : Loop hibpData)
  : M Store (Loop hibpData) :=
  match strings.SplitN line ":" 2 with
  | [data0; data1] =>
      match strconv.Atoi data1 with
      | inl err => ret (mkLoop (count st) (wrap_int (errors st + 1)) (rowData st))
      | inr numCount =>
          let hash := strings.ToLower (unicodeLower E) data0 in
          accept (mkData hash numCount) st
      end
  | _ => ret (mkLoop (count st) (wrap_int (errors st + 1)) (rowData st))
  end.

(** Lines 65-116: everything up to and including the final flush. *)
Definition load (connectionString filename date : string)
  : M Store (Z * Z * Time) :=
  r <- setup E HIBP_TABLE_SCHEMA connectionString filename date ;;
  let '(time, f) := r in
  st <- scan scan_line (tokens f) (mkLoop 0 0 []) ;;
  check_scan f ;;
  e <- hibpProcessRowDataBatch (rowData st) ;;
  ret (count st, wrap_int (errors st + e), time).

Definition hibpEtl (connectionString filename date : string) : M Store Z :=
  r <- load connectionString filename date ;;
  let '(count, errors, time) := r in
  report E "pwned-passwords-sha1" errors time ;;
  ret count.

End Loader.

(** *** Vocabulary for the statements below *)

(** The row a line yields, [None] for a line counted as an error. *)
Definition parse {Store : Type} (E : Env Store) (line : string)
  : option hibpData :=
  match strings.SplitN line ":" 2 with
  | [data0; data1] =>
      match strconv.Atoi data1 with
      | inl _ => None
      | inr numCount =>
          Some (mkData (strings.ToLower (unicodeLower E) data0) numCount)
      end
  | _ => None
  end.

(** The events of one call of [hibpProcessRowDataBatch] answered [err]. *)
Definition batch_events (rowData : list hibpData) (err : option error)
  : list Event :=
  Exec (batch_query rowData) (batch_args rowData) err
    :: match err with
       | Some e =>
           [Log "Err: %v on %s" [VError e; VString (batch_query rowData)]]
       | None => []
       end.

End CountMode.

(** ** Environments to run the loader in *)

(** An environment whose input file holds [lines] and whose store answers
    a statement by [answer], whatever was executed before. *)
Definition serving (lines : list string)
  (answer : string -> list Value -> option error) : Env unit :=
  mkEnv unit
    (fun _ _ => inr (mkTime 2020 11 19))
    (fun _ => None)
    (fun s sql args => (s, answer sql args))
    (fun _ => inr (mkFile lines None))
    (fun s => s).

(** A store that accepts every statement. *)
Definition accepting (sql : string) (args : list Value) : option error :=
  None.

(** A store that parses its statements: a [VALUES] list without a tuple is
    a syntax error. *)
Definition strict (sql : string) (args : list Value) : option error :=
  if String.prefix "INSERT INTO hibp " sql && (List.length args =? 0)%nat
  then Some "syntax error at or near ON"
  else None.

(** A store that fails every statement. *)
Definition unreachable (sql : string) (args : list Value) : option error :=
  Some "connection reset".

(** A store that takes the schema and the ledger statements but refuses
    every insert into [hibp]. *)
Definition unreachable_rows (sql : string) (args : list Value)
  : option error :=
  if String.prefix "INSERT INTO hibp " sql then Some "deadlock detected"
  else None.

(** A store whose ledger table cannot be written. *)
Definition ledger_down (sql : string) (args : list Value) : option error :=
  if String.eqb sql IMPORTS_INSERT then Some "permission denied" else None.

(** An environment like [serving], whose file yields [lines] and then
    stops with a read error of the scanner. *)
Definition interrupted (lines : list string)
  (answer : string -> list Value -> option error) : Env unit :=
  mkEnv unit
    (fun _ _ => inr (mkTime 2020 11 19))
    (fun _ => None)
    (fun s sql args => (s, answer sql args))
    (fun _ => inr (mkFile lines (Some "bufio.Scanner: token too long")))
    (fun s => s).

(** A store that refuses the batch writes of the count revision only:
    a count beyond the range of the [INT] column. *)
Definition count_refused (sql : string) (args : list Value) : option error :=
  if String.prefix "INSERT INTO hibp (hibp_id, count) " sql
  then Some "integer out of range"
  else None.

(** A store that refuses the batch writes of the re-encoding revision
    only: an identifier longer than the [CHAR(25)] column. *)
Definition id_refused (sql : string) (args : list Value) : option error :=
  if String.prefix "INSERT INTO hibp (hibp_id) " sql
  then Some "value too long for type character(25)"
  else None.

(** An environment whose database cannot be reached. *)
Definition offline : Env unit :=
  mkEnv unit
    (fun _ _ => inr (mkTime 2020 11 19))
    (fun _ => Some "dial tcp: connection refused")
    (fun s sql args => (s, None))
    (fun _ => inr (mkFile [] None))
    (fun s => s).

(** A server that answers the version query. *)
Definition answering (s : unit) (sql : string) : unit * (error + string) :=
  (s, inr "PostgreSQL 13.1").

(** ** [hibpPasswordsEtl]: password rows

    The function and its Writer are the same in both revisions; each uses
    the [BATCH_SIZE] and the [HIBP_TABLE_SCHEMA] of its file, which are
    parameters here. *)

Module Passwords.

Record hibpPasswordData : Type := mkPassword { hash : string; password : string }.

(** The [range] loop of [hibpPasswordProcessRowDataBatch], from index [i]. *)
Fixpoint placeholders (rowData : list hibpPasswordData) (i : Z)
  (values : list string) (args : list Value) : list string * list Value :=
  match rowData with
  | [] => (values, args)
  | row :: rest =>
      placeholders rest (i + 1)
        (values ++ [("($" ++ fmt_d (i * 2 + 1) ++ ", $"
                          ++ fmt_d (i * 2 + 2) ++ ")")%string])
        ((args ++ [VString (hash row)]) ++ [VString (password row)])
  end.

Definition batch_query (rowData : list hibpPasswordData) : string :=
  ("INSERT INTO hibp (hibp_id, password) VALUES "
     ++ strings.Join (fst (placeholders rowData 0 [] [])) ","
     ++ " ON CONFLICT (hibp_id) DO UPDATE SET password = EXCLUDED.password")%string.

Definition batch_args (rowData : list hibpPasswordData) : list Value :=
  snd (placeholders rowData 0 [] []).

Section Loader.

Context {Store : Type} (E : Env Store).
Variable BATCH_SIZE : Z.
Variable HIBP_TABLE_SCHEMA : string.

Definition hibpPasswordProcessRowDataBatch (rowData : list hibpPasswordData)
  : M Store Z :=
  let query := batch_query rowData in
  let args := batch_args rowData in
  err <- dbPool_Exec E query args ;;
  match err with
  | Some e =>
      log_Printf "Err: %v on %s" [VError e; VString query] ;;
      ret (wrap_int (0 + 1))
  | None => ret 0
  end.

(** The body of the scanning loop of [hibpPasswordsEtl]. *)
Definition scan_line (line : string) (st : Loop hibpPasswordData)
  : M Store (Loop hibpPasswordData) :=
  match strings.SplitN line ":" 2 with
  | [data0; data1] =>
      let hash := strings.ToLower (unicodeLower E) data0 in
      let password := data1 in
      let count := wrap_int (count st + 1) in
      let row := mkPassword hash password in
      let rowData := rowData st ++ [row] in
      if Z.rem count BATCH_SIZE =? 0 then
        log_Printf "processing %d..." [VInt count] ;;
        e <- hibpPasswordProcessRowDataBatch rowData ;;
        ret (mkLoop count (wrap_int (errors st + e)) [])
      else ret (mkLoop count (errors st) rowData)
  | _ => ret (mkLoop (count st) (wrap_int (errors st + 1)) (rowData st))
  end.

(** The start of [hibpPasswordsEtl], up to the opened file. *)
Definition start (connectionString filename date : string)
  : M Store (Time * File) :=
  time <- stringToDate E date ;;
  log_Printf "HIBP Passwords Processing file %s for %s"
    [VString filename; VString date] ;;
  connect E connectionString ;;
  dbSchemaCreate E HIBP_TABLE_SCHEMA ;;
  dbSchemaCreate E IMPORT_TABLE_SCHEMA ;;
  f <- open E filename ;;
  ret (time, f).

(** Everything up to and including the final flush. *)
Definition load (connectionString filename date : string)
  : M Store (Z * Z * Time) :=
  r <- start connectionString filename date ;;
  let '(time, f) := r in
  st <- scan scan_line (tokens f) (mkLoop 0 0 []) ;;
  check_scan f ;;
  e <- hibpPasswordProcessRowDataBatch (rowData st) ;;
  ret (count st, wrap_int (errors st + e), time).

Definition hibpPasswordsEtl (connectionString filename date : string)
  : M Store Z :=
  r <- load connectionString filename date ;;
  let '(count, errors, time) := r in
  report E "pwned-passwords-plain" errors time ;;
  ret count.

End Loader.

(** *** Vocabulary for the statements below *)

(** The row a line yields, [None] for a line counted as an error. *)
Definition parse {Store : Type} (E : Env Store) (line : string)
  : option hibpPasswordData :=
  match strings.SplitN line ":" 2 with
  | [data0; data1] =>
      Some (mkPassword (strings.ToLower (unicodeLower E) data0) data1)
  | _ => None
  end.

(** The events of one call of the Writer answered [err]. *)
Definition batch_events (rowData : list hibpPasswordData)
  (err : option error) : list Event :=
  Exec (batch_query rowData) (batch_args rowData) err
    :: match err with
       | Some e =>
           [Log "Err: %v on %s" [VError e; VString (batch_query rowData)]]
       | None => []
       end.

End Passwords.

(** ** [dbVersion] and [main]

    [main] is the same in both revisions.  What [os.Getenv] and
    [flag.Parse] deliver is its input; [QueryRow(...).Scan] is the
    parameter [pool_QueryRow], and the query is recorded among the events
    like an executed statement. *)

Module Main.

Record Flags : Type := mkFlags {
  hibp_file : string;
  hibp_date : string;
  hibp_passwords_file : string
}.

Definition VERSION_QUERY : string := "SELECT version()".

Section Program.

Context {Store : Type} (E : Env Store).
Variable pool_QueryRow : Store -> string -> Store * (error + string).
Variable hibpEtl : string -> string -> string -> M Store Z.
Variable hibpPasswordsEtl : string -> string -> string -> M Store Z.

Definition dbVersion (connectionString : string) : M Store string :=
  connect E connectionString ;;
  (fun s =>
     let (s', r) := pool_QueryRow s VERSION_QUERY in
     match r with
     | inl err =>
         mkOutcome s' [Exec VERSION_QUERY [] (Some err)] (Fatal [VError err])
     | inr dbVersion =>
         mkOutcome s' [Exec VERSION_QUERY [] None] (Return dbVersion)
     end).

Definition main (DATABASEURL : string) (flags : Flags) : M Store unit :=
  let dbConnectionString := DATABASEURL in
  (if String.eqb dbConnectionString EmptyString then
     log_Fatal [VString "Missing env DATABASEURL"]
   else ret tt) ;;
  version <- dbVersion dbConnectionString ;;
  log_Printf ("Connecting to PG: %s" ++ String "010"%char EmptyString)
    [VString version] ;;
  (if negb (String.eqb (hibp_file flags) EmptyString) then
     n <- hibpEtl dbConnectionString (hibp_file flags) (hibp_date flags) ;;
     log_Printf "hibp import %d records" [VInt n]
   else ret tt) ;;
  (if negb (String.eqb (hibp_passwords_file flags) EmptyString) then
     n <- hibpPasswordsEtl dbConnectionString (hibp_passwords_file flags)
            (hibp_date flags) ;;
     log_Printf "hibp passwords import %d" [VInt n]
   else ret tt).

End Program.

End Main.

(** ** Vocabulary for whole runs *)

(** The rows of the accepted lines, in the order of the input. *)
Definition rows_of {Row : Type} (parse : string -> option Row)
  (lines : list string) : list Row :=
  flat_map (fun line => match parse line with
                        | Some row => [row]
                        | None => []
                        end) lines.

(** The number of lines counted as errors. *)
Definition rejected {Row : Type} (parse : string -> option Row)
  (lines : list string) : Z :=
  Z.of_nat (List.length lines) - Z.of_nat (List.length (rows_of parse lines)).

(** A batch write: the rows handed to the Writer and the store's answer. *)
Definition Batch (Row : Type) : Type := (list Row * option error)%type.

(** The number of batch writes the store refused. *)
Definition failures {Row : Type} (batches : list (Batch Row)) : Z :=
  Z.of_nat (List.length
              (filter (fun b : Batch Row =>
                         match snd b with Some _ => true | None => false end)
                      batches)).

(** The statement of a batch write, as an event. *)
Definition write_event {Row : Type} (query : list Row -> string)
  (args : list Row -> list Value) (b : Batch Row) : Event :=
  Exec (query (fst b)) (args (fst b)) (snd b).

(* ================================================================= *)
(** * Part III: properties                                             *)
(* ================================================================= *)

(** ** Bytes *)

Lemma byte_to_Z_range (b : byte) : 0 <= byte_to_Z b < 256.
Proof.
  unfold byte_to_Z. pose proof (Byte.to_N_bounded b). lia.
Qed.

Lemma byte_of_to_Z (b : byte) : byte_of_Z (byte_to_Z b) = b.
Proof.
  unfold byte_of_Z. pose proof (byte_to_Z_range b) as Hb.
  rewrite Z.mod_small by exact Hb.
  unfold byte_to_Z. rewrite N2Z.id, Byte.of_to_N. reflexivity.
Qed.

Lemma byte_to_of_Z (z : Z) : byte_to_Z (byte_of_Z z) = z mod 256.
Proof.
  unfold byte_of_Z, byte_to_Z.
  pose proof (Z.mod_pos_bound z 256 ltac:(lia)) as Hm.
  destruct (Byte.of_N (Z.to_N (z mod 256))) as [b|] eqn:Hof.
  - apply Byte.to_of_N in Hof. rewrite Hof. lia.
  - apply Byte.of_N_None_iff in Hof. lia.
Qed.

Lemma byte_of_Z_eq (z : Z) (b : byte) :
  z mod 256 = byte_to_Z b -> byte_of_Z z = b.
Proof.
  intros H. rewrite <- (byte_of_to_Z b), <- H.
  unfold byte_of_Z. rewrite Z.mod_mod by lia. reflexivity.
Qed.

Lemma ascii_of_byte_to_Z (b : byte) :
  ascii_to_Z (ascii_of_byte b) = byte_to_Z b.
Proof.
  unfold ascii_to_Z, byte_to_Z.
  rewrite ascii_of_byte_via_N, N_ascii_embedding; [reflexivity|].
  pose proof (Byte.to_N_bounded b). lia.
Qed.

(** ** Bit operations as arithmetic *)

Lemma lor_shiftl_add (x y k : Z) :
  0 <= k -> 0 <= x < 2 ^ k -> Z.lor x (Z.shiftl y k) = x + y * 2 ^ k.
Proof.
  intros Hk Hx.
  assert (Hland : Z.land x (Z.shiftl y k) = 0).
  { apply Z.bits_inj'. intros n Hn.
    rewrite Z.land_spec, Z.bits_0.
    destruct (Z.lt_ge_cases n k) as [Hlt|Hge].
    - rewrite Z.shiftl_spec_low by exact Hlt. apply andb_false_r.
    - rewrite <- (Z.mod_small x (2 ^ k)) by exact Hx.
      rewrite Z.mod_pow2_bits_high by lia. reflexivity. }
  rewrite <- Z.lxor_lor by exact Hland.
  rewrite <- Z.add_nocarry_lxor by exact Hland.
  rewrite Z.shiftl_mul_pow2 by exact Hk. reflexivity.
Qed.

(** ** encoding/ascii85: decoding undoes encoding *)

Module ascii85_facts.
Import ascii85.

Lemma pack_arith (b0 b1 b2 b3 : Z) :
  0 <= b0 < 256 -> 0 <= b1 < 256 -> 0 <= b2 < 256 -> 0 <= b3 < 256 ->
  pack b0 b1 b2 b3 = b0 * 16777216 + b1 * 65536 + b2 * 256 + b3.
Proof.
  intros H0 H1 H2 H3. unfold pack.
  rewrite (lor_shiftl_add b3 b2 8) by lia.
  rewrite (lor_shiftl_add _ b1 16) by lia.
  rewrite (lor_shiftl_add _ b0 24) by lia.
  lia.
Qed.

Lemma pack_bytes (b0 b1 b2 b3 : byte) :
  pack (byte_to_Z b0) (byte_to_Z b1) (byte_to_Z b2) (byte_to_Z b3)
  = byte_to_Z b0 * 16777216 + byte_to_Z b1 * 65536
    + byte_to_Z b2 * 256 + byte_to_Z b3.
Proof. apply pack_arith; apply byte_to_Z_range. Qed.

Lemma list_ind4 {A : Type} (P : list A -> Prop) :
  P [] -> (forall a, P [a]) -> (forall a b, P [a; b]) ->
  (forall a b c, P [a; b; c]) ->
  (forall a b c d rest, P rest -> P (a :: b :: c :: d :: rest)) ->
  forall l, P l.
Proof.
  intros H0 H1 H2 H3 H4.
  fix IH 1. intros [|a [|b [|c [|d rest]]]];
    [exact H0 | apply H1 | apply H2 | apply H3 | apply H4; apply IH].
Qed.

Lemma digits5 (v : Z) :
  digits 5 v [] =
  [byte_of_Z (33 + v / 85 / 85 / 85 / 85 mod 85);
   byte_of_Z (33 + v / 85 / 85 / 85 mod 85);
   byte_of_Z (33 + v / 85 / 85 mod 85);
   byte_of_Z (33 + v / 85 mod 85);
   byte_of_Z (33 + v mod 85)].
Proof. reflexivity. Qed.


Lemma decode_digit (x : Z) (rest : list byte) (i : nat) (v : Z) (nb : nat) :
  0 <= x < 85 ->
  decode_from (byte_of_Z (33 + x) :: rest) i v nb =
  if (S nb =? 5)%nat then
    match decode_from rest (S i) 0 0 with
    | inl e => inl e
    | inr out => inr (unpack (wrap_u32 (v * 85 + x)) ++ out)
    end
  else decode_from rest (S i) (wrap_u32 (v * 85 + x)) (S nb).
Proof.
  intros Hx. cbn [decode_from].
  rewrite byte_to_of_Z, Z.mod_small by lia.
  replace (33 + x <=? 32) with false by (symmetry; apply Z.leb_gt; lia).
  replace (33 + x =? 122) with false by (symmetry; apply Z.eqb_neq; lia).
  replace (33 <=? 33 + x) with true by (symmetry; apply Z.leb_le; lia).
  replace (33 + x <=? 117) with true by (symmetry; apply Z.leb_le; lia).
  cbn [andb]. replace (33 + x - 33) with x by lia. reflexivity.
Qed.

Lemma decode_z (rest : list byte) (i : nat) :
  decode_from (z_char :: rest) i 0 0 =
  match decode_from rest (S i) 0 0 with
  | inl e => inl e
  | inr out => inr (unpack 0 ++ out)
  end.
Proof. reflexivity. Qed.


Ltac zdm := Z.div_mod_to_equations; lia.

Lemma horner5 (v : Z) :
  0 <= v < 4294967296 ->
  wrap_u32 (wrap_u32 (wrap_u32 (wrap_u32 (wrap_u32
    (0 * 85 + v / 85 / 85 / 85 / 85 mod 85) * 85
       + v / 85 / 85 / 85 mod 85) * 85
       + v / 85 / 85 mod 85) * 85
       + v / 85 mod 85) * 85
       + v mod 85) = v.
Proof.
  intros Hv. unfold wrap_u32.
  assert (H4 : v / 85 / 85 / 85 / 85 mod 85 = v / 85 / 85 / 85 / 85) by zdm.
  rewrite H4.
  assert (E1 : (0 * 85 + v / 85 / 85 / 85 / 85) mod 4294967296
               = v / 85 / 85 / 85 / 85) by zdm.
  rewrite E1.
  assert (E2 : v / 85 / 85 / 85 / 85 * 85 + v / 85 / 85 / 85 mod 85
               = v / 85 / 85 / 85) by zdm.
  rewrite E2.
  rewrite (Z.mod_small (v / 85 / 85 / 85)) by zdm.
  assert (E3 : v / 85 / 85 / 85 * 85 + v / 85 / 85 mod 85 = v / 85 / 85) by zdm.
  rewrite E3.
  rewrite (Z.mod_small (v / 85 / 85)) by zdm.
  assert (E4 : v / 85 / 85 * 85 + v / 85 mod 85 = v / 85) by zdm.
  rewrite E4.
  rewrite (Z.mod_small (v / 85)) by zdm.
  assert (E5 : v / 85 * 85 + v mod 85 = v) by zdm.
  rewrite E5. apply Z.mod_small. lia.
Qed.

Lemma unpack_pack (b0 b1 b2 b3 : byte) :
  unpack (pack (byte_to_Z b0) (byte_to_Z b1) (byte_to_Z b2) (byte_to_Z b3))
  = [b0; b1; b2; b3].
Proof.
  rewrite pack_bytes. unfold unpack.
  pose proof (byte_to_Z_range b0). pose proof (byte_to_Z_range b1).
  pose proof (byte_to_Z_range b2). pose proof (byte_to_Z_range b3).
  rewrite !Z.shiftr_div_pow2 by lia.
  repeat f_equal; apply byte_of_Z_eq; change (2 ^ 24) with 16777216;
    change (2 ^ 16) with 65536; change (2 ^ 8) with 256; zdm.
Qed.


Lemma pack_range (b0 b1 b2 b3 : byte) :
  0 <= pack (byte_to_Z b0) (byte_to_Z b1) (byte_to_Z b2) (byte_to_Z b3)
    < 4294967296.
Proof.
  rewrite pack_bytes.
  pose proof (byte_to_Z_range b0). pose proof (byte_to_Z_range b1).
  pose proof (byte_to_Z_range b2). pose proof (byte_to_Z_range b3). lia.
Qed.

Lemma digit_range (v : Z) : 0 <= v mod 85 < 85.
Proof. apply Z.mod_pos_bound. lia. Qed.

(** Decoding one full group. *)
Lemma decode_group4 (b0 b1 b2 b3 : byte) (rest : list byte) (i : nat) :
  exists j,
    decode_from
      (encode_group 4
         (pack (byte_to_Z b0) (byte_to_Z b1) (byte_to_Z b2) (byte_to_Z b3))
         ++ rest) i 0 0
    = match decode_from rest j 0 0 with
      | inl e => inl e
      | inr out => inr ([b0; b1; b2; b3] ++ out)
      end.
Proof.
  pose proof (pack_range b0 b1 b2 b3) as Hv.
  pose proof (unpack_pack b0 b1 b2 b3) as Hu.
  set (v := pack _ _ _ _) in *.
  unfold encode_group. destruct (v =? 0) eqn:Hz; cbn [andb Nat.leb].
  - apply Z.eqb_eq in Hz. exists (S i).
    change ([z_char] ++ rest) with (z_char :: rest).
    rewrite decode_z. rewrite Hz in Hu. rewrite Hu. reflexivity.
  - exists (S (S (S (S (S i))))).
    rewrite digits5. cbn [Nat.sub firstn].
    rewrite <- !app_comm_cons. rewrite app_nil_l.
    rewrite !decode_digit by apply digit_range.
    cbn [Nat.eqb]. rewrite horner5 by exact Hv. rewrite Hu. reflexivity.
Qed.


Lemma pack_short (b0 b1 b2 : Z) :
  0 <= b0 < 256 -> 0 <= b1 < 256 -> 0 <= b2 < 256 ->
  pack b0 b1 b2 0 = b0 * 16777216 + b1 * 65536 + b2 * 256.
Proof. intros. rewrite pack_arith by lia. lia. Qed.

Lemma encode_group_short (k : nat) (v : Z) :
  (k < 4)%nat -> encode_group k v = firstn (S k) (digits 5 v []).
Proof.
  intros Hk. unfold encode_group.
  replace (4 <=? k)%nat with false by (symmetry; apply Nat.leb_gt; lia).
  rewrite andb_false_r. f_equal. lia.
Qed.

Lemma top_digits (v : Z) :
  0 <= v < 4294967296 ->
  wrap_u32 (wrap_u32 (0 * 85 + v / 85 / 85 / 85 / 85 mod 85) * 85
            + v / 85 / 85 / 85 mod 85) = v / 614125
  /\ wrap_u32 (v / 614125 * 85 + v / 85 / 85 mod 85) = v / 7225
  /\ wrap_u32 (v / 7225 * 85 + v / 85 mod 85) = v / 85.
Proof.
  intros Hv. unfold wrap_u32.
  assert (D3 : v / 85 / 85 / 85 = v / 614125)
    by (rewrite !Z.div_div by lia; reflexivity).
  assert (D2 : v / 85 / 85 = v / 7225)
    by (rewrite !Z.div_div by lia; reflexivity).
  assert (H4 : v / 85 / 85 / 85 / 85 mod 85 = v / 85 / 85 / 85 / 85) by zdm.
  rewrite H4.
  assert (E1 : (0 * 85 + v / 85 / 85 / 85 / 85) mod 4294967296
               = v / 85 / 85 / 85 / 85) by zdm.
  rewrite E1.
  assert (E2 : v / 85 / 85 / 85 / 85 * 85 + v / 85 / 85 / 85 mod 85
               = v / 85 / 85 / 85) by zdm.
  rewrite E2, D3.
  rewrite (Z.mod_small (v / 614125)) by zdm.
  split; [reflexivity|].
  assert (E3 : v / 614125 * 85 + v / 85 / 85 mod 85 = v / 7225)
    by (rewrite <- D3, <- D2; zdm).
  rewrite E3. rewrite (Z.mod_small (v / 7225)) by zdm.
  split; [reflexivity|].
  assert (E4 : v / 7225 * 85 + v / 85 mod 85 = v / 85)
    by (rewrite <- D2; zdm).
  rewrite E4. apply Z.mod_small. zdm.
Qed.

(** Padding a short group with the digit 84 overshoots the encoded value
    by less than one unit of the lowest byte that is kept. *)
Lemma pad84_bounds (c : Z) (n : nat) (v : Z) :
  (c = 614125 /\ n = 3%nat \/ c = 7225 /\ n = 2%nat \/ c = 85 /\ n = 1%nat) ->
  0 <= v -> v + c <= 4294967296 ->
  v <= pad84 n (v / c) < v + c.
Proof.
  intros Hc H0 Hv.
  destruct Hc as [[-> ->]|[[-> ->]|[-> ->]]]; cbn [pad84]; unfold wrap_u32.
  - assert (Hq : 614125 * (v / 614125) <= v < 614125 * (v / 614125) + 614125)
      by zdm.
    set (q := v / 614125) in *.
    rewrite (Z.mod_small (q * 85 + 84)) by lia.
    rewrite (Z.mod_small ((q * 85 + 84) * 85 + 84)) by lia.
    rewrite Z.mod_small by lia. lia.
  - assert (Hq : 7225 * (v / 7225) <= v < 7225 * (v / 7225) + 7225) by zdm.
    set (q := v / 7225) in *.
    rewrite (Z.mod_small (q * 85 + 84)) by lia.
    rewrite Z.mod_small by lia. lia.
  - assert (Hq : 85 * (v / 85) <= v < 85 * (v / 85) + 85) by zdm.
    set (q := v / 85) in *.
    rewrite Z.mod_small by lia. lia.
Qed.

Lemma decode_short1 (b0 : byte) (i : nat) :
  decode_from (encode_group 1 (pack (byte_to_Z b0) 0 0 0)) i 0 0 = inr [b0].
Proof.
  pose proof (byte_to_Z_range b0) as H0.
  rewrite encode_group_short by lia.
  rewrite (pack_short (byte_to_Z b0) 0 0) by lia.
  set (v := _ + _ + _).
  assert (Hv : 0 <= v /\ v + 614125 <= 4294967296) by (subst v; lia).
  rewrite digits5. cbn [firstn].
  rewrite !decode_digit by apply digit_range.
  cbn [Nat.eqb decode_from Nat.ltb Nat.leb Nat.sub].
  destruct (top_digits v ltac:(lia)) as [T2 _]. rewrite T2.
  pose proof (pad84_bounds 614125 3 v ltac:(auto) ltac:(lia) ltac:(lia)) as Hp.
  set (w := pad84 3 (v / 614125)) in *.
  cbn [take_high]. rewrite Z.shiftr_div_pow2 by lia.
  change (2 ^ 24) with 16777216.
  do 2 f_equal. apply byte_of_Z_eq. subst v. zdm.
Qed.

Lemma decode_short2 (b0 b1 : byte) (i : nat) :
  decode_from
    (encode_group 2 (pack (byte_to_Z b0) (byte_to_Z b1) 0 0)) i 0 0
  = inr [b0; b1].
Proof.
  pose proof (byte_to_Z_range b0) as H0.
  pose proof (byte_to_Z_range b1) as H1.
  rewrite encode_group_short by lia.
  rewrite (pack_short (byte_to_Z b0) (byte_to_Z b1) 0) by lia.
  set (v := _ + _ + _).
  assert (Hv : 0 <= v /\ v + 7225 <= 4294967296) by (subst v; lia).
  rewrite digits5. cbn [firstn].
  rewrite !decode_digit by apply digit_range.
  cbn [Nat.eqb decode_from Nat.ltb Nat.leb Nat.sub].
  destruct (top_digits v ltac:(lia)) as (T2 & T3 & _). rewrite T2, T3.
  pose proof (pad84_bounds 7225 2 v ltac:(auto) ltac:(lia) ltac:(lia)) as Hp.
  set (w := pad84 2 (v / 7225)) in *.
  cbn [take_high]. unfold wrap_u32.
  rewrite !Z.shiftr_div_pow2, !Z.shiftl_mul_pow2 by lia.
  change (2 ^ 24) with 16777216. change (2 ^ 8) with 256.
  do 2 f_equal; [|f_equal]; apply byte_of_Z_eq; subst v; zdm.
Qed.

Lemma decode_short3 (b0 b1 b2 : byte) (i : nat) :
  decode_from
    (encode_group 3 (pack (byte_to_Z b0) (byte_to_Z b1) (byte_to_Z b2) 0))
    i 0 0
  = inr [b0; b1; b2].
Proof.
  pose proof (byte_to_Z_range b0) as H0.
  pose proof (byte_to_Z_range b1) as H1.
  pose proof (byte_to_Z_range b2) as H2.
  rewrite encode_group_short by lia.
  rewrite (pack_short (byte_to_Z b0) (byte_to_Z b1) (byte_to_Z b2)) by lia.
  set (v := _ + _ + _).
  assert (Hv : 0 <= v /\ v + 85 <= 4294967296) by (subst v; lia).
  rewrite digits5. cbn [firstn].
  rewrite !decode_digit by apply digit_range.
  cbn [Nat.eqb decode_from Nat.ltb Nat.leb Nat.sub].
  destruct (top_digits v ltac:(lia)) as (T2 & T3 & T4). rewrite T2, T3, T4.
  pose proof (pad84_bounds 85 1 v ltac:(auto) ltac:(lia) ltac:(lia)) as Hp.
  set (w := pad84 1 (v / 85)) in *.
  cbn [take_high]. unfold wrap_u32.
  rewrite !Z.shiftr_div_pow2, !Z.shiftl_mul_pow2 by lia.
  change (2 ^ 24) with 16777216. change (2 ^ 8) with 256.
  do 2 f_equal; [|f_equal; [|f_equal]]; apply byte_of_Z_eq; subst v; zdm.
Qed.

(** Decoding undoes encoding, whatever the offset the decoder starts at. *)
Lemma decode_encode (src : list byte) :
  forall i, decode_from (encode src) i 0 0 = inr src.
Proof.
  induction src as [|a|a b|a b c|a b c d rest IH] using list_ind4; intros i.
  - reflexivity.
  - apply decode_short1.
  - apply decode_short2.
  - apply decode_short3.
  - cbn [encode].
    destruct (decode_group4 a b c d (encode rest) i) as [j ->].
    rewrite IH. reflexivity.
Qed.

Lemma digits5_length (v : Z) : List.length (digits 5 v []) = 5%nat.
Proof. reflexivity. Qed.

Lemma encode_group_length (k : nat) (v : Z) :
  (1 <= k <= 4)%nat ->
  List.length (encode_group k v)
  = if (v =? 0) && (4 <=? k)%nat then 1%nat else S k.
Proof.
  intros Hk. unfold encode_group.
  destruct ((v =? 0) && (4 <=? k)%nat); [reflexivity|].
  rewrite length_firstn, digits5_length. lia.
Qed.

Lemma MaxEncodedLen_step (n : nat) :
  MaxEncodedLen (4 + n) = (5 + MaxEncodedLen n)%nat.
Proof.
  unfold MaxEncodedLen.
  replace (4 + n + 3)%nat with (1 * 4 + (n + 3))%nat by lia.
  rewrite Nat.div_add_l by lia. lia.
Qed.

(** A destination of [MaxEncodedLen] bytes is never indexed out of range. *)
Lemma Encode_fits (src : list byte) :
  forall cap, (MaxEncodedLen (List.length src) <= cap)%nat ->
  Encode cap src = Some (encode src).
Proof.
  induction src as [|a|a b|a b c|a b c d rest IH] using list_ind4;
    intros cap Hcap.
  - reflexivity.
  - cbn in Hcap. cbn [Encode encode].
    replace (cap <? 5)%nat with false by (symmetry; apply Nat.ltb_ge; lia).
    reflexivity.
  - cbn in Hcap. cbn [Encode encode].
    replace (cap <? 5)%nat with false by (symmetry; apply Nat.ltb_ge; lia).
    reflexivity.
  - cbn in Hcap. cbn [Encode encode].
    replace (cap <? 5)%nat with false by (symmetry; apply Nat.ltb_ge; lia).
    reflexivity.
  - change (List.length (a :: b :: c :: d :: rest))
      with (4 + List.length rest)%nat in Hcap.
    rewrite MaxEncodedLen_step in Hcap.
    cbn [Encode encode].
    replace (cap <? 5)%nat with false by (symmetry; apply Nat.ltb_ge; lia).
    rewrite IH; [reflexivity|].
    rewrite encode_group_length by lia.
    destruct (_ && _); lia.
Qed.

End ascii85_facts.

(** ** encoding/ascii85: the length and the alphabet of an encoding *)

Module ascii85_width.
Import ascii85 ascii85_facts.

Lemma width_step (n : nat) : width (4 + n) = (5 + width n)%nat.
Proof.
  unfold width.
  replace (4 + n)%nat with (n + 1 * 4)%nat by lia.
  rewrite Nat.div_add, Nat.Div0.mod_add by lia. lia.
Qed.

(** The exact length of an encoding. *)
Lemma encode_length (src : list byte) :
  (List.length (encode src) + 4 * zero_groups src
   = width (List.length src))%nat.
Proof.
  induction src as [|a|a b|a b c|a b c d rest IH] using list_ind4.
  - reflexivity.
  - cbn [encode zero_groups]. rewrite encode_group_length by lia.
    rewrite andb_false_r. reflexivity.
  - cbn [encode zero_groups]. rewrite encode_group_length by lia.
    rewrite andb_false_r. reflexivity.
  - cbn [encode zero_groups]. rewrite encode_group_length by lia.
    rewrite andb_false_r. reflexivity.
  - change (List.length (a :: b :: c :: d :: rest))
      with (4 + List.length rest)%nat.
    rewrite width_step, <- IH. cbn [encode zero_groups].
    rewrite length_app, encode_group_length by lia.
    cbn [Nat.leb]. rewrite andb_true_r.
    destruct (_ =? 0); lia.
Qed.

Lemma width_le_Max (n : nat) : (width n <= MaxEncodedLen n)%nat.
Proof.
  unfold width, MaxEncodedLen.
  pose proof (Nat.div_mod_eq n 4) as Hn.
  pose proof (Nat.mod_upper_bound n 4 ltac:(lia)) as Hm.
  destruct (n mod 4 =? 0)%nat eqn:Hz.
  - apply Nat.eqb_eq in Hz.
    assert ((n + 3) / 4 = n / 4)%nat as ->; [|lia].
    symmetry. apply (Nat.div_unique _ _ _ 3); lia.
  - apply Nat.eqb_neq in Hz.
    assert ((n + 3) / 4 = n / 4 + 1)%nat as ->; [|lia].
    symmetry. apply (Nat.div_unique _ _ _ (n mod 4 - 1)); lia.
Qed.

(** Two hex digits per byte: from two bytes on, the encoding is shorter. *)
Lemma width_lt_hex (n : nat) : (2 <= n)%nat -> (width n < 2 * n)%nat.
Proof.
  intros Hn. unfold width.
  pose proof (Nat.div_mod_eq n 4) as Hd.
  pose proof (Nat.mod_upper_bound n 4 ltac:(lia)) as Hm.
  destruct (n mod 4 =? 0)%nat eqn:Hz.
  - apply Nat.eqb_eq in Hz. lia.
  - lia.
Qed.

Lemma digit_byte (x : Z) :
  0 <= x < 85 -> 33 <= byte_to_Z (byte_of_Z (33 + x)) <= 117.
Proof. intros Hx. rewrite byte_to_of_Z, Z.mod_small; lia. Qed.

Lemma digits5_printable (v : Z) : Forall alphabet (digits 5 v []).
Proof.
  rewrite digits5.
  repeat (apply Forall_cons;
          [match goal with
           | |- alphabet (byte_of_Z (33 + ?x mod 85)) =>
               pose proof (digit_byte (x mod 85) (digit_range x));
               unfold alphabet; lia
           end|]).
  apply Forall_nil.
Qed.

Lemma encode_group_printable (k : nat) (v : Z) :
  Forall alphabet (encode_group k v).
Proof.
  unfold encode_group. destruct (_ && _).
  - apply Forall_cons; [|apply Forall_nil].
    unfold alphabet. cbn. lia.
  - pose proof (digits5_printable v) as H.
    rewrite <- (firstn_skipn (5 - (4 - k))) in H.
    apply Forall_app in H. exact (proj1 H).
Qed.

Lemma encode_printable (src : list byte) : Forall alphabet (encode src).
Proof.
  induction src as [|a|a b|a b c|a b c d rest IH] using list_ind4;
    cbn [encode]; try apply encode_group_printable.
  - constructor.
  - apply Forall_app. split; [apply encode_group_printable | exact IH].
Qed.

End ascii85_width.

(** ** Byte strings *)

Lemma string_of_list_byte_length (l : list byte) :
  String.length (string_of_list_byte l) = List.length l.
Proof.
  induction l as [|b l IH]; [reflexivity|].
  cbn. f_equal. exact IH.
Qed.

Lemma ValidString_alphabet (l : list byte) :
  Forall ascii85.alphabet l ->
  utf8.ValidString (string_of_list_byte l) = true
  /\ forallb printable (list_ascii_of_string (string_of_list_byte l)) = true.
Proof.
  induction 1 as [|b l Hb Hl [IHv IHp]]; [split; reflexivity|].
  unfold ascii85.alphabet in Hb.
  change (string_of_list_byte (b :: l))
    with (String (ascii_of_byte b) (string_of_list_byte l)).
  cbn [utf8.ValidString list_ascii_of_string forallb]. unfold printable.
  rewrite ascii_of_byte_to_Z.
  replace (byte_to_Z b <? 128) with true by (symmetry; apply Z.ltb_lt; lia).
  replace (32 <=? byte_to_Z b) with true by (symmetry; apply Z.leb_le; lia).
  replace (byte_to_Z b <=? 126) with true by (symmetry; apply Z.leb_le; lia).
  split; [exact IHv | exact IHp].
Qed.

Lemma hex_DecodeString_length (s : string) :
  forall raw, hex_DecodeString s = inr raw ->
  String.length s = (2 * List.length raw)%nat.
Proof.
  revert s. fix IH 1. intros [|p [|q rest]] raw H.
  - cbn in H. injection H as <-. reflexivity.
  - cbn in H. destruct (fromHexChar p); discriminate.
  - cbn [hex_DecodeString] in H.
    destruct (fromHexChar p); [|discriminate].
    destruct (fromHexChar q); [|discriminate].
    destruct (hex_DecodeString rest) as [e|bs] eqn:Hr; [discriminate|].
    injection H as <-. cbn [String.length List.length].
    rewrite (IH rest bs Hr). lia.
Qed.

Module Reencode_facts.
Import ascii85 ascii85_facts ascii85_width.

Lemma reencode_encode (raw : list byte) :
  Reencode.reencode raw = Some (string_of_list_byte (encode raw)).
Proof.
  unfold Reencode.reencode. rewrite Encode_fits by lia. reflexivity.
Qed.

End Reencode_facts.

(** ** strings.SplitN *)

Module strings_facts.
Import strings.

Lemma substring_0_append (h t : string) :
  substring 0 (String.length h) (h ++ t) = h.
Proof.
  induction h as [|c h IH]; cbn.
  - destruct t; reflexivity.
  - f_equal. exact IH.
Qed.

Lemma substring_all (s : string) : substring 0 (String.length s) s = s.
Proof.
  induction s as [|c s IH]; cbn; [reflexivity|]. f_equal. exact IH.
Qed.

Lemma substring_skip (h t : string) :
  substring (String.length h) (String.length t) (h ++ t) = t.
Proof.
  induction h as [|c h IH]; cbn.
  - apply substring_all.
  - exact IH.
Qed.

Lemma IndexByte_append (h v : string) (c : ascii) :
  IndexByte h c = None ->
  IndexByte (h ++ String c v) c = Some (String.length h).
Proof.
  induction h as [|a h IH]; cbn; intros H.
  - rewrite Ascii.eqb_refl. reflexivity.
  - destruct (Ascii.eqb a c); [discriminate|].
    destruct (IndexByte h c); [discriminate|].
    rewrite IH by reflexivity. reflexivity.
Qed.

Lemma append_length (h t : string) :
  String.length (h ++ t) = (String.length h + String.length t)%nat.
Proof. induction h as [|a h IH]; cbn; [reflexivity|]. f_equal. exact IH. Qed.

(** A line without the separator comes back whole. *)
Lemma SplitN_absent (line : string) (c : ascii) :
  IndexByte line c = None -> SplitN line c 2 = [line].
Proof.
  intros H. unfold SplitN.
  destruct (Nat.min 2 (String.length line + 1) - 1)%nat; cbn [genSplit].
  - reflexivity.
  - rewrite H. reflexivity.
Qed.

(** A line is cut in two at the first separator. *)
Lemma SplitN_first (h v : string) (c : ascii) :
  IndexByte h c = None -> SplitN (h ++ String c v) c 2 = [h; v].
Proof.
  intros H. unfold SplitN.
  rewrite append_length. cbn [String.length].
  replace (Nat.min 2 (String.length h + S (String.length v) + 1) - 1)%nat
    with 1%nat by lia.
  cbn [genSplit]. rewrite IndexByte_append by exact H.
  rewrite substring_0_append. f_equal.
  rewrite append_length. cbn [String.length].
  replace (String.length h + S (String.length v) - (String.length h + 1))%nat
    with (String.length v) by lia.
  replace (h ++ String c v)%string with ((h ++ String c EmptyString) ++ v)%string.
  - replace (String.length h + 1)%nat
      with (String.length (h ++ String c EmptyString)).
    + rewrite substring_skip. reflexivity.
    + rewrite append_length. reflexivity.
  - clear. induction h as [|a h IH]; cbn; [reflexivity|]. f_equal. exact IH.
Qed.

(** Every line is of one of the two shapes. *)
Lemma IndexByte_shape (line : string) (c : ascii) :
  IndexByte line c = None
  \/ exists h v, line = (h ++ String c v)%string /\ IndexByte h c = None.
Proof.
  induction line as [|a line IH]; [left; reflexivity|].
  cbn [IndexByte]. destruct (Ascii.eqb a c) eqn:Hac.
  - right. apply Ascii.eqb_eq in Hac. subst a.
    exists EmptyString, line. split; reflexivity.
  - destruct IH as [-> | (h & v & -> & Hh)]; [left; reflexivity|].
    right. exists (String a h), v. split; [reflexivity|].
    cbn [IndexByte]. rewrite Hac, Hh. reflexivity.
Qed.

(** On ASCII text [ToLower] maps every byte through [lowerByte]. *)
Lemma ToLower_ascii (unicodeLower : string -> string) (s : string) :
  isASCII s = true -> ToLower unicodeLower s = mapBytes lowerByte s.
Proof.
  intros H. unfold ToLower. rewrite H.
  destruct (hasUpper s) eqn:Hu; [reflexivity|].
  clear H. unfold hasUpper in Hu.
  induction s as [|c s IH]; [reflexivity|].
  cbn [list_ascii_of_string existsb] in Hu.
  apply orb_false_elim in Hu. destruct Hu as [Hc Hs].
  cbn [mapBytes]. unfold lowerByte at 1. rewrite Hc, <- IH by exact Hs.
  reflexivity.
Qed.

End strings_facts.

(** ** strconv.Atoi reads back what [%d] prints *)

Module strconv_facts.
Import strconv.

Lemma of_uint_acc_le (d : Decimal.uint) :
  forall a, (a <= Pos.of_uint_acc d a)%positive.
Proof.
  induction d as [|d IH|d IH|d IH|d IH|d IH|d IH|d IH|d IH|d IH|d IH];
    intros a; cbn [Pos.of_uint_acc]; [lia|..];
    match goal with
    | |- (_ <= Pos.of_uint_acc d ?b)%positive => specialize (IH b); lia
    end.
Qed.

Lemma Atoi_digits_acc (d : Decimal.uint) :
  forall a, Atoi_digits (NilEmpty.string_of_uint d) (Z.pos a)
            = inr (Z.pos (Pos.of_uint_acc d a)).
Proof.
  induction d as [|d IH|d IH|d IH|d IH|d IH|d IH|d IH|d IH|d IH|d IH];
    intros a; [reflexivity|..];
    cbn [NilEmpty.string_of_uint Atoi_digits Pos.of_uint_acc];
    match goal with
    | |- context [Pos.of_uint_acc d ?b] =>
        rewrite <- (IH b); cbv zeta;
        match goal with
        | |- (if ?c then _ else _) = _ => change c with false; cbv iota
        end;
        f_equal;
        match goal with
        | |- context [(ascii_to_Z ?c - 48) mod 256] =>
            let v := eval vm_compute in ((ascii_to_Z c - 48) mod 256) in
            change ((ascii_to_Z c - 48) mod 256) with v
        end; lia
    end.
Qed.

Lemma Atoi_digits_uint (d : Decimal.uint) :
  Atoi_digits (NilEmpty.string_of_uint d) 0 = inr (Z.of_N (Pos.of_uint d)).
Proof.
  induction d as [|d IH|d IH|d IH|d IH|d IH|d IH|d IH|d IH|d IH|d IH];
    [reflexivity | exact IH | ..];
    cbn [NilEmpty.string_of_uint Atoi_digits Pos.of_uint];
    cbv zeta;
    match goal with
    | |- (if ?c then _ else _) = _ => change c with false; cbv iota
    end;
    match goal with
    | |- context [(ascii_to_Z ?c - 48) mod 256] =>
        let v := eval vm_compute in (0 * 10 + (ascii_to_Z c - 48) mod 256) in
        change (0 * 10 + (ascii_to_Z c - 48) mod 256) with v
    end;
    apply Atoi_digits_acc.
Qed.

(** The digit loop of [ParseUint] agrees, as long as the value fits. *)
Lemma ParseUint_digits_acc (d : Decimal.uint) :
  forall a, Z.pos (Pos.of_uint_acc d a) <= maxUint64 ->
            ParseUint_digits (NilEmpty.string_of_uint d) (Z.pos a)
            = inr (Z.pos (Pos.of_uint_acc d a)).
Proof.
  unfold maxUint64.
  induction d as [|d IH|d IH|d IH|d IH|d IH|d IH|d IH|d IH|d IH|d IH];
    intros a Ha; [reflexivity|..];
    cbn [NilEmpty.string_of_uint ParseUint_digits Pos.of_uint_acc] in Ha |- *;
    match type of Ha with
    | context [Pos.of_uint_acc d ?b] =>
        pose proof (of_uint_acc_le d b) as Hle;
        rewrite <- (IH b Ha); cbv zeta;
        match goal with
        | |- context [ascii_to_Z ?c] =>
            let v := eval vm_compute in (ascii_to_Z c) in
            change (ascii_to_Z c) with v
        end;
        match goal with
        | |- (if ?c then _ else _) = _ => change c with true; cbv iota
        end;
        unfold maxUint64;
        change (18446744073709551615 / 10 + 1) with 1844674407370955162;
        replace (Z.pos a >=? 1844674407370955162) with false
          by (symmetry; rewrite Z.geb_leb; apply Z.leb_gt; lia);
        match goal with
        | |- (if ?n >? _ then _ else _) = _ =>
            replace (n >? 18446744073709551615) with false
              by (symmetry; rewrite Z.gtb_ltb; apply Z.ltb_ge; lia)
        end;
        f_equal; lia
    end.
Qed.

Lemma ParseUint_digits_uint (d : Decimal.uint) :
  Z.of_N (Pos.of_uint d) <= maxUint64 ->
  ParseUint_digits (NilEmpty.string_of_uint d) 0
  = inr (Z.of_N (Pos.of_uint d)).
Proof.
  induction d as [|d IH|d IH|d IH|d IH|d IH|d IH|d IH|d IH|d IH|d IH];
    intros Hd; [reflexivity | ..];
    cbn [NilEmpty.string_of_uint ParseUint_digits Pos.of_uint] in Hd |- *;
    cbv zeta;
    match goal with
    | |- context [ascii_to_Z ?c] =>
        let v := eval vm_compute in (ascii_to_Z c) in
        change (ascii_to_Z c) with v
    end;
    match goal with
    | |- (if ?c then _ else _) = _ => change c with true; cbv iota
    end;
    match goal with
    | |- (if ?c then _ else _) = _ => change c with false; cbv iota
    end;
    match goal with
    | |- (if ?c then _ else _) = _ => change c with false; cbv iota
    end;
    [exact (IH Hd) | apply ParseUint_digits_acc; exact Hd ..].
Qed.

Lemma string_of_uint_head (d : Decimal.uint) :
  d <> Decimal.Nil ->
  exists c rest,
    NilEmpty.string_of_uint d = String c rest
    /\ Ascii.eqb c "-" = false /\ Ascii.eqb c "+" = false.
Proof.
  destruct d; [congruence|..]; intros _; eexists; eexists;
    (split; [reflexivity | split; reflexivity]).
Qed.

Lemma NilZero_string_of_uint (d : Decimal.uint) :
  d <> Decimal.Nil ->
  NilZero.string_of_uint d = NilEmpty.string_of_uint d.
Proof. destruct d; [congruence|..]; reflexivity. Qed.

Lemma Atoi_unsigned (s : string) (v : Z) :
  (exists c rest,
      s = String c rest
      /\ Ascii.eqb c "-" = false /\ Ascii.eqb c "+" = false) ->
  Atoi_digits s 0 = inr v ->
  ParseUint_digits s 0 = inr v ->
  v <= int_max ->
  Atoi s = inr v.
Proof.
  unfold int_max. intros (c & rest & -> & Hm & Hp) Hfast Hslow Hv.
  unfold Atoi.
  destruct ((0 <? String.length (String c rest))%nat
            && (String.length (String c rest) <? 19)%nat).
  - rewrite Hm, Hp. cbn [orb andb]. rewrite Hfast. reflexivity.
  - unfold ParseInt, ParseUint. rewrite Hm, Hp. cbn [orb]. rewrite Hslow.
    cbn [negb andb].
    replace (v >=? 9223372036854775808) with false
      by (symmetry; rewrite Z.geb_leb; apply Z.leb_gt; lia).
    reflexivity.
Qed.

Lemma Atoi_negative (rest : string) (v : Z) :
  (exists c r, rest = String c r) ->
  Atoi_digits rest 0 = inr v ->
  ParseUint_digits rest 0 = inr v ->
  - v >= int_min ->
  Atoi (String "-" rest) = inr (- v).
Proof.
  unfold int_min. intros (c & r & ->) Hfast Hslow Hv.
  unfold Atoi.
  destruct ((0 <? String.length (String "-" (String c r)))%nat
            && (String.length (String "-" (String c r)) <? 19)%nat).
  - change (Ascii.eqb "-" "-") with true. cbn [orb andb String.length Nat.ltb Nat.leb].
    rewrite Hfast. reflexivity.
  - unfold ParseInt, ParseUint.
    change (Ascii.eqb "-" "-") with true.
    change (Ascii.eqb "-" "+") with false. cbn [orb].
    rewrite Hslow. cbn [negb andb].
    replace (v >? 9223372036854775808) with false
      by (symmetry; rewrite Z.gtb_ltb; apply Z.ltb_ge; lia).
    reflexivity.
Qed.

(** [Atoi] parses the decimal form of every [int] back to it. *)
Lemma Atoi_fmt_d (z : Z) :
  int_min <= z <= int_max -> Atoi (fmt_d z) = inr z.
Proof.
  intros Hz. unfold fmt_d. destruct z as [|p|p].
  - reflexivity.
  - cbn [Z.to_int NilZero.string_of_int].
    pose proof (DecimalPos.Unsigned.to_uint_nonnil p) as Hn.
    pose proof (DecimalPos.Unsigned.of_to p) as Hp.
    rewrite NilZero_string_of_uint by exact Hn.
    apply Atoi_unsigned.
    + apply string_of_uint_head, Hn.
    + rewrite Atoi_digits_uint, Hp. reflexivity.
    + rewrite ParseUint_digits_uint; rewrite Hp; [reflexivity|].
      unfold int_max, maxUint64 in *. cbn [Z.of_N]. lia.
    + lia.
  - cbn [Z.to_int NilZero.string_of_int].
    pose proof (DecimalPos.Unsigned.to_uint_nonnil p) as Hn.
    pose proof (DecimalPos.Unsigned.of_to p) as Hp.
    rewrite NilZero_string_of_uint by exact Hn.
    change (Z.neg p) with (- Z.pos p).
    apply Atoi_negative.
    + destruct (string_of_uint_head _ Hn) as (c & r & -> & _).
      eexists; eexists; reflexivity.
    + rewrite Atoi_digits_uint, Hp. reflexivity.
    + rewrite ParseUint_digits_uint; rewrite Hp; [reflexivity|].
      unfold int_min, maxUint64 in *. cbn [Z.of_N]. lia.
    + lia.
Qed.

End strconv_facts.


(** ** The monad of a run *)

Section Run_facts.

Context {Store : Type}.

Lemma prepend_nil {A : Type} (o : Outcome Store A) : prepend [] o = o.
Proof. destruct o. reflexivity. Qed.

Lemma prepend_prepend {A : Type} (e1 e2 : list Event) (o : Outcome Store A) :
  prepend e1 (prepend e2 o) = prepend (e1 ++ e2) o.
Proof. unfold prepend. cbn. rewrite app_assoc. reflexivity. Qed.

Lemma bind_Return {A B : Type} (m : M Store A) (k : A -> M Store B)
  (s s1 : Store) (evs : list Event) (a : A) :
  m s = mkOutcome s1 evs (Return a) -> bind m k s = prepend evs (k a s1).
Proof. intros H. unfold bind. rewrite H. reflexivity. Qed.

Lemma bind_ret {A B : Type} (a : A) (k : A -> M Store B) (s : Store) :
  bind (ret a) k s = k a s.
Proof. rewrite (bind_Return _ _ s s [] a) by reflexivity. apply prepend_nil. Qed.

Lemma bind_log {B : Type} (format : string) (args : list Value)
  (k : unit -> M Store B) (s : Store) :
  bind (log_Printf format args) k s = prepend [Log format args] (k tt s).
Proof. apply bind_Return. reflexivity. Qed.

Lemma bind_Fatal {A B : Type} (m : M Store A) (k : A -> M Store B)
  (s s1 : Store) (evs : list Event) (args : list Value) :
  m s = mkOutcome s1 evs (Fatal args) ->
  bind m k s = mkOutcome s1 evs (Fatal args).
Proof. intros H. unfold bind. rewrite H. reflexivity. Qed.

(** A loop over [l1 ++ l2] runs over [l1], then over [l2]. *)
Lemma scan_app {St : Type} (body : string -> St -> M Store St)
  (l1 l2 : list string) :
  forall st s,
    scan body (l1 ++ l2) st s
    = bind (scan body l1 st) (fun st' => scan body l2 st') s.
Proof.
  induction l1 as [|l l1 IH]; intros st s.
  - cbn [app scan]. rewrite bind_ret. reflexivity.
  - cbn [app scan]. unfold bind.
    destruct (body l st s) as [s1 e1 [st1| |]]; cbn; try reflexivity.
    rewrite IH. unfold bind.
    destruct (scan body l1 st1 s1) as [s2 e2 [st2| |]]; cbn; try reflexivity.
    unfold prepend. cbn. rewrite app_assoc. reflexivity.
Qed.

End Run_facts.

Lemma wrap_int_small (z : Z) : int_min <= z <= int_max -> wrap_int z = z.
Proof.
  unfold int_min, int_max, wrap_int. intros H.
  rewrite Z.mod_small by lia. lia.
Qed.

(** ** The count-mode loader, line by line *)

Module CountMode_facts.
Import CountMode strings_facts.

Section Loader_facts.

Context {Store : Type} (E : Env Store).

Lemma hibpProcessRowDataBatch_run (rows : list hibpData) (s : Store) :
  hibpProcessRowDataBatch E rows s
  = mkOutcome (fst (pool_Exec E s (batch_query rows) (batch_args rows)))
      (batch_events rows
         (snd (pool_Exec E s (batch_query rows) (batch_args rows))))
      (Return (batch_errors
         (snd (pool_Exec E s (batch_query rows) (batch_args rows))))).
Proof.
  unfold hibpProcessRowDataBatch, bind, dbPool_Exec.
  destruct (pool_Exec E s (batch_query rows) (batch_args rows)) as [s' [e|]];
    reflexivity.
Qed.

Lemma accept_flush (row : hibpData) (st : Loop hibpData) (s : Store) :
  Z.rem (wrap_int (count st + 1)) BATCH_SIZE = 0 ->
  accept E row st s
  = mkOutcome
      (fst (pool_Exec E s (batch_query (rowData st ++ [row]))
              (batch_args (rowData st ++ [row]))))
      (Log "processing %d..." [VInt (wrap_int (count st + 1))]
         :: batch_events (rowData st ++ [row])
              (snd (pool_Exec E s (batch_query (rowData st ++ [row]))
                      (batch_args (rowData st ++ [row])))))
      (Return (mkLoop (wrap_int (count st + 1))
                 (wrap_int (errors st + batch_errors
                    (snd (pool_Exec E s (batch_query (rowData st ++ [row]))
                            (batch_args (rowData st ++ [row]))))))
                 [])).
Proof.
  intros H. unfold accept. rewrite H. cbn [Z.eqb].
  rewrite bind_log.
  rewrite (bind_Return _ _ _ _ _ _ (hibpProcessRowDataBatch_run _ s)).
  unfold prepend, ret. cbn. rewrite app_nil_r. reflexivity.
Qed.

Lemma accept_keep (row : hibpData) (st : Loop hibpData) (s : Store) :
  Z.rem (wrap_int (count st + 1)) BATCH_SIZE <> 0 ->
  accept E row st s
  = mkOutcome s []
      (Return (mkLoop (wrap_int (count st + 1)) (errors st)
                 (rowData st ++ [row]))).
Proof.
  intros H. unfold accept. apply Z.eqb_neq in H. rewrite H. reflexivity.
Qed.

Lemma scan_line_parse (line : string) (st : Loop hibpData) (s : Store) :
  scan_line E line st s
  = match parse E line with
    | Some row => accept E row st s
    | None =>
        mkOutcome s []
          (Return (mkLoop (count st) (wrap_int (errors st + 1)) (rowData st)))
    end.
Proof.
  unfold scan_line, parse.
  destruct (strings.SplitN line ":" 2) as [|d0 [|d1 [|d2 l]]];
    try reflexivity.
  destruct (strconv.Atoi d1); reflexivity.
Qed.

Lemma parse_wellformed (h n : string) :
  strings.IndexByte h ":" = None ->
  parse E (h ++ String ":" n)
  = match strconv.Atoi n with
    | inr v => Some (mkData (strings.ToLower (unicodeLower E) h) v)
    | inl _ => None
    end.
Proof.
  intros H. unfold parse. rewrite SplitN_first by exact H. reflexivity.
Qed.

(** C2. In count mode a well-formed line [h:n] whose [n] parses to the
    integer [v] appends the row with identifier [ToLower h] and count [v]
    to the batch (which is flushed at once when the row fills it); a line
    whose [n] does not parse adds one to the error counter and produces no
    row. *)
Theorem count_line (h n : string) (st : Loop hibpData) (s : Store) :
  strings.IndexByte h ":" = None ->
  let line := (h ++ String ":" n)%string in
  match strconv.Atoi n with
  | inr v =>
      let row := mkData (strings.ToLower (unicodeLower E) h) v in
      let rows := rowData st ++ [row] in
      let c := wrap_int (count st + 1) in
      let r := pool_Exec E s (batch_query rows) (batch_args rows) in
      scan_line E line st s
      = if Z.rem c BATCH_SIZE =? 0 then
          mkOutcome (fst r)
            (Log "processing %d..." [VInt c] :: batch_events rows (snd r))
            (Return (mkLoop c (wrap_int (errors st + batch_errors (snd r))) []))
        else mkOutcome s [] (Return (mkLoop c (errors st) rows))
  | inl _ =>
      scan_line E line st s
      = mkOutcome s []
          (Return (mkLoop (count st) (wrap_int (errors st + 1)) (rowData st)))
  end.
Proof.
  intros H line. subst line.
  rewrite scan_line_parse, parse_wellformed by exact H.
  destruct (strconv.Atoi n) as [e|v]; [reflexivity|].
  cbv zeta.
  destruct (Z.rem (wrap_int (count st + 1)) BATCH_SIZE =? 0) eqn:Hc.
  - apply accept_flush. apply Z.eqb_eq. exact Hc.
  - apply accept_keep. apply Z.eqb_neq. exact Hc.
Qed.

End Loader_facts.

Lemma count_line_witness :
  scan_line (serving [] accepting) "ABCDEF:42" (mkLoop 0 0 []) tt
  = mkOutcome tt [] (Return (mkLoop 1 0 [mkData "abcdef" 42])).
Proof.
  exact (count_line (serving [] accepting) "ABCDEF" "42" (mkLoop 0 0 []) tt
           eq_refl).
Defined.

End CountMode_facts.

(** ** The re-encoding loader, line by line *)

Module Reencode_line.
Import Reencode strings_facts Reencode_facts.

Section Loader_facts.

Context {Store : Type} (E : Env Store).

Lemma reencode_batch_run (rows : list string) (s : Store) :
  hibpProcessRowDataBatch E rows s
  = mkOutcome (fst (pool_Exec E s (batch_query rows) (batch_args rows)))
      (batch_events rows
         (snd (pool_Exec E s (batch_query rows) (batch_args rows))))
      (Return (batch_errors
         (snd (pool_Exec E s (batch_query rows) (batch_args rows))))).
Proof.
  unfold hibpProcessRowDataBatch, bind, dbPool_Exec.
  destruct (pool_Exec E s (batch_query rows) (batch_args rows)) as [s' [e|]];
    reflexivity.
Qed.

Lemma reencode_accept_flush (hibp : string) (st : Loop string) (s : Store) :
  Z.rem (wrap_int (count st + 1)) BATCH_SIZE = 0 ->
  accept E hibp st s
  = mkOutcome
      (fst (pool_Exec E s (batch_query (rowData st ++ [hibp]))
              (batch_args (rowData st ++ [hibp]))))
      (Log "processing %d..." [VInt (wrap_int (count st + 1))]
         :: batch_events (rowData st ++ [hibp])
              (snd (pool_Exec E s (batch_query (rowData st ++ [hibp]))
                      (batch_args (rowData st ++ [hibp])))))
      (Return (mkLoop (wrap_int (count st + 1))
                 (wrap_int (errors st + batch_errors
                    (snd (pool_Exec E s (batch_query (rowData st ++ [hibp]))
                            (batch_args (rowData st ++ [hibp]))))))
                 [])).
Proof.
  intros H. unfold accept. rewrite H. cbn [Z.eqb].
  rewrite bind_log.
  rewrite (bind_Return _ _ _ _ _ _ (reencode_batch_run _ s)).
  unfold prepend, ret. cbn. rewrite app_nil_r. reflexivity.
Qed.

Lemma reencode_accept_keep (hibp : string) (st : Loop string) (s : Store) :
  Z.rem (wrap_int (count st + 1)) BATCH_SIZE <> 0 ->
  accept E hibp st s
  = mkOutcome s []
      (Return (mkLoop (wrap_int (count st + 1)) (errors st)
                 (rowData st ++ [hibp]))).
Proof.
  intros H. unfold accept. apply Z.eqb_neq in H. rewrite H. reflexivity.
Qed.

Lemma reencode_accept_returns (hibp : string) (st : Loop string) (s : Store) :
  exists st', result_of (accept E hibp st s) = Return st'.
Proof.
  destruct (Z.eq_dec (Z.rem (wrap_int (count st + 1)) BATCH_SIZE) 0) as [H|H].
  - rewrite reencode_accept_flush by exact H. eexists. reflexivity.
  - rewrite reencode_accept_keep by exact H. eexists. reflexivity.
Qed.

Lemma reencode_valid (hash : list byte) (hibp : string) :
  reencode hash = Some hibp -> utf8.ValidString hibp = true.
Proof.
  rewrite reencode_encode. intros [= <-].
  apply ValidString_alphabet, ascii85_width.encode_printable.
Qed.

Lemma reencode_scan_line_parse (line : string) (st : Loop string) (s : Store) :
  scan_line E line st s
  = match parse line with
    | Some hibp => accept E hibp st s
    | None =>
        mkOutcome s []
          (Return (mkLoop (count st) (wrap_int (errors st + 1)) (rowData st)))
    end.
Proof.
  unfold scan_line, parse.
  destruct (strings.SplitN line ":" 2) as [|d0 [|d1 [|d2 l]]];
    try reflexivity.
  destruct (hex_DecodeString d0) as [e|hash]; [reflexivity|].
  destruct (reencode hash) as [hibp|] eqn:Hr.
  - rewrite (reencode_valid hash hibp Hr). cbn [negb].
    rewrite bind_ret. reflexivity.
  - rewrite reencode_encode in Hr. discriminate.
Qed.

(** C10. Whatever bytes the hex decoding yields, the identifier built
    from them consists of printable ASCII only and is valid UTF-8, so the
    loop body never takes the fatal branch of the validity check (nor does
    [ascii85.Encode] run out of its destination): every line leaves the
    loop body with a loop state. *)
Theorem validity_check_dead (hash : list byte) (line : string)
  (st : Loop string) (s : Store) :
  (exists hibp,
      reencode hash = Some hibp
      /\ forallb printable (list_ascii_of_string hibp) = true
      /\ utf8.ValidString hibp = true)
  /\ (exists st', result_of (scan_line E line st s) = Return st').
Proof.
  split.
  - exists (string_of_list_byte (ascii85.encode hash)).
    split; [apply reencode_encode|].
    destruct (ValidString_alphabet (ascii85.encode hash)
                (ascii85_width.encode_printable hash)) as [Hv Hp].
    split; [exact Hp | exact Hv].
  - rewrite reencode_scan_line_parse. destruct (parse line) as [hibp|].
    + apply reencode_accept_returns.
    + eexists. reflexivity.
Qed.

End Loader_facts.

Lemma fromHexChar_digit (c : ascii) :
  hexDigit c = true -> exists d, fromHexChar c = Some d.
Proof.
  unfold hexDigit, fromHexChar. cbv zeta.
  destruct ((48 <=? ascii_to_Z c) && (ascii_to_Z c <=? 57));
    [eexists; reflexivity|].
  destruct ((97 <=? ascii_to_Z c) && (ascii_to_Z c <=? 102));
    [eexists; reflexivity|].
  destruct ((65 <=? ascii_to_Z c) && (ascii_to_Z c <=? 70));
    [eexists; reflexivity|].
  discriminate.
Qed.

(** A valid hex string decodes. *)
Lemma hex_DecodeString_valid :
  forall hex, validHex hex = true -> exists raw, hex_DecodeString hex = inr raw.
Proof.
  unfold validHex. fix IH 1. intros [|p [|q rest]] H.
  - exists []. reflexivity.
  - apply andb_prop in H. destruct H as [_ H]. discriminate.
  - apply andb_prop in H. destruct H as [Hd He].
    cbn [list_ascii_of_string forallb] in Hd.
    apply andb_prop in Hd. destruct Hd as [Hp Hd].
    apply andb_prop in Hd. destruct Hd as [Hq Hd].
    destruct (fromHexChar_digit p Hp) as [a Ha].
    destruct (fromHexChar_digit q Hq) as [b Hb].
    destruct (IH rest) as [raw Hraw].
    { rewrite Hd. exact He. }
    exists (byte_of_Z (Z.lor (Z.shiftl a 4) b) :: raw).
    cbn [hex_DecodeString]. rewrite Ha, Hb, Hraw. reflexivity.
Qed.

(** C3. Every valid even-length hex string decodes to raw bytes, and
    re-encoding those bytes and decoding the printable form gives the raw
    bytes back. *)
Theorem reencode_roundtrip (hex : string) :
  validHex hex = true ->
  exists raw hibp,
    hex_DecodeString hex = inr raw
    /\ reencode raw = Some hibp
    /\ ascii85.Decode (list_byte_of_string hibp) = inr raw.
Proof.
  intros H. destruct (hex_DecodeString_valid hex H) as [raw Hraw].
  exists raw, (string_of_list_byte (ascii85.encode raw)).
  split; [exact Hraw|]. split; [apply reencode_encode|].
  rewrite list_byte_of_string_of_list_byte.
  apply ascii85_facts.decode_encode.
Qed.

Lemma reencode_roundtrip_witness :
  exists raw hibp,
    hex_DecodeString "0000000061626364fF" = inr raw
    /\ reencode raw = Some hibp
    /\ ascii85.Decode (list_byte_of_string hibp) = inr raw.
Proof. exact (reencode_roundtrip "0000000061626364fF" eq_refl). Defined.

(** C9, as stated, fails twice: a one-byte key is encoded in two
    characters, as long as its two hex digits; and of two keys of eight
    hex digits, the all-zero one is encoded as the single character [z]
    while the other takes five characters. *)
Lemma reencode_width_varies :
  hex_DecodeString "00" = inr [x00]
  /\ reencode [x00] = Some "!!"
  /\ hex_DecodeString "00000000" = inr [x00; x00; x00; x00]
  /\ reencode [x00; x00; x00; x00] = Some "z"
  /\ hex_DecodeString "000000ff" = inr [x00; x00; x00; xff]
  /\ reencode [x00; x00; x00; xff] = Some "!!!$!".
Proof. repeat split; reflexivity. Qed.

(** C9, as amended.  The identifier of a valid hex key of [n] bytes has
    [width n] characters (five for every four bytes, [k + 1] for [k]
    trailing bytes), less four for every aligned four-byte group that is
    all zero; it fits [MaxEncodedLen n], it is strictly shorter than the
    hex key as soon as the key has four hex digits, and two keys of the
    same length with the same number of all-zero groups (none, say) have
    identifiers of the same length. *)
Theorem reencode_width (hex : string) (raw : list byte) :
  hex_DecodeString hex = inr raw ->
  exists hibp,
    reencode raw = Some hibp
    /\ (String.length hibp + 4 * ascii85.zero_groups raw
        = ascii85.width (List.length raw))%nat
    /\ (String.length hibp <= ascii85.MaxEncodedLen (List.length raw))%nat
    /\ ((4 <= String.length hex)%nat ->
        (String.length hibp < String.length hex)%nat)
    /\ (forall hex' raw',
          hex_DecodeString hex' = inr raw' ->
          String.length hex' = String.length hex ->
          ascii85.zero_groups raw' = ascii85.zero_groups raw ->
          exists hibp',
            reencode raw' = Some hibp'
            /\ String.length hibp' = String.length hibp).
Proof.
  intros Hhex. exists (string_of_list_byte (ascii85.encode raw)).
  pose proof (hex_DecodeString_length hex raw Hhex) as Hlen.
  pose proof (ascii85_width.encode_length raw) as Hw.
  pose proof (ascii85_width.width_le_Max (List.length raw)) as Hm.
  rewrite string_of_list_byte_length.
  split; [apply reencode_encode|].
  split; [exact Hw|]. split; [lia|]. split.
  - intros H4.
    pose proof (ascii85_width.width_lt_hex (List.length raw) ltac:(lia)). lia.
  - intros hex' raw' Hhex' Hl Hz.
    exists (string_of_list_byte (ascii85.encode raw')).
    split; [apply reencode_encode|].
    rewrite string_of_list_byte_length.
    pose proof (hex_DecodeString_length hex' raw' Hhex') as Hlen'.
    pose proof (ascii85_width.encode_length raw') as Hw'.
    replace (List.length raw') with (List.length raw) in Hw' by lia.
    lia.
Qed.

Lemma reencode_width_witness :
  exists hibp,
    reencode [x00; x00; x00; xff; x10] = Some hibp
    /\ (String.length hibp + 4 * ascii85.zero_groups [x00; x00; x00; xff; x10]
        = ascii85.width 5)%nat
    /\ (String.length hibp <= ascii85.MaxEncodedLen 5)%nat
    /\ ((4 <= 10)%nat -> (String.length hibp < 10)%nat)
    /\ (forall hex' raw',
          hex_DecodeString hex' = inr raw' ->
          String.length hex' = 10%nat ->
          ascii85.zero_groups raw'
          = ascii85.zero_groups [x00; x00; x00; xff; x10] ->
          exists hibp',
            reencode raw' = Some hibp'
            /\ String.length hibp' = String.length hibp).
Proof.
  exact (reencode_width "000000ff10" [x00; x00; x00; xff; x10] eq_refl).
Defined.

End Reencode_line.

(** ** The line parser *)

Section Line_parser.

Context {Store : Type} (E : Env Store).

(** C4, as amended.  Every line is cut at the first [:] into exactly two
    parts, either of which may be empty.  A line without [:] is an
    unparseable line: one is added to the error counter, nothing else
    changes, and the loop goes on.  A line with [:] is never rejected for
    its shape: its parts go on to the encoder, [strconv.Atoi] on the value
    in the count revision and [hex.DecodeString] on the key in the
    re-encoding revision, and what the loop body does is decided there
    alone: the row is counted and appended (and the batch flushed when
    full), or the encoder's refusal is counted as an error. *)
Theorem line_parser (line : string)
  (st1 : Loop CountMode.hibpData) (st2 : Loop string) (s : Store) :
  match strings.IndexByte line ":" with
  | None =>
      CountMode.scan_line E line st1 s
      = mkOutcome s []
          (Return (mkLoop (count st1) (wrap_int (errors st1 + 1))
                     (rowData st1)))
      /\ Reencode.scan_line E line st2 s
         = mkOutcome s []
             (Return (mkLoop (count st2) (wrap_int (errors st2 + 1))
                        (rowData st2)))
  | Some m =>
      let h := substring 0 m line in
      let v := substring (m + 1) (String.length line - (m + 1)) line in
      line = (h ++ String ":" v)%string
      /\ strings.IndexByte h ":" = None
      /\ strings.SplitN line ":" 2 = [h; v]
      /\ CountMode.scan_line E line st1 s
         = match strconv.Atoi v with
           | inr n =>
               let row :=
                 CountMode.mkData (strings.ToLower (unicodeLower E) h) n in
               let rows := rowData st1 ++ [row] in
               let c := wrap_int (count st1 + 1) in
               let r := pool_Exec E s (CountMode.batch_query rows)
                          (CountMode.batch_args rows) in
               if Z.rem c CountMode.BATCH_SIZE =? 0 then
                 mkOutcome (fst r)
                   (Log "processing %d..." [VInt c]
                      :: CountMode.batch_events rows (snd r))
                   (Return (mkLoop c
                              (wrap_int (errors st1 + batch_errors (snd r)))
                              []))
               else mkOutcome s [] (Return (mkLoop c (errors st1) rows))
           | inl _ =>
               mkOutcome s []
                 (Return (mkLoop (count st1) (wrap_int (errors st1 + 1))
                            (rowData st1)))
           end
      /\ Reencode.scan_line E line st2 s
         = match hex_DecodeString h with
           | inr hash =>
               let hibp := string_of_list_byte (ascii85.encode hash) in
               let rows := rowData st2 ++ [hibp] in
               let c := wrap_int (count st2 + 1) in
               let r := pool_Exec E s (Reencode.batch_query rows)
                          (Reencode.batch_args rows) in
               if Z.rem c Reencode.BATCH_SIZE =? 0 then
                 mkOutcome (fst r)
                   (Log "processing %d..." [VInt c]
                      :: Reencode.batch_events rows (snd r))
                   (Return (mkLoop c
                              (wrap_int (errors st2 + batch_errors (snd r)))
                              []))
               else mkOutcome s [] (Return (mkLoop c (errors st2) rows))
           | inl _ =>
               mkOutcome s []
                 (Return (mkLoop (count st2) (wrap_int (errors st2 + 1))
                            (rowData st2)))
           end
  end.
Proof.
  destruct (strings_facts.IndexByte_shape line ":") as [H | (h & v & -> & H)].
  - rewrite H.
    rewrite CountMode_facts.scan_line_parse, Reencode_line.reencode_scan_line_parse.
    unfold CountMode.parse, Reencode.parse.
    rewrite strings_facts.SplitN_absent by exact H. split; reflexivity.
  - pose proof (strings_facts.SplitN_first h v ":" H) as Hs.
    pose proof Hs as Hsplit.
    unfold strings.SplitN in Hs.
    rewrite strings_facts.IndexByte_append by exact H. cbv zeta.
    assert (Hh : substring 0 (String.length h) (h ++ String ":" v) = h)
      by apply strings_facts.substring_0_append.
    assert (Hv : substring (String.length h + 1)
                   (String.length (h ++ String ":" v) - (String.length h + 1))
                   (h ++ String ":" v) = v).
    { rewrite strings_facts.append_length in Hs |- *.
      cbn [String.length] in Hs |- *.
      replace (Nat.min 2 (String.length h + S (String.length v) + 1) - 1)%nat
        with 1%nat in Hs by lia.
      cbn [strings.genSplit] in Hs.
      rewrite strings_facts.IndexByte_append in Hs by exact H.
      rewrite strings_facts.append_length in Hs. cbn [String.length] in Hs.
      injection Hs as _ Hs. exact Hs. }
    rewrite Hh, Hv. split; [reflexivity|]. split; [exact H|].
    split; [exact Hsplit|]. split.
    + rewrite CountMode_facts.scan_line_parse.
      rewrite CountMode_facts.parse_wellformed by exact H.
      destruct (strconv.Atoi v) as [e|n]; [reflexivity|].
      destruct (Z.eqb_spec
                  (Z.rem (wrap_int (count st1 + 1)) CountMode.BATCH_SIZE) 0)
        as [Hc|Hc].
      * apply CountMode_facts.accept_flush. exact Hc.
      * apply CountMode_facts.accept_keep. exact Hc.
    + rewrite Reencode_line.reencode_scan_line_parse.
      unfold Reencode.parse. rewrite Hsplit.
      destruct (hex_DecodeString h) as [e|hash]; [reflexivity|].
      rewrite Reencode_facts.reencode_encode.
      destruct (Z.eqb_spec
                  (Z.rem (wrap_int (count st2 + 1)) Reencode.BATCH_SIZE) 0)
        as [Hc|Hc].
      * apply Reencode_line.reencode_accept_flush. exact Hc.
      * apply Reencode_line.reencode_accept_keep. exact Hc.
Qed.

End Line_parser.

(** C4, as stated, fails: the line [:5] splits into an empty key and [5],
    and count mode accepts it as a row with an empty identifier; no error
    is counted. *)
Lemma line_parser_accepts_empty_key :
  strings.SplitN ":5" ":" 2 = [EmptyString; "5"]
  /\ CountMode.scan_line (serving [] accepting) ":5" (mkLoop 0 0 []) tt
     = mkOutcome tt []
         (Return (mkLoop 1 0 [CountMode.mkData EmptyString 5])).
Proof. split; reflexivity. Qed.

(** ** Events of a run *)

Section Events_facts.

Context {Store : Type}.

Lemma bind_inv {A B : Type} (m : M Store A) (k : A -> M Store B)
  (s : Store) (b : B) :
  result_of (bind m k s) = Return b ->
  exists a,
    result_of (m s) = Return a
    /\ bind m k s = prepend (events_of (m s)) (k a (store_of (m s))).
Proof.
  unfold bind. destruct (result_of (m s)) as [a| |]; cbn; intros H;
    try discriminate.
  exists a. split; reflexivity.
Qed.

(** Events no part of a computation emits are not emitted by the whole. *)
Lemma filter_events_bind {A B : Type} (P : Event -> bool)
  (m : M Store A) (k : A -> M Store B) :
  (forall s, filter P (events_of (m s)) = []) ->
  (forall a s, filter P (events_of (k a s)) = []) ->
  forall s, filter P (events_of (bind m k s)) = [].
Proof.
  intros Hm Hk s. unfold bind.
  destruct (result_of (m s)) as [a| |]; cbn; try apply Hm.
  rewrite filter_app, Hm, Hk. reflexivity.
Qed.

Lemma filter_events_scan {St : Type} (P : Event -> bool)
  (body : string -> St -> M Store St) :
  (forall line st s, filter P (events_of (body line st s)) = []) ->
  forall lines st s, filter P (events_of (scan body lines st s)) = [].
Proof.
  intros Hb lines. induction lines as [|l lines IH]; intros st s.
  - reflexivity.
  - cbn [scan]. apply filter_events_bind; [apply Hb | exact IH].
Qed.

End Events_facts.

(** ** What the two revisions share *)

Section Shared_facts.

Context {Store : Type} (E : Env Store).

Lemma dbLogImportData_run (name state : string) (time : Time) (s : Store) :
  dbLogImportData E name state time s
  = let r := pool_Exec E s IMPORTS_INSERT
               [VString name; VString state; VTime time] in
    mkOutcome (fst r)
      (Exec IMPORTS_INSERT [VString name; VString state; VTime time] (snd r)
         :: match snd r with
            | Some e => [Log "Error writing to imports: %v" [VError e]]
            | None => []
            end)
      (Return tt).
Proof.
  unfold dbLogImportData, bind, dbPool_Exec.
  destruct (pool_Exec E s IMPORTS_INSERT _) as [s' [e|]]; reflexivity.
Qed.

Lemma report_run (name : string) (errors : Z) (time : Time) (s : Store) :
  report E name errors time s
  = let r := pool_Exec E s IMPORTS_INSERT
               [VString name; VString (state_of errors); VTime time] in
    mkOutcome (fst r) (report_events name errors time (snd r)) (Return tt).
Proof.
  unfold report, report_events, ledger_entry, state_of.
  destruct (errors >? 0).
  - rewrite bind_Return with (s1 := s)
        (evs := [Log "%d Error(s) found" [VInt errors]]) (a := "error")
      by reflexivity.
    rewrite dbLogImportData_run. reflexivity.
  - rewrite bind_ret, dbLogImportData_run. reflexivity.
Qed.

Lemma setup_quiet (P : Event -> bool)
  (schema connectionString filename date : string) :
  (forall format args, P (Log format args) = false) ->
  (forall err, P (Exec schema [] err) = false) ->
  (forall err, P (Exec IMPORT_TABLE_SCHEMA [] err) = false) ->
  forall s,
    filter P (events_of (setup E schema connectionString filename date s)) = [].
Proof.
  intros Hlog Hs1 Hs2. unfold setup.
  assert (Hschema : forall sql,
             (forall err, P (Exec sql [] err) = false) ->
             forall s, filter P (events_of (dbSchemaCreate E sql s)) = []).
  { intros sql Hsql s. unfold dbSchemaCreate, bind, dbPool_Exec.
    destruct (pool_Exec E s sql []) as [s' [e|]]; cbn; rewrite Hsql;
      reflexivity. }
  apply filter_events_bind.
  { intros s. unfold stringToDate.
    destruct (String.eqb date EmptyString); [reflexivity|].
    destruct (time_Parse E DATE_FORMAT date); [reflexivity|].
    cbn. rewrite Hlog. reflexivity. }
  intros time. apply filter_events_bind.
  { intros s. cbn. rewrite Hlog. reflexivity. }
  intros _. apply filter_events_bind.
  { intros s. unfold connect.
    destruct (pgxpool_Connect E connectionString); reflexivity. }
  intros _. apply filter_events_bind; [apply Hschema, Hs1|].
  intros _. apply filter_events_bind; [apply Hschema, Hs2|].
  intros _. apply filter_events_bind.
  { intros s. unfold open. destruct (os_Open E filename); reflexivity. }
  reflexivity.
Qed.

Lemma check_scan_run (f : File) (s : Store) :
  check_scan f s
  = mkOutcome s []
      (match scan_err f with
       | Some err => Fatal [VError err]
       | None => Return tt
       end).
Proof. unfold check_scan. destruct (scan_err f); reflexivity. Qed.

End Shared_facts.

(** ** Whole runs *)

Section Runs.

Context {Store : Type} (E : Env Store).

Lemma CountMode_load_run (conn filename date : string) (s s1 : Store)
  (evs : list Event) (time : Time) (f : File) :
  setup E CountMode.HIBP_TABLE_SCHEMA conn filename date s
  = mkOutcome s1 evs (Return (time, f)) ->
  CountMode.load E conn filename date s
  = prepend evs
      (bind (scan (CountMode.scan_line E) (tokens f) (mkLoop 0 0 []))
         (fun st =>
            bind (check_scan f)
              (fun _ =>
                 bind (CountMode.hibpProcessRowDataBatch E (rowData st))
                   (fun e =>
                      ret (count st, wrap_int (errors st + e), time)))) s1).
Proof.
  intros H. unfold CountMode.load.
  rewrite (bind_Return _ _ _ _ _ _ H). reflexivity.
Qed.

Lemma Reencode_load_run (conn filename date : string) (s s1 : Store)
  (evs : list Event) (time : Time) (f : File) :
  setup E Reencode.HIBP_TABLE_SCHEMA conn filename date s
  = mkOutcome s1 evs (Return (time, f)) ->
  Reencode.load E conn filename date s
  = prepend evs
      (bind (scan (Reencode.scan_line E) (tokens f) (mkLoop 0 0 []))
         (fun st =>
            bind (check_scan f)
              (fun _ =>
                 bind (Reencode.hibpProcessRowDataBatch E (rowData st))
                   (fun e =>
                      ret (count st, wrap_int (errors st + e), time)))) s1).
Proof.
  intros H. unfold Reencode.load.
  rewrite (bind_Return _ _ _ _ _ _ H). reflexivity.
Qed.

Lemma CountMode_hibpEtl_run (conn filename date : string) (s s1 : Store)
  (evs : list Event) (n errors : Z) (time : Time) :
  CountMode.load E conn filename date s
  = mkOutcome s1 evs (Return (n, errors, time)) ->
  CountMode.hibpEtl E conn filename date s
  = let r := pool_Exec E s1 IMPORTS_INSERT
               [VString "pwned-passwords-sha1"; VString (state_of errors);
                VTime time] in
    mkOutcome (fst r)
      (evs ++ report_events "pwned-passwords-sha1" errors time (snd r))
      (Return n).
Proof.
  intros H. unfold CountMode.hibpEtl.
  rewrite (bind_Return _ _ _ _ _ _ H).
  rewrite (bind_Return _ _ _ _ _ _ (report_run E _ errors time s1)).
  unfold prepend, ret. cbn. rewrite app_nil_r. reflexivity.
Qed.

Lemma Reencode_hibpEtl_run (conn filename date : string) (s s1 : Store)
  (evs : list Event) (n errors : Z) (time : Time) :
  Reencode.load E conn filename date s
  = mkOutcome s1 evs (Return (n, errors, time)) ->
  Reencode.hibpEtl E conn filename date s
  = let r := pool_Exec E s1 IMPORTS_INSERT
               [VString "pwned-passwords-sha1"; VString (state_of errors);
                VTime time] in
    mkOutcome (fst r)
      (evs ++ report_events "pwned-passwords-sha1" errors time (snd r))
      (Return n).
Proof.
  intros H. unfold Reencode.hibpEtl.
  rewrite (bind_Return _ _ _ _ _ _ H).
  rewrite (bind_Return _ _ _ _ _ _ (report_run E _ errors time s1)).
  unfold prepend, ret. cbn. rewrite app_nil_r. reflexivity.
Qed.

Lemma wrap_batch_errors (err : option error) :
  wrap_int (0 + batch_errors err) = batch_errors err.
Proof. destruct err; reflexivity. Qed.

(** The run of an empty input file, in any environment.  Both loaders
    accept no row and count no row error, and the one unconditional
    batch-write call gets the empty buffer; the Writer has no guard for it
    and executes one statement, an insert with an empty [VALUES] list and
    no argument.  The run's error count is what that execution reports, 0
    if the store accepts the statement and 1 if it rejects it, and the
    ledger entry is written with the state of that count.  The run
    returns 0. *)
Lemma empty_file_run (conn filename date : string) (s s1 s2 : Store)
  (evs1 evs2 : list Event) (time : Time) :
  setup E CountMode.HIBP_TABLE_SCHEMA conn filename date s
  = mkOutcome s1 evs1 (Return (time, mkFile [] None)) ->
  setup E Reencode.HIBP_TABLE_SCHEMA conn filename date s
  = mkOutcome s2 evs2 (Return (time, mkFile [] None)) ->
  (let sql := "INSERT INTO hibp (hibp_id, count) VALUES  ON CONFLICT (hibp_id) DO UPDATE SET count = EXCLUDED.count" in
   let b := pool_Exec E s1 sql [] in
   let errors := batch_errors (snd b) in
   let l := pool_Exec E (fst b) IMPORTS_INSERT
              [VString "pwned-passwords-sha1"; VString (state_of errors);
               VTime time] in
   CountMode.batch_query [] = sql
   /\ CountMode.hibpEtl E conn filename date s
      = mkOutcome (fst l)
          (evs1 ++ CountMode.batch_events [] (snd b)
                ++ report_events "pwned-passwords-sha1" errors time (snd l))
          (Return 0))
  /\ (let sql := "INSERT INTO hibp (hibp_id) VALUES  ON CONFLICT (hibp_id) DO NOTHING" in
      let b := pool_Exec E s2 sql [] in
      let errors := batch_errors (snd b) in
      let l := pool_Exec E (fst b) IMPORTS_INSERT
                 [VString "pwned-passwords-sha1"; VString (state_of errors);
                  VTime time] in
      Reencode.batch_query [] = sql
      /\ Reencode.hibpEtl E conn filename date s
         = mkOutcome (fst l)
             (evs2 ++ Reencode.batch_events [] (snd b)
                   ++ report_events "pwned-passwords-sha1" errors time (snd l))
             (Return 0)).
Proof.
  intros H1 H2. split; cbv zeta; (split; [reflexivity|]).
  - erewrite CountMode_hibpEtl_run.
    + cbv zeta. rewrite <- app_assoc. reflexivity.
    + rewrite (CountMode_load_run _ _ _ _ _ _ _ _ H1).
      cbn [tokens scan]. rewrite bind_ret.
      unfold check_scan. cbn [scan_err]. rewrite bind_ret.
      rewrite (bind_Return _ _ _ _ _ _
                 (CountMode_facts.hibpProcessRowDataBatch_run E _ _)).
      cbn [rowData errors count]. rewrite wrap_batch_errors.
      unfold prepend, ret. cbn. rewrite app_nil_r. reflexivity.
  - erewrite Reencode_hibpEtl_run.
    + cbv zeta. rewrite <- app_assoc. reflexivity.
    + rewrite (Reencode_load_run _ _ _ _ _ _ _ _ H2).
      cbn [tokens scan]. rewrite bind_ret.
      unfold check_scan. cbn [scan_err]. rewrite bind_ret.
      rewrite (bind_Return _ _ _ _ _ _
                 (Reencode_line.reencode_batch_run E _ _)).
      cbn [rowData errors count]. rewrite wrap_batch_errors.
      unfold prepend, ret. cbn. rewrite app_nil_r. reflexivity.
Qed.

End Runs.

Lemma empty_file_run_accepting :
  CountMode.hibpEtl (serving [] accepting) "db" "pwned.txt"
    "November 19 2020" tt
  = mkOutcome tt
      [Log "File import time %s" [VTime (mkTime 2020 11 19)];
       Log "HIBP Processing file %s for %s"
         [VString "pwned.txt"; VString "November 19 2020"];
       Exec CountMode.HIBP_TABLE_SCHEMA [] None;
       Exec IMPORT_TABLE_SCHEMA [] None;
       Exec "INSERT INTO hibp (hibp_id, count) VALUES  ON CONFLICT (hibp_id) DO UPDATE SET count = EXCLUDED.count"
         [] None;
       Exec IMPORTS_INSERT
         [VString "pwned-passwords-sha1"; VString "done";
          VTime (mkTime 2020 11 19)] None]
      (Return 0).
Proof.
  exact (proj2 (proj1
    (empty_file_run (serving [] accepting) "db" "pwned.txt" "November 19 2020"
       tt tt tt _ _ (mkTime 2020 11 19) eq_refl eq_refl))).
Defined.

(** C1.  The run of an empty input file should end with 0 accepted rows,
    0 errors and the state [done], the batch write of the empty buffer
    being a no-op.  The Writer has no case for the empty buffer: it
    executes an insert with an empty [VALUES] list, also against a store
    that accepts everything; a store that parses its statements rejects
    that one, and the run of the empty file then counts one error and its
    ledger entry says [error], in both loaders. *)
Lemma empty_input_not_noop :
  In (Exec "INSERT INTO hibp (hibp_id, count) VALUES  ON CONFLICT (hibp_id) DO UPDATE SET count = EXCLUDED.count"
        [] None)
     (events_of (CountMode.hibpEtl (serving [] accepting) "db" "pwned.txt"
                   "November 19 2020" tt))
  /\ CountMode.hibpEtl (serving [] strict) "db" "pwned.txt"
       "November 19 2020" tt
     = mkOutcome tt
         [Log "File import time %s" [VTime (mkTime 2020 11 19)];
          Log "HIBP Processing file %s for %s"
            [VString "pwned.txt"; VString "November 19 2020"];
          Exec CountMode.HIBP_TABLE_SCHEMA [] None;
          Exec IMPORT_TABLE_SCHEMA [] None;
          Exec "INSERT INTO hibp (hibp_id, count) VALUES  ON CONFLICT (hibp_id) DO UPDATE SET count = EXCLUDED.count"
            [] (Some "syntax error at or near ON");
          Log "Err: %v on %s"
            [VError "syntax error at or near ON";
             VString "INSERT INTO hibp (hibp_id, count) VALUES  ON CONFLICT (hibp_id) DO UPDATE SET count = EXCLUDED.count"];
          Log "%d Error(s) found" [VInt 1];
          Exec IMPORTS_INSERT
            [VString "pwned-passwords-sha1"; VString "error";
             VTime (mkTime 2020 11 19)] None]
         (Return 0)
  /\ Reencode.hibpEtl (serving [] strict) "db" "pwned.txt"
       "November 19 2020" tt
     = mkOutcome tt
         [Log "File import time %s" [VTime (mkTime 2020 11 19)];
          Log "HIBP Processing file %s for %s"
            [VString "pwned.txt"; VString "November 19 2020"];
          Exec Reencode.HIBP_TABLE_SCHEMA [] None;
          Exec IMPORT_TABLE_SCHEMA [] None;
          Exec "INSERT INTO hibp (hibp_id) VALUES  ON CONFLICT (hibp_id) DO NOTHING"
            [] (Some "syntax error at or near ON");
          Log "Err: %v on %s: %v"
            [VError "syntax error at or near ON";
             VString "INSERT INTO hibp (hibp_id) VALUES  ON CONFLICT (hibp_id) DO NOTHING";
             VSlice []];
          Log "%d Error(s) found" [VInt 1];
          Exec IMPORTS_INSERT
            [VString "pwned-passwords-sha1"; VString "error";
             VTime (mkTime 2020 11 19)] None]
         (Return 0).
Proof.
  split; [|split].
  - cbn. do 4 right. left. reflexivity.
  - reflexivity.
  - reflexivity.
Qed.

(** ** Count mode: batches *)

Module CountMode_runs.
Import CountMode CountMode_facts.

Section Batches.

Context {Store : Type} (E : Env Store).

Lemma BATCH_SIZE_value : BATCH_SIZE = 10000.
Proof. reflexivity. Qed.

(** While the batch is not full the loop only collects rows. *)
Lemma scan_keep (lines : list string) :
  forall (rows : list hibpData) (st : Loop hibpData) (s : Store),
    map (parse E) lines = map Some rows ->
    0 <= count st ->
    count st + Z.of_nat (List.length lines) <= int_max ->
    Z.rem (count st) BATCH_SIZE + Z.of_nat (List.length lines) < BATCH_SIZE ->
    scan (scan_line E) lines st s
    = mkOutcome s []
        (Return (mkLoop (count st + Z.of_nat (List.length lines))
                   (errors st) (rowData st ++ rows))).
Proof.
  pose proof BATCH_SIZE_value as HB.
  induction lines as [|line lines IH]; intros rows st s Hrows H0 Hmax Hrem.
  - destruct rows; [|discriminate].
    cbn [scan List.length Z.of_nat]. rewrite Z.add_0_r, app_nil_r.
    destruct st. reflexivity.
  - destruct rows as [|row rows]; [discriminate|].
    cbn [map] in Hrows. injection Hrows as Hrow Hrows.
    cbn [List.length] in Hmax, Hrem |- *.
    rewrite Nat2Z.inj_succ in Hmax, Hrem |- *.
    rewrite Z.rem_mod_nonneg in Hrem by lia.
    assert (Hw : wrap_int (count st + 1) = count st + 1)
      by (apply wrap_int_small; unfold int_min, int_max in *; lia).
    cbn [scan].
    erewrite bind_Return.
    2:{ rewrite scan_line_parse, Hrow. apply accept_keep.
        rewrite Hw, Z.rem_mod_nonneg by lia.
        Z.div_mod_to_equations. lia. }
    rewrite prepend_nil, Hw.
    rewrite (IH rows); cbn [count errors rowData].
    + rewrite <- app_assoc. do 3 f_equal. lia.
    + exact Hrows.
    + lia.
    + lia.
    + rewrite Z.rem_mod_nonneg by lia. Z.div_mod_to_equations. lia.
Qed.

(** The line that fills the batch flushes it. *)
Lemma scan_fill (lines : list string) (rows : list hibpData)
  (st : Loop hibpData) (s : Store) :
  map (parse E) lines = map Some rows ->
  0 <= count st ->
  count st + Z.of_nat (List.length lines) <= int_max ->
  Z.rem (count st) BATCH_SIZE + Z.of_nat (List.length lines) = BATCH_SIZE ->
  scan (scan_line E) lines st s
  = let batch := rowData st ++ rows in
    let c := count st + Z.of_nat (List.length lines) in
    let r := pool_Exec E s (batch_query batch) (batch_args batch) in
    mkOutcome (fst r)
      (Log "processing %d..." [VInt c] :: batch_events batch (snd r))
      (Return (mkLoop c (wrap_int (errors st + batch_errors (snd r))) [])).
Proof.
  pose proof BATCH_SIZE_value as HB.
  intros Hrows H0 Hmax Hrem.
  rewrite Z.rem_mod_nonneg in Hrem by lia.
  destruct (exists_last (l := lines)) as (lines' & line & ->).
  { intros ->. cbn in Hrem. Z.div_mod_to_equations. lia. }
  rewrite map_app in Hrows. symmetry in Hrows.
  apply map_eq_app in Hrows. destruct Hrows as (rows' & rs & -> & Hrows' & Hr).
  destruct rs as [|row [|? ?]]; try discriminate.
  cbn [map] in Hr. injection Hr as Hrow. symmetry in Hrows'.
  rewrite length_app in Hmax, Hrem |- *. cbn [List.length] in Hmax, Hrem |- *.
  rewrite Nat2Z.inj_add in Hmax, Hrem |- *.
  change (Z.of_nat 1) with 1 in *.
  rewrite scan_app.
  erewrite bind_Return.
  2:{ apply (scan_keep lines' rows'); try assumption; try lia.
      rewrite Z.rem_mod_nonneg by lia. lia. }
  rewrite prepend_nil. cbn [scan].
  assert (Hw : wrap_int (count st + Z.of_nat (List.length lines') + 1)
               = count st + Z.of_nat (List.length lines') + 1)
    by (apply wrap_int_small; unfold int_min, int_max in *; lia).
  erewrite bind_Return.
  2:{ rewrite scan_line_parse, <- Hrow. apply accept_flush.
      cbn [count]. rewrite Hw, Z.rem_mod_nonneg by lia.
      Z.div_mod_to_equations. lia. }
  cbn [count errors rowData]. rewrite Hw.
  unfold prepend, ret. cbn [store_of events_of result_of scan].
  rewrite app_nil_r, <- app_assoc, Z.add_assoc. reflexivity.
Qed.

Lemma filter_batch_events (rows : list hibpData) (err : option error) :
  filter is_batch_write (batch_events rows err)
  = [Exec (batch_query rows) (batch_args rows) err].
Proof. destruct err; reflexivity. Qed.

Lemma filter_report_events (name : string) (errors : Z) (time : Time)
  (err : option error) :
  filter is_batch_write (report_events name errors time err) = [].
Proof.
  unfold report_events. destruct (errors >? 0); destruct err; reflexivity.
Qed.

Lemma setup_no_batch_write (conn filename date : string) (s s1 : Store)
  (evs : list Event) (r : Result (Time * File)) :
  setup E HIBP_TABLE_SCHEMA conn filename date s = mkOutcome s1 evs r ->
  filter is_batch_write evs = [].
Proof.
  intros H.
  pose proof (setup_quiet E is_batch_write HIBP_TABLE_SCHEMA conn filename
                date) as Hq.
  specialize (Hq (fun _ _ => eq_refl) (fun _ => eq_refl) (fun _ => eq_refl) s).
  rewrite H in Hq. exact Hq.
Qed.

(** C5. A file of exactly [2 * BATCH_SIZE + 1] valid lines makes the
    loader write three batches, in this order: the first [BATCH_SIZE]
    rows, the next [BATCH_SIZE] rows, and the one remaining row, flushed
    after the end of the input; the run returns the number of lines. *)
Theorem batch_boundary (conn filename date : string) (s s1 : Store)
  (evs : list Event) (time : Time)
  (lines : list string) (rows : list hibpData) :
  setup E HIBP_TABLE_SCHEMA conn filename date s
  = mkOutcome s1 evs (Return (time, mkFile lines None)) ->
  map (parse E) lines = map Some rows ->
  List.length lines = Z.to_nat (2 * BATCH_SIZE + 1) ->
  let B := Z.to_nat BATCH_SIZE in
  let r1 := firstn B rows in
  let r2 := firstn B (skipn B rows) in
  let r3 := skipn B (skipn B rows) in
  exists e1 e2 e3,
    filter is_batch_write (events_of (hibpEtl E conn filename date s))
    = [Exec (batch_query r1) (batch_args r1) e1;
       Exec (batch_query r2) (batch_args r2) e2;
       Exec (batch_query r3) (batch_args r3) e3]
    /\ List.length r1 = B /\ List.length r2 = B /\ List.length r3 = 1%nat
    /\ rows = r1 ++ r2 ++ r3
    /\ result_of (hibpEtl E conn filename date s)
       = Return (2 * BATCH_SIZE + 1).
Proof.
  pose proof BATCH_SIZE_value as HB.
  intros Hsetup Hrows Hlen B r1 r2 r3.
  assert (Hlr : List.length rows = List.length lines).
  { apply (f_equal (@List.length _)) in Hrows.
    rewrite !length_map in Hrows. symmetry. exact Hrows. }
  assert (HBB : Z.of_nat B = BATCH_SIZE) by (subst B; lia).
  assert (Hl1 : List.length r1 = B)
    by (subst r1; rewrite length_firstn; lia).
  assert (Hl2 : List.length r2 = B)
    by (subst r2; rewrite length_firstn, length_skipn; lia).
  assert (Hl3 : List.length r3 = 1%nat)
    by (subst r3; rewrite !length_skipn; lia).
  assert (Hsplit : rows = r1 ++ r2 ++ r3).
  { subst r1 r2 r3. rewrite !firstn_skipn. reflexivity. }
  set (l1 := firstn B lines). set (l2 := firstn B (skipn B lines)).
  set (l3 := skipn B (skipn B lines)).
  assert (Hlsplit : lines = l1 ++ l2 ++ l3).
  { subst l1 l2 l3. rewrite !firstn_skipn. reflexivity. }
  assert (Hp1 : map (parse E) l1 = map Some r1).
  { subst l1 r1. rewrite <- !firstn_map. f_equal. exact Hrows. }
  assert (Hp2 : map (parse E) l2 = map Some r2).
  { subst l2 r2. rewrite <- !firstn_map, <- !skipn_map. do 2 f_equal.
    exact Hrows. }
  assert (Hp3 : map (parse E) l3 = map Some r3).
  { subst l3 r3. rewrite <- !skipn_map. do 2 f_equal. exact Hrows. }
  assert (Hn1 : List.length l1 = B)
    by (subst l1; rewrite length_firstn; lia).
  assert (Hn2 : List.length l2 = B)
    by (subst l2; rewrite length_firstn, length_skipn; lia).
  assert (Hn3 : List.length l3 = 1%nat)
    by (subst l3; rewrite !length_skipn; lia).
  clearbody l1 l2 l3 r1 r2 r3 B.
  set (x1 := pool_Exec E s1 (batch_query r1) (batch_args r1)).
  set (x2 := pool_Exec E (fst x1) (batch_query r2) (batch_args r2)).
  set (x3 := pool_Exec E (fst x2) (batch_query r3) (batch_args r3)).
  set (errs := wrap_int (wrap_int (wrap_int (0 + batch_errors (snd x1))
                                    + batch_errors (snd x2))
                         + batch_errors (snd x3))).
  assert (Hload :
    load E conn filename date s
    = mkOutcome (fst x3)
        (evs ++ (Log "processing %d..." [VInt BATCH_SIZE]
                   :: batch_events r1 (snd x1))
             ++ (Log "processing %d..." [VInt (2 * BATCH_SIZE)]
                   :: batch_events r2 (snd x2))
             ++ batch_events r3 (snd x3))
        (Return (2 * BATCH_SIZE + 1, errs, time))).
  { assert (H1 : scan (scan_line E) l1 (mkLoop 0 0 []) s1
                 = mkOutcome (fst x1)
                     (Log "processing %d..." [VInt BATCH_SIZE]
                        :: batch_events r1 (snd x1))
                     (Return (mkLoop BATCH_SIZE
                                (wrap_int (0 + batch_errors (snd x1))) []))).
    { rewrite (scan_fill l1 r1); cbn [count]; try assumption;
        unfold int_max; try lia.
      - cbv zeta. cbn [rowData count errors app]. fold x1.
        replace (0 + Z.of_nat (List.length l1)) with BATCH_SIZE by lia.
        reflexivity.
      - rewrite Z.rem_mod_nonneg by lia. rewrite Z.mod_0_l by lia. lia. }
    assert (H2 : forall e,
               scan (scan_line E) l2 (mkLoop BATCH_SIZE e []) (fst x1)
               = mkOutcome (fst x2)
                   (Log "processing %d..." [VInt (2 * BATCH_SIZE)]
                      :: batch_events r2 (snd x2))
                   (Return (mkLoop (2 * BATCH_SIZE)
                              (wrap_int (e + batch_errors (snd x2))) []))).
    { intros e.
      rewrite (scan_fill l2 r2); cbn [count]; try assumption;
        unfold int_max; try lia.
      - cbv zeta. cbn [rowData count errors app]. fold x2.
        replace (BATCH_SIZE + Z.of_nat (List.length l2))
          with (2 * BATCH_SIZE) by lia.
        reflexivity.
      - rewrite Z.rem_mod_nonneg by lia. rewrite Z.mod_same by lia. lia. }
    assert (H3 : forall e s',
               scan (scan_line E) l3 (mkLoop (2 * BATCH_SIZE) e []) s'
               = mkOutcome s' []
                   (Return (mkLoop (2 * BATCH_SIZE + 1) e r3))).
    { intros e s'.
      rewrite (scan_keep l3 r3); cbn [count]; try assumption;
        unfold int_max; try lia.
      - cbn [rowData count errors app]. rewrite Hn3. reflexivity.
      - rewrite Z.rem_mod_nonneg by lia. rewrite Z.mod_mul by lia. lia. }
    rewrite (CountMode_load_run E _ _ _ _ _ _ _ _ Hsetup).
    cbn [tokens]. rewrite Hlsplit.
    erewrite bind_Return.
    2:{ rewrite scan_app. rewrite (bind_Return _ _ _ _ _ _ H1).
        rewrite scan_app. rewrite (bind_Return _ _ _ _ _ _ (H2 _)).
        rewrite H3. unfold prepend. cbn [store_of events_of result_of].
        reflexivity. }
    cbn [rowData count errors].
    unfold check_scan. cbn [scan_err]. rewrite bind_ret.
    rewrite (bind_Return _ _ _ _ _ _
               (hibpProcessRowDataBatch_run E _ _)).
    fold x3. unfold prepend, ret.
    cbn [store_of events_of result_of].
    rewrite !app_nil_r, <- !app_assoc. reflexivity. }
  rewrite (CountMode_hibpEtl_run E _ _ _ _ _ _ _ _ _ Hload). cbv zeta.
  cbn [events_of result_of].
  exists (snd x1), (snd x2), (snd x3).
  split; [|repeat split; assumption].
  rewrite !filter_app.
  rewrite (setup_no_batch_write _ _ _ _ _ _ _ Hsetup).
  cbn [filter is_batch_write]. rewrite !filter_batch_events.
  rewrite filter_report_events. reflexivity.
Qed.

End Batches.

Lemma batch_boundary_witness :
  let lines := repeat "ab:1" (Z.to_nat (2 * BATCH_SIZE + 1)) in
  let rows := repeat (mkData "ab" 1) (Z.to_nat (2 * BATCH_SIZE + 1)) in
  let B := Z.to_nat BATCH_SIZE in
  let r1 := firstn B rows in
  let r2 := firstn B (skipn B rows) in
  let r3 := skipn B (skipn B rows) in
  exists e1 e2 e3,
    filter is_batch_write
      (events_of (hibpEtl (serving lines accepting) "db" "pwned.txt"
                    "November 19 2020" tt))
    = [Exec (batch_query r1) (batch_args r1) e1;
       Exec (batch_query r2) (batch_args r2) e2;
       Exec (batch_query r3) (batch_args r3) e3]
    /\ List.length r1 = B /\ List.length r2 = B /\ List.length r3 = 1%nat
    /\ rows = r1 ++ r2 ++ r3
    /\ result_of (hibpEtl (serving lines accepting) "db" "pwned.txt"
                    "November 19 2020" tt)
       = Return (2 * BATCH_SIZE + 1).
Proof.
  intros lines rows.
  apply (batch_boundary (serving lines accepting) "db" "pwned.txt"
           "November 19 2020" tt tt
           [Log "File import time %s" [VTime (mkTime 2020 11 19)];
            Log "HIBP Processing file %s for %s"
              [VString "pwned.txt"; VString "November 19 2020"];
            Exec HIBP_TABLE_SCHEMA [] None;
            Exec IMPORT_TABLE_SCHEMA [] None]
           (mkTime 2020 11 19) lines rows).
  - reflexivity.
  - unfold lines, rows. rewrite !map_repeat. reflexivity.
  - apply repeat_length.
Defined.

End CountMode_runs.

(** ** A failing batch, the ledger *)

Section Failures.

Context {Store : Type} (E : Env Store).

(** C6. When the execution of a batch fails, the Writer executes the
    statement once (no retry), logs the failure and returns 1 whatever the
    number of rows; it never ends the run.  In the loop the error counter
    goes up by that 1, the batch buffer is dropped, and the loop goes on
    with the next line.  This holds for each of the two loaders on its
    own: the failure of a write of the one says nothing of the other. *)
Theorem batch_failure
  (rows1 : list CountMode.hibpData) (rows2 : list string) (s : Store) :
  (forall (s1 : Store) (err1 : error),
     pool_Exec E s (CountMode.batch_query rows1) (CountMode.batch_args rows1)
     = (s1, Some err1) ->
     CountMode.hibpProcessRowDataBatch E rows1 s
     = mkOutcome s1
         [Exec (CountMode.batch_query rows1) (CountMode.batch_args rows1)
            (Some err1);
          Log "Err: %v on %s"
            [VError err1; VString (CountMode.batch_query rows1)]]
         (Return 1)
     /\ forall line row st rest,
          CountMode.parse E line = Some row ->
          rowData st ++ [row] = rows1 ->
          Z.rem (wrap_int (count st + 1)) CountMode.BATCH_SIZE = 0 ->
          scan (CountMode.scan_line E) (line :: rest) st s
          = prepend
              [Log "processing %d..." [VInt (wrap_int (count st + 1))];
               Exec (CountMode.batch_query rows1)
                 (CountMode.batch_args rows1) (Some err1);
               Log "Err: %v on %s"
                 [VError err1; VString (CountMode.batch_query rows1)]]
              (scan (CountMode.scan_line E) rest
                 (mkLoop (wrap_int (count st + 1))
                    (wrap_int (errors st + 1)) [])
                 s1))
  /\ (forall (s2 : Store) (err2 : error),
        pool_Exec E s (Reencode.batch_query rows2) (Reencode.batch_args rows2)
        = (s2, Some err2) ->
        Reencode.hibpProcessRowDataBatch E rows2 s
        = mkOutcome s2
            [Exec (Reencode.batch_query rows2) (Reencode.batch_args rows2)
               (Some err2);
             Log "Err: %v on %s: %v"
               [VError err2; VString (Reencode.batch_query rows2);
                VSlice (Reencode.batch_args rows2)]]
            (Return 1)
        /\ forall line hibp st rest,
             Reencode.parse line = Some hibp ->
             rowData st ++ [hibp] = rows2 ->
             Z.rem (wrap_int (count st + 1)) Reencode.BATCH_SIZE = 0 ->
             scan (Reencode.scan_line E) (line :: rest) st s
             = prepend
                 [Log "processing %d..." [VInt (wrap_int (count st + 1))];
                  Exec (Reencode.batch_query rows2)
                    (Reencode.batch_args rows2) (Some err2);
                  Log "Err: %v on %s: %v"
                    [VError err2; VString (Reencode.batch_query rows2);
                     VSlice (Reencode.batch_args rows2)]]
                 (scan (Reencode.scan_line E) rest
                    (mkLoop (wrap_int (count st + 1))
                       (wrap_int (errors st + 1)) [])
                    s2)).
Proof.
  split.
  - intros s1 err1 H1. split.
    + rewrite CountMode_facts.hibpProcessRowDataBatch_run, H1. reflexivity.
    + intros line row st rest Hp Hr Hc. cbn [scan].
      erewrite bind_Return; [reflexivity|].
      rewrite CountMode_facts.scan_line_parse, Hp.
      rewrite CountMode_facts.accept_flush by exact Hc.
      rewrite Hr, H1. reflexivity.
  - intros s2 err2 H2. split.
    + rewrite Reencode_line.reencode_batch_run, H2. reflexivity.
    + intros line hibp st rest Hp Hr Hc. cbn [scan].
      erewrite bind_Return; [reflexivity|].
      rewrite Reencode_line.reencode_scan_line_parse, Hp.
      rewrite Reencode_line.reencode_accept_flush by exact Hc.
      rewrite Hr, H2. reflexivity.
Qed.

End Failures.

Lemma batch_failure_witness :
  (CountMode.hibpProcessRowDataBatch (serving [] count_refused)
     [CountMode.mkData "ab" 1; CountMode.mkData "cd" 2] tt
   = mkOutcome tt
       [Exec "INSERT INTO hibp (hibp_id, count) VALUES ($1, $2),($3, $4) ON CONFLICT (hibp_id) DO UPDATE SET count = EXCLUDED.count"
          [VString "ab"; VInt 1; VString "cd"; VInt 2]
          (Some "integer out of range");
        Log "Err: %v on %s"
          [VError "integer out of range";
           VString "INSERT INTO hibp (hibp_id, count) VALUES ($1, $2),($3, $4) ON CONFLICT (hibp_id) DO UPDATE SET count = EXCLUDED.count"]]
       (Return 1)
   /\ scan (CountMode.scan_line (serving [] count_refused)) ["cd:2"; "ef:3"]
        (mkLoop 9999 0 [CountMode.mkData "ab" 1]) tt
      = mkOutcome tt
          [Log "processing %d..." [VInt 10000];
           Exec "INSERT INTO hibp (hibp_id, count) VALUES ($1, $2),($3, $4) ON CONFLICT (hibp_id) DO UPDATE SET count = EXCLUDED.count"
             [VString "ab"; VInt 1; VString "cd"; VInt 2]
             (Some "integer out of range");
           Log "Err: %v on %s"
             [VError "integer out of range";
              VString "INSERT INTO hibp (hibp_id, count) VALUES ($1, $2),($3, $4) ON CONFLICT (hibp_id) DO UPDATE SET count = EXCLUDED.count"]]
          (Return (mkLoop 10001 1 [CountMode.mkData "ef" 3])))
  /\ (Reencode.hibpProcessRowDataBatch (serving [] id_refused)
        ["87cURDZ"; "WtG"] tt
      = mkOutcome tt
          [Exec "INSERT INTO hibp (hibp_id) VALUES ($1),($2) ON CONFLICT (hibp_id) DO NOTHING"
             [VString "87cURDZ"; VString "WtG"]
             (Some "value too long for type character(25)");
           Log "Err: %v on %s: %v"
             [VError "value too long for type character(25)";
              VString "INSERT INTO hibp (hibp_id) VALUES ($1),($2) ON CONFLICT (hibp_id) DO NOTHING";
              VSlice [VString "87cURDZ"; VString "WtG"]]]
          (Return 1)
      /\ scan (Reencode.scan_line (serving [] id_refused))
           ["ab12:3"; "6162:1"]
           (mkLoop 59999 0 ["87cURDZ"]) tt
         = mkOutcome tt
             [Log "processing %d..." [VInt 60000];
              Exec "INSERT INTO hibp (hibp_id) VALUES ($1),($2) ON CONFLICT (hibp_id) DO NOTHING"
                [VString "87cURDZ"; VString "WtG"]
                (Some "value too long for type character(25)");
              Log "Err: %v on %s: %v"
                [VError "value too long for type character(25)";
                 VString "INSERT INTO hibp (hibp_id) VALUES ($1),($2) ON CONFLICT (hibp_id) DO NOTHING";
                 VSlice [VString "87cURDZ"; VString "WtG"]]]
             (Return (mkLoop 60001 1 ["@:B"]))).
Proof.
  pose proof
    (batch_failure (serving [] count_refused)
       [CountMode.mkData "ab" 1; CountMode.mkData "cd" 2] ["87cURDZ"; "WtG"]
       tt) as [H1 _].
  pose proof
    (batch_failure (serving [] id_refused)
       [CountMode.mkData "ab" 1; CountMode.mkData "cd" 2] ["87cURDZ"; "WtG"]
       tt) as [_ H2].
  specialize (H1 tt "integer out of range" eq_refl).
  specialize (H2 tt "value too long for type character(25)" eq_refl).
  split; split.
  - exact (proj1 H1).
  - exact (proj2 H1 "cd:2" (CountMode.mkData "cd" 2)
             (mkLoop 9999 0 [CountMode.mkData "ab" 1]) ["ef:3"]
             eq_refl eq_refl eq_refl).
  - exact (proj1 H2).
  - exact (proj2 H2 "ab12:3" "WtG" (mkLoop 59999 0 ["87cURDZ"]) ["6162:1"]
             eq_refl eq_refl eq_refl).
Defined.

Module CountMode_ledger.
Import CountMode CountMode_facts.

Section Ledger.

Context {Store : Type} (E : Env Store).

Lemma batch_events_no_ledger (rows : list hibpData) (err : option error) :
  filter is_ledger (batch_events rows err) = [].
Proof. destruct err; reflexivity. Qed.

Lemma scan_line_no_ledger (line : string) (st : Loop hibpData) (s : Store) :
  filter is_ledger (events_of (scan_line E line st s)) = [].
Proof.
  rewrite scan_line_parse. destruct (parse E line) as [row|]; [|reflexivity].
  destruct (Z.eq_dec (Z.rem (wrap_int (count st + 1)) BATCH_SIZE) 0) as [H|H].
  - rewrite accept_flush by exact H. cbn [events_of filter is_ledger].
    apply batch_events_no_ledger.
  - rewrite accept_keep by exact H. reflexivity.
Qed.

(** Nothing before the end of [load] touches the ledger. *)
Lemma load_no_ledger (conn filename date : string) (s : Store) :
  filter is_ledger (events_of (load E conn filename date s)) = [].
Proof.
  revert s. unfold load. apply filter_events_bind.
  { apply setup_quiet; intros; reflexivity. }
  intros [time f]. apply filter_events_bind.
  { apply filter_events_scan. apply scan_line_no_ledger. }
  intros st. apply filter_events_bind.
  { intros s. rewrite check_scan_run. reflexivity. }
  intros _. apply filter_events_bind.
  { intros s. rewrite hibpProcessRowDataBatch_run.
    apply batch_events_no_ledger. }
  reflexivity.
Qed.

(** A [load] that returns has ended with the final flush. *)
Lemma load_ends_with_flush (conn filename date : string) (s : Store)
  (r : Z * Z * Time) :
  result_of (load E conn filename date s) = Return r ->
  exists pre rows err,
    events_of (load E conn filename date s) = pre ++ batch_events rows err.
Proof.
  unfold load. intros H.
  destruct (bind_inv _ _ _ _ H) as ([time f] & _ & Heq).
  rewrite Heq in H |- *. clear Heq.
  cbn [prepend result_of events_of] in H |- *.
  set (s1 := store_of _) in *. clearbody s1.
  set (e1 := events_of _). clearbody e1.
  destruct (bind_inv _ _ _ _ H) as (st & _ & Heq).
  rewrite Heq in H |- *. clear Heq.
  cbn [prepend result_of events_of] in H |- *.
  set (s2 := store_of _) in *. clearbody s2.
  set (e2 := events_of _). clearbody e2.
  destruct (bind_inv _ _ _ _ H) as ([] & _ & Heq).
  rewrite Heq. clear Heq H.
  cbn [prepend result_of events_of].
  set (s3 := store_of _). clearbody s3.
  set (e3 := events_of _). clearbody e3.
  rewrite (bind_Return _ _ _ _ _ _ (hibpProcessRowDataBatch_run E _ _)).
  cbn [prepend ret events_of]. rewrite app_nil_r.
  exists (e1 ++ e2 ++ e3), (rowData st), (snd (pool_Exec E s3 (batch_query (rowData st)) (batch_args (rowData st)))).
  rewrite <- !app_assoc. reflexivity.
Qed.

(** C7. A run that reaches completion writes exactly one ledger entry;
    no ledger entry is written before the final batch flush has been
    executed; after that flush the ledger statement is the only statement
    executed; and its state is [error] if the error counter accumulated by
    [load] is greater than zero and [done] otherwise. *)
Theorem ledger_once (conn filename date : string) (s : Store) (n : Z) :
  result_of (hibpEtl E conn filename date s) = Return n ->
  exists pre rows err post errors time lerr,
    events_of (hibpEtl E conn filename date s)
    = pre ++ Exec (batch_query rows) (batch_args rows) err :: post
    /\ filter is_ledger pre = []
    /\ filter is_exec post
       = [Exec IMPORTS_INSERT
            [VString "pwned-passwords-sha1";
             VString (if errors >? 0 then "error" else "done");
             VTime time] lerr]
    /\ filter is_ledger (events_of (hibpEtl E conn filename date s))
       = [Exec IMPORTS_INSERT
            [VString "pwned-passwords-sha1";
             VString (if errors >? 0 then "error" else "done");
             VTime time] lerr]
    /\ result_of (load E conn filename date s) = Return (n, errors, time).
Proof.
  intros H.
  pose proof (load_no_ledger conn filename date s) as Hq.
  pose proof (load_ends_with_flush conn filename date s) as Hf.
  destruct (load E conn filename date s) as [sl evl rl] eqn:Hl.
  assert (Hr : exists errors time, rl = Return (n, errors, time)).
  { destruct rl as [[[n' e] t]| |].
    - rewrite (CountMode_hibpEtl_run E _ _ _ _ _ _ _ _ _ Hl) in H.
      cbn in H. injection H as <-. exists e, t. reflexivity.
    - unfold hibpEtl, bind in H. rewrite Hl in H. discriminate.
    - unfold hibpEtl, bind in H. rewrite Hl in H. discriminate. }
  destruct Hr as (errors & time & ->).
  destruct (Hf _ eq_refl) as (pre & rows & err & Hev).
  cbn [events_of] in Hev, Hq. subst evl.
  rewrite (CountMode_hibpEtl_run E _ _ _ _ _ _ _ _ _ Hl). cbv zeta.
  cbn [events_of result_of].
  set (lerr := snd (pool_Exec E sl IMPORTS_INSERT _)). clearbody lerr.
  rewrite filter_app in Hq. apply app_eq_nil in Hq. destruct Hq as [Hpre _].
  exists pre, rows, err,
    (match err with
     | Some e => [Log "Err: %v on %s" [VError e; VString (batch_query rows)]]
     | None => []
     end ++ report_events "pwned-passwords-sha1" errors time lerr),
    errors, time, lerr.
  split; [|split; [exact Hpre|split; [|split; [|reflexivity]]]].
  - unfold batch_events. rewrite <- !app_assoc. reflexivity.
  - unfold report_events, ledger_entry, state_of.
    destruct err; destruct (errors >? 0); destruct lerr; reflexivity.
  - rewrite !filter_app, Hpre, batch_events_no_ledger.
    unfold report_events, ledger_entry, state_of.
    destruct (errors >? 0); destruct lerr; reflexivity.
Qed.

(** C8. A failing ledger write is logged and nothing more: writing the
    ledger entry never ends the run, and once [load] has returned the
    accepted row count [n], the run returns [n] whatever the store answers
    to the ledger statement; if the answer is an error, the last two events
    of the run are the ledger statement and the log line for its error. *)
Theorem ledger_best_effort (conn filename date : string) (s : Store)
  (n errors : Z) (time : Time) :
  result_of (load E conn filename date s) = Return (n, errors, time) ->
  let o := load E conn filename date s in
  let l := pool_Exec E (store_of o) IMPORTS_INSERT
             [VString "pwned-passwords-sha1"; VString (state_of errors);
              VTime time] in
  hibpEtl E conn filename date s
  = mkOutcome (fst l)
      (events_of o ++ report_events "pwned-passwords-sha1" errors time (snd l))
      (Return n)
  /\ (forall e, snd l = Some e ->
        exists evs,
          events_of (hibpEtl E conn filename date s)
          = evs ++ [ledger_entry "pwned-passwords-sha1" errors time (Some e);
                    Log "Error writing to imports: %v" [VError e]])
  /\ (forall name state t s',
        result_of (dbLogImportData E name state t s') = Return tt).
Proof.
  intros H o l. subst o l.
  destruct (load E conn filename date s) as [sl evl rl] eqn:Hl.
  cbn in H. subst rl. cbn [store_of events_of].
  pose proof (CountMode_hibpEtl_run E _ _ _ _ _ _ _ _ _ Hl) as Hrun.
  cbv zeta in Hrun. split; [exact Hrun|]. split.
  - intros e He. rewrite Hrun. cbn [events_of]. rewrite He.
    unfold report_events.
    exists (evl ++ if errors >? 0
                   then [Log "%d Error(s) found" [VInt errors]] else []).
    rewrite <- app_assoc. reflexivity.
  - intros name state t s'. rewrite dbLogImportData_run. reflexivity.
Qed.

End Ledger.

Lemma ledger_once_witness :
  exists pre rows err post errors time lerr,
    events_of (hibpEtl (serving ["ab:1"; "oops"] accepting) "db" "pwned.txt"
                 "November 19 2020" tt)
    = pre ++ Exec (batch_query rows) (batch_args rows) err :: post
    /\ filter is_ledger pre = []
    /\ filter is_exec post
       = [Exec IMPORTS_INSERT
            [VString "pwned-passwords-sha1";
             VString (if errors >? 0 then "error" else "done");
             VTime time] lerr]
    /\ filter is_ledger
         (events_of (hibpEtl (serving ["ab:1"; "oops"] accepting) "db"
                       "pwned.txt" "November 19 2020" tt))
       = [Exec IMPORTS_INSERT
            [VString "pwned-passwords-sha1";
             VString (if errors >? 0 then "error" else "done");
             VTime time] lerr]
    /\ result_of (load (serving ["ab:1"; "oops"] accepting) "db" "pwned.txt"
                    "November 19 2020" tt)
       = Return (1, errors, time).
Proof.
  exact (ledger_once (serving ["ab:1"; "oops"] accepting) "db" "pwned.txt"
           "November 19 2020" tt 1 eq_refl).
Defined.

Lemma ledger_best_effort_witness :
  hibpEtl (serving ["ab:1"] ledger_down) "db" "pwned.txt"
    "November 19 2020" tt
  = mkOutcome tt
      [Log "File import time %s" [VTime (mkTime 2020 11 19)];
       Log "HIBP Processing file %s for %s"
         [VString "pwned.txt"; VString "November 19 2020"];
       Exec HIBP_TABLE_SCHEMA [] None;
       Exec IMPORT_TABLE_SCHEMA [] None;
       Exec "INSERT INTO hibp (hibp_id, count) VALUES ($1, $2) ON CONFLICT (hibp_id) DO UPDATE SET count = EXCLUDED.count"
         [VString "ab"; VInt 1] None;
       Exec IMPORTS_INSERT
         [VString "pwned-passwords-sha1"; VString "done";
          VTime (mkTime 2020 11 19)] (Some "permission denied");
       Log "Error writing to imports: %v" [VError "permission denied"]]
      (Return 1).
Proof.
  exact (proj1
    (ledger_best_effort (serving ["ab:1"] ledger_down) "db" "pwned.txt"
       "November 19 2020" tt 1 0 (mkTime 2020 11 19) eq_refl)).
Defined.

End CountMode_ledger.

(** ** The scanning loop, whatever the rows *)

Lemma mod_succ (c B : Z) :
  0 < B ->
  (c + 1) mod B = if c mod B + 1 =? B then 0 else c mod B + 1.
Proof.
  intros HB. pose proof (Z.mod_pos_bound c B HB) as Hr.
  rewrite <- Z.add_mod_idemp_l by lia.
  destruct (c mod B + 1 =? B) eqn:He.
  - apply Z.eqb_eq in He. rewrite He. apply Z.mod_same. lia.
  - apply Z.eqb_neq in He. apply Z.mod_small. lia.
Qed.

Section Loop_facts.

Context {Store Row : Type}.
Variable B : Z.
Variable body : string -> Loop Row -> M Store (Loop Row).
Variable parse : string -> option Row.
Variable query : list Row -> string.
Variable args : list Row -> list Value.
Variable exec : Store -> string -> list Value -> Store * option error.
Variable batch_events : list Row -> option error -> list Event.

Hypothesis B_pos : 0 < B.

Hypothesis batch_events_exec : forall rows err,
  filter is_exec (batch_events rows err) = [Exec (query rows) (args rows) err].

Hypothesis body_reject : forall line st s,
  parse line = None ->
  body line st s
  = mkOutcome s []
      (Return (mkLoop (count st) (wrap_int (errors st + 1)) (rowData st))).

Hypothesis body_keep : forall line row st s,
  parse line = Some row ->
  Z.rem (wrap_int (count st + 1)) B <> 0 ->
  body line st s
  = mkOutcome s []
      (Return (mkLoop (wrap_int (count st + 1)) (errors st)
                 (rowData st ++ [row]))).

Hypothesis body_flush : forall line row st s,
  parse line = Some row ->
  Z.rem (wrap_int (count st + 1)) B = 0 ->
  body line st s
  = mkOutcome
      (fst (exec s (query (rowData st ++ [row])) (args (rowData st ++ [row]))))
      (Log "processing %d..." [VInt (wrap_int (count st + 1))]
         :: batch_events (rowData st ++ [row])
              (snd (exec s (query (rowData st ++ [row]))
                      (args (rowData st ++ [row])))))
      (Return (mkLoop (wrap_int (count st + 1))
                 (wrap_int (errors st + batch_errors
                    (snd (exec s (query (rowData st ++ [row]))
                            (args (rowData st ++ [row]))))))
                 [])).

Lemma failures_cons (b : Batch Row) (bs : list (Batch Row)) :
  failures (b :: bs) = batch_errors (snd b) + failures bs.
Proof.
  unfold failures. cbn [filter]. destruct (snd b); cbn [batch_errors List.length];
    lia.
Qed.

Lemma failures_range (bs : list (Batch Row)) :
  0 <= failures bs <= Z.of_nat (List.length bs).
Proof.
  unfold failures.
  pose proof (filter_length_le
                (fun b : Batch Row =>
                   match snd b with Some _ => true | None => false end) bs).
  lia.
Qed.

(** The loop never stops early; it counts every accepted line in [count]
    and every rejected line and refused batch in [errors]; it writes the
    accepted rows in full batches, in the order of the input, and keeps
    the rest in the buffer. *)
Lemma scan_summary (lines : list string) :
  forall (st : Loop Row) (s : Store),
    0 <= count st ->
    count st + Z.of_nat (List.length lines) <= int_max ->
    0 <= errors st ->
    errors st + Z.of_nat (List.length lines) <= int_max ->
    Z.of_nat (List.length (rowData st)) = count st mod B ->
    exists (st' : Loop Row) (s' : Store) (evs : list Event)
           (batches : list (Batch Row)),
      scan body lines st s = mkOutcome s' evs (Return st')
      /\ count st' = count st + Z.of_nat (List.length (rows_of parse lines))
      /\ errors st' = errors st + rejected parse lines + failures batches
      /\ filter is_exec evs = map (write_event query args) batches
      /\ Forall (fun b => Z.of_nat (List.length (fst b)) = B) batches
      /\ List.concat (map fst batches) ++ rowData st'
         = rowData st ++ rows_of parse lines
      /\ Z.of_nat (List.length (rowData st')) = count st' mod B
      /\ Z.of_nat (List.length batches)
         <= Z.of_nat (List.length (rows_of parse lines)).
Proof.
  unfold int_max.
  induction lines as [|line lines IH]; intros st s Hc Hcm He Hem Hlen.
  - exists st, s, [], []. cbn [scan rows_of flat_map List.length].
    unfold rejected, failures. cbn.
    rewrite !Z.add_0_r, app_nil_r.
    repeat split; try reflexivity; try assumption; try constructor.
  - cbn [List.length] in Hcm, Hem. rewrite Nat2Z.inj_succ in Hcm, Hem.
    assert (Hw : wrap_int (count st + 1) = count st + 1)
      by (apply wrap_int_small; unfold int_min, int_max; lia).
    assert (Hrem : Z.rem (count st + 1) B = (count st + 1) mod B)
      by (apply Z.rem_mod_nonneg; lia).
    pose proof (mod_succ (count st) B B_pos) as Hms.
    pose proof (Z.mod_pos_bound (count st) B B_pos) as Hr.
    cbn [scan]. destruct (parse line) as [row|] eqn:Hp.
    + destruct (Z.eq_dec (Z.rem (wrap_int (count st + 1)) B) 0) as [Hz|Hz].
      * (* the row fills the batch *)
        rewrite (bind_Return _ _ _ _ _ _ (body_flush line row st s Hp Hz)).
        set (r := exec s _ _). rewrite Hw in *.
        rewrite Hrem in Hz. rewrite Hz in Hms.
        destruct (count st mod B + 1 =? B) eqn:Hfull;
          [apply Z.eqb_eq in Hfull | lia].
        assert (Hbe : 0 <= batch_errors (snd r) <= 1)
          by (destruct (snd r); cbn; lia).
        assert (Hwe : wrap_int (errors st + batch_errors (snd r))
                      = errors st + batch_errors (snd r))
          by (apply wrap_int_small; unfold int_min, int_max; lia).
        rewrite Hwe.
        destruct (IH (mkLoop (count st + 1)
                        (errors st + batch_errors (snd r)) []) (fst r))
          as (st' & s' & evs & batches & Hs & Hc' & He' & Hx & Hf & Hcat & Hl & Hn);
          cbn [count errors rowData List.length]; try lia.
        cbn [count errors rowData] in Hc', He', Hcat.
        exists st', s',
          ((Log "processing %d..." [VInt (count st + 1)]
              :: batch_events (rowData st ++ [row]) (snd r)) ++ evs),
          ((rowData st ++ [row], snd r) :: batches).
        rewrite Hs. unfold prepend. cbn [store_of events_of result_of].
        cbn [rows_of flat_map]. rewrite Hp. fold (rows_of parse lines).
        cbn [app List.length]. rewrite Nat2Z.inj_succ.
        split; [reflexivity|]. split; [lia|]. split.
        { rewrite failures_cons. cbn [snd]. unfold rejected in *.
          cbn [rows_of flat_map List.length]. rewrite Hp.
          fold (rows_of parse lines). cbn [app List.length].
          rewrite !Nat2Z.inj_succ. lia. }
        split.
        { cbn [filter is_exec]. rewrite filter_app, batch_events_exec, Hx.
          reflexivity. }
        split.
        { constructor; [|exact Hf]. cbn [fst].
          rewrite length_app. cbn [List.length]. lia. }
        split.
        { cbn [map List.concat fst]. rewrite <- !app_assoc. f_equal.
          cbn [app]. rewrite Hcat. reflexivity. }
        split; [exact Hl|]. cbn [List.length]. lia.
      * (* the row stays in the buffer *)
        rewrite (bind_Return _ _ _ _ _ _ (body_keep line row st s Hp Hz)).
        rewrite Hw in *. rewrite Hrem in Hz.
        destruct (count st mod B + 1 =? B) eqn:Hfull; [lia|].
        apply Z.eqb_neq in Hfull.
        destruct (IH (mkLoop (count st + 1) (errors st) (rowData st ++ [row])) s)
          as (st' & s' & evs & batches & Hs & Hc' & He' & Hx & Hf & Hcat & Hl & Hn);
          cbn [count errors rowData]; try lia.
        { rewrite length_app. cbn [List.length]. lia. }
        cbn [count errors rowData] in Hc', He', Hcat.
        exists st', s', evs, batches.
        rewrite Hs, prepend_nil.
        cbn [rows_of flat_map]. rewrite Hp. fold (rows_of parse lines).
        cbn [app List.length]. rewrite Nat2Z.inj_succ.
        split; [reflexivity|]. split; [lia|]. split.
        { unfold rejected in *. cbn [rows_of flat_map List.length].
          rewrite Hp. fold (rows_of parse lines). cbn [app List.length].
          rewrite !Nat2Z.inj_succ. lia. }
        split; [exact Hx|]. split; [exact Hf|]. split.
        { rewrite Hcat, <- app_assoc. reflexivity. }
        split; [exact Hl|]. lia.
    + (* the line is rejected *)
      rewrite (bind_Return _ _ _ _ _ _ (body_reject line st s Hp)).
      assert (Hwe : wrap_int (errors st + 1) = errors st + 1)
        by (apply wrap_int_small; unfold int_min, int_max; lia).
      rewrite Hwe.
      destruct (IH (mkLoop (count st) (errors st + 1) (rowData st)) s)
        as (st' & s' & evs & batches & Hs & Hc' & He' & Hx & Hf & Hcat & Hl & Hn);
        cbn [count errors rowData]; try lia.
      cbn [count errors rowData] in Hc', He', Hcat.
      exists st', s', evs, batches.
      rewrite Hs, prepend_nil.
      cbn [rows_of flat_map]. rewrite Hp. fold (rows_of parse lines).
      cbn [app].
      split; [reflexivity|]. split; [exact Hc'|]. split.
      { unfold rejected in *. cbn [rows_of flat_map List.length].
        rewrite Hp. fold (rows_of parse lines). cbn [app].
        rewrite !Nat2Z.inj_succ. lia. }
      split; [exact Hx|]. split; [exact Hf|]. split; [exact Hcat|].
      split; [exact Hl|exact Hn].
Qed.

End Loop_facts.

Lemma filter_refines {A : Type} (P Q : A -> bool) (l : list A) :
  (forall x, P x = true -> Q x = true) ->
  filter P (filter Q l) = filter P l.
Proof.
  intros H. induction l as [|x l IH]; [reflexivity|].
  cbn [filter]. destruct (Q x) eqn:Hq; cbn [filter].
  - rewrite IH. reflexivity.
  - destruct (P x) eqn:Hp; [|exact IH].
    rewrite (H x Hp) in Hq. discriminate.
Qed.

Lemma is_ledger_exec (ev : Event) : is_ledger ev = true -> is_exec ev = true.
Proof. destruct ev; [discriminate | reflexivity]. Qed.

Lemma is_batch_write_exec (ev : Event) :
  is_batch_write ev = true -> is_exec ev = true.
Proof. destruct ev; [discriminate | reflexivity]. Qed.

(** ** Count mode: whole runs *)

Module CountMode_summary.
Import CountMode CountMode_facts.

Section Summary.

Context {Store : Type} (E : Env Store).

Lemma batch_events_exec (rows : list hibpData) (err : option error) :
  filter is_exec (batch_events rows err)
  = [Exec (batch_query rows) (batch_args rows) err].
Proof. destruct err; reflexivity. Qed.

Lemma scan_line_reject (line : string) (st : Loop hibpData) (s : Store) :
  parse E line = None ->
  scan_line E line st s
  = mkOutcome s []
      (Return (mkLoop (count st) (wrap_int (errors st + 1)) (rowData st))).
Proof. intros H. rewrite scan_line_parse, H. reflexivity. Qed.

Lemma scan_line_keep (line : string) (row : hibpData)
  (st : Loop hibpData) (s : Store) :
  parse E line = Some row ->
  Z.rem (wrap_int (count st + 1)) BATCH_SIZE <> 0 ->
  scan_line E line st s
  = mkOutcome s []
      (Return (mkLoop (wrap_int (count st + 1)) (errors st)
                 (rowData st ++ [row]))).
Proof. intros H Hc. rewrite scan_line_parse, H. apply accept_keep, Hc. Qed.

Lemma scan_line_flush (line : string) (row : hibpData)
  (st : Loop hibpData) (s : Store) :
  parse E line = Some row ->
  Z.rem (wrap_int (count st + 1)) BATCH_SIZE = 0 ->
  scan_line E line st s
  = mkOutcome
      (fst (pool_Exec E s (batch_query (rowData st ++ [row]))
              (batch_args (rowData st ++ [row]))))
      (Log "processing %d..." [VInt (wrap_int (count st + 1))]
         :: batch_events (rowData st ++ [row])
              (snd (pool_Exec E s (batch_query (rowData st ++ [row]))
                      (batch_args (rowData st ++ [row])))))
      (Return (mkLoop (wrap_int (count st + 1))
                 (wrap_int (errors st + batch_errors
                    (snd (pool_Exec E s (batch_query (rowData st ++ [row]))
                            (batch_args (rowData st ++ [row]))))))
                 [])).
Proof. intros H Hc. rewrite scan_line_parse, H. apply accept_flush, Hc. Qed.

(** The whole run, once the start-up has gone through and the file reads
    without error. *)
Lemma run_summary (conn filename date : string) (s s1 : Store)
  (evs : list Event) (time : Time) (lines : list string) :
  setup E HIBP_TABLE_SCHEMA conn filename date s
  = mkOutcome s1 evs (Return (time, mkFile lines None)) ->
  Z.of_nat (List.length lines) < int_max ->
  exists (full : list (Batch hibpData)) (last : Batch hibpData)
         (lerr : option error),
    result_of (hibpEtl E conn filename date s)
    = Return (Z.of_nat (List.length (rows_of (parse E) lines)))
    /\ filter is_exec (events_of (hibpEtl E conn filename date s))
       = filter is_exec evs
           ++ map (write_event batch_query batch_args) (full ++ [last])
           ++ [ledger_entry "pwned-passwords-sha1"
                 (rejected (parse E) lines + failures (full ++ [last]))
                 time lerr]
    /\ Forall (fun b => Z.of_nat (List.length (fst b)) = BATCH_SIZE) full
    /\ List.concat (map fst (full ++ [last])) = rows_of (parse E) lines
    /\ Z.of_nat (List.length (fst last))
       = Z.of_nat (List.length (rows_of (parse E) lines)) mod BATCH_SIZE.
Proof.
  intros Hsetup Hlen. unfold int_max in Hlen.
  destruct (scan_summary BATCH_SIZE (scan_line E) (parse E)
              batch_query batch_args (pool_Exec E) batch_events
              ltac:(reflexivity) batch_events_exec
              scan_line_reject scan_line_keep scan_line_flush
              lines (mkLoop 0 0 []) s1)
    as (st & s2 & sevs & full & Hscan & Hc & He & Hx & Hf & Hcat & Hl & Hn);
    cbn [count errors rowData List.length]; unfold int_max; try lia.
  { reflexivity. }
  cbn [count errors rowData app] in Hc, He, Hcat.
  rewrite Z.add_0_l in Hc, He.
  set (rows := rows_of (parse E) lines) in *.
  assert (Hrows : Z.of_nat (List.length rows) <= Z.of_nat (List.length lines)).
  { unfold rejected in He. fold rows in He.
    pose proof (failures_range full). unfold rows, rows_of.
    clear. induction lines as [|l ls IH]; [cbn; lia|].
    cbn [flat_map]. rewrite length_app. cbn [List.length].
    destruct (parse E l); cbn [List.length]; lia. }
  set (r := pool_Exec E s2 (batch_query (rowData st)) (batch_args (rowData st))).
  pose proof (failures_range full) as Hfr.
  assert (Hbe : 0 <= batch_errors (snd r) <= 1) by (destruct (snd r); cbn; lia).
  assert (Hload :
    load E conn filename date s
    = mkOutcome (fst r) (evs ++ sevs ++ batch_events (rowData st) (snd r))
        (Return (Z.of_nat (List.length rows),
                 rejected (parse E) lines
                 + failures (full ++ [(rowData st, snd r)]),
                 time))).
  { rewrite (CountMode_load_run E _ _ _ _ _ _ _ _ Hsetup). cbn [tokens].
    rewrite (bind_Return _ _ _ _ _ _ Hscan).
    unfold check_scan. cbn [scan_err]. rewrite bind_ret.
    rewrite (bind_Return _ _ _ _ _ _ (hibpProcessRowDataBatch_run E _ _)).
    fold r. unfold prepend, ret. cbn [store_of events_of result_of].
    rewrite !app_nil_r.
    assert (Herr : wrap_int (errors st + batch_errors (snd r))
                   = rejected (parse E) lines
                     + failures (full ++ [(rowData st, snd r)])).
    { rewrite He. unfold failures. rewrite filter_app, length_app.
      cbn [filter snd]. unfold failures in Hfr. unfold rejected in *.
      fold rows in He |- *.
      destruct (snd r); cbn [batch_errors List.length] in *;
        (rewrite wrap_int_small; [lia | unfold int_min, int_max; lia]). }
    rewrite Herr, Hc. reflexivity. }
  rewrite (CountMode_hibpEtl_run E _ _ _ _ _ _ _ _ _ Hload). cbv zeta.
  cbn [events_of result_of].
  exists full, (rowData st, snd r),
    (snd (pool_Exec E (fst r) IMPORTS_INSERT
            [VString "pwned-passwords-sha1";
             VString (state_of (rejected (parse E) lines
                                + failures (full ++ [(rowData st, snd r)])));
             VTime time])).
  split; [reflexivity|]. split.
  { rewrite !filter_app, Hx, batch_events_exec.
    rewrite map_app. cbn [map]. unfold write_event at 2. cbn [fst snd].
    rewrite <- !app_assoc. do 3 f_equal.
    unfold report_events. rewrite filter_app.
    destruct (_ >? 0); destruct (snd (pool_Exec E (fst r) _ _)); reflexivity. }
  split; [exact Hf|]. split.
  { rewrite map_app, concat_app. cbn [map List.concat fst].
    rewrite app_nil_r. exact Hcat. }
  cbn [fst]. rewrite Hl, Hc. reflexivity.
Qed.

Lemma writes_not_ledger (ws : list (Batch hibpData)) :
  filter is_ledger (map (write_event batch_query batch_args) ws) = [].
Proof. induction ws as [|w ws IH]; [reflexivity | exact IH]. Qed.

Lemma writes_are_batch_writes (ws : list (Batch hibpData)) :
  filter is_batch_write (map (write_event batch_query batch_args) ws)
  = map (write_event batch_query batch_args) ws.
Proof.
  induction ws as [|w ws IH]; [reflexivity|].
  cbn [map]. unfold write_event at 1. cbn [filter is_batch_write].
  change (String.prefix "INSERT INTO hibp " (batch_query (fst w))) with true.
  cbv iota. rewrite IH. reflexivity.
Qed.

Lemma run_events (conn filename date : string) (s s1 : Store)
  (evs : list Event) (r : Result (Time * File))
  (ws : list (Batch hibpData)) (ledger : Event) (all : list Event) :
  setup E HIBP_TABLE_SCHEMA conn filename date s = mkOutcome s1 evs r ->
  is_ledger ledger = true ->
  filter is_exec all
  = filter is_exec evs
      ++ map (write_event batch_query batch_args) ws ++ [ledger] ->
  filter is_ledger all = [ledger]
  /\ filter is_batch_write all
     = map (write_event batch_query batch_args) ws.
Proof.
  intros Hsetup Hledger Hx.
  pose proof (setup_quiet E is_ledger HIBP_TABLE_SCHEMA conn filename date
                (fun _ _ => eq_refl) (fun _ => eq_refl) (fun _ => eq_refl) s)
    as Hq1.
  pose proof (setup_quiet E is_batch_write HIBP_TABLE_SCHEMA conn filename date
                (fun _ _ => eq_refl) (fun _ => eq_refl) (fun _ => eq_refl) s)
    as Hq2.
  rewrite Hsetup in Hq1, Hq2. cbn [events_of] in Hq1, Hq2.
  split.
  - rewrite <- (filter_refines is_ledger is_exec all is_ledger_exec), Hx.
    rewrite !filter_app, (filter_refines _ _ _ is_ledger_exec), Hq1.
    rewrite writes_not_ledger. cbn [filter app]. rewrite Hledger. reflexivity.
  - rewrite <- (filter_refines is_batch_write is_exec all is_batch_write_exec).
    rewrite Hx, !filter_app, (filter_refines _ _ _ is_batch_write_exec), Hq2.
    rewrite writes_are_batch_writes. cbn [filter app].
    destruct ledger as [f a|sql a e]; [discriminate|].
    cbn [is_ledger] in Hledger. apply String.eqb_eq in Hledger. subst sql.
    cbn. rewrite app_nil_r. reflexivity.
Qed.

(** X1.  A count-mode run whose start-up goes through and whose file reads
    without error returns the number of accepted lines, whether or not
    the store took their batches; its one ledger entry carries the state
    of an error count that is the number of rejected lines plus the number
    of refused batch writes. *)
Theorem run_accounts (conn filename date : string) (s s1 : Store)
  (evs : list Event) (time : Time) (lines : list string) :
  setup E HIBP_TABLE_SCHEMA conn filename date s
  = mkOutcome s1 evs (Return (time, mkFile lines None)) ->
  Z.of_nat (List.length lines) < int_max ->
  exists (writes : list (Batch hibpData)) (lerr : option error),
    result_of (hibpEtl E conn filename date s)
    = Return (Z.of_nat (List.length (rows_of (parse E) lines)))
    /\ filter is_batch_write (events_of (hibpEtl E conn filename date s))
       = map (write_event batch_query batch_args) writes
    /\ filter is_ledger (events_of (hibpEtl E conn filename date s))
       = [ledger_entry "pwned-passwords-sha1"
            (rejected (parse E) lines + failures writes) time lerr].
Proof.
  intros Hsetup Hlen.
  destruct (run_summary conn filename date s s1 evs time lines Hsetup Hlen)
    as (full & last & lerr & Hr & Hx & _).
  exists (full ++ [last]), lerr.
  destruct (run_events conn filename date s s1 evs _ (full ++ [last])
              (ledger_entry "pwned-passwords-sha1"
                 (rejected (parse E) lines + failures (full ++ [last]))
                 time lerr) _ Hsetup eq_refl Hx)
    as [Hl Hb].
  split; [exact Hr|]. split; [exact Hb | exact Hl].
Qed.

(** X2.  A count-mode run whose start-up goes through and whose file reads
    without error writes every accepted row exactly once, in the order of
    the input: the batch writes but the last hold [BATCH_SIZE] rows each,
    and the last one, made after the end of the input, holds the
    remaining rows, none when their number is a multiple of
    [BATCH_SIZE]. *)
Theorem run_batches (conn filename date : string) (s s1 : Store)
  (evs : list Event) (time : Time) (lines : list string) :
  setup E HIBP_TABLE_SCHEMA conn filename date s
  = mkOutcome s1 evs (Return (time, mkFile lines None)) ->
  Z.of_nat (List.length lines) < int_max ->
  exists (full : list (Batch hibpData)) (last : Batch hibpData),
    filter is_batch_write (events_of (hibpEtl E conn filename date s))
    = map (write_event batch_query batch_args) (full ++ [last])
    /\ Forall (fun b => Z.of_nat (List.length (fst b)) = BATCH_SIZE) full
    /\ List.concat (map fst (full ++ [last])) = rows_of (parse E) lines
    /\ Z.of_nat (List.length (fst last))
       = Z.of_nat (List.length (rows_of (parse E) lines)) mod BATCH_SIZE.
Proof.
  intros Hsetup Hlen.
  destruct (run_summary conn filename date s s1 evs time lines Hsetup Hlen)
    as (full & last & lerr & Hr & Hx & Hf & Hcat & Hl).
  exists full, last.
  destruct (run_events conn filename date s s1 evs _ (full ++ [last])
              (ledger_entry "pwned-passwords-sha1"
                 (rejected (parse E) lines + failures (full ++ [last]))
                 time lerr) _ Hsetup eq_refl Hx)
    as [_ Hb].
  split; [exact Hb|]. split; [exact Hf|]. split; [exact Hcat | exact Hl].
Qed.

End Summary.

Lemma run_accounts_witness :
  exists (writes : list (Batch hibpData)) (lerr : option error),
    result_of (hibpEtl (serving ["ab:1"; "oops"; "cd:2"] unreachable_rows)
                 "db" "pwned.txt" "November 19 2020" tt)
    = Return 2
    /\ filter is_batch_write
         (events_of (hibpEtl (serving ["ab:1"; "oops"; "cd:2"] unreachable_rows)
                       "db" "pwned.txt" "November 19 2020" tt))
       = map (write_event batch_query batch_args) writes
    /\ filter is_ledger
         (events_of (hibpEtl (serving ["ab:1"; "oops"; "cd:2"] unreachable_rows)
                       "db" "pwned.txt" "November 19 2020" tt))
       = [ledger_entry "pwned-passwords-sha1"
            (rejected (parse (serving ["ab:1"; "oops"; "cd:2"] unreachable_rows))
               ["ab:1"; "oops"; "cd:2"] + failures writes)
            (mkTime 2020 11 19) lerr].
Proof.
  exact (run_accounts (serving ["ab:1"; "oops"; "cd:2"] unreachable_rows)
           "db" "pwned.txt" "November 19 2020" tt tt
           [Log "File import time %s" [VTime (mkTime 2020 11 19)];
            Log "HIBP Processing file %s for %s"
              [VString "pwned.txt"; VString "November 19 2020"];
            Exec HIBP_TABLE_SCHEMA [] None;
            Exec IMPORT_TABLE_SCHEMA [] None]
           (mkTime 2020 11 19) ["ab:1"; "oops"; "cd:2"] eq_refl eq_refl).
Defined.

Lemma run_batches_witness :
  exists (full : list (Batch hibpData)) (last : Batch hibpData),
    filter is_batch_write
      (events_of (hibpEtl (serving ["ab:1"; "oops"; "cd:2"] accepting)
                    "db" "pwned.txt" "November 19 2020" tt))
    = map (write_event batch_query batch_args) (full ++ [last])
    /\ Forall (fun b => Z.of_nat (List.length (fst b)) = BATCH_SIZE) full
    /\ List.concat (map fst (full ++ [last]))
       = [mkData "ab" 1; mkData "cd" 2]
    /\ Z.of_nat (List.length (fst last)) = 2 mod BATCH_SIZE.
Proof.
  exact (run_batches (serving ["ab:1"; "oops"; "cd:2"] accepting)
           "db" "pwned.txt" "November 19 2020" tt tt
           [Log "File import time %s" [VTime (mkTime 2020 11 19)];
            Log "HIBP Processing file %s for %s"
              [VString "pwned.txt"; VString "November 19 2020"];
            Exec HIBP_TABLE_SCHEMA [] None;
            Exec IMPORT_TABLE_SCHEMA [] None]
           (mkTime 2020 11 19) ["ab:1"; "oops"; "cd:2"] eq_refl eq_refl).
Defined.

End CountMode_summary.

(** ** The re-encoding loader: whole runs *)

Module Reencode_summary.
Import Reencode Reencode_line.

Section Summary.

Context {Store : Type} (E : Env Store).

Lemma reencode_batch_events_exec (rows : list string) (err : option error) :
  filter is_exec (batch_events rows err)
  = [Exec (batch_query rows) (batch_args rows) err].
Proof. destruct err; reflexivity. Qed.

Lemma reencode_scan_line_reject (line : string) (st : Loop string) (s : Store) :
  parse line = None ->
  scan_line E line st s
  = mkOutcome s []
      (Return (mkLoop (count st) (wrap_int (errors st + 1)) (rowData st))).
Proof. intros H. rewrite reencode_scan_line_parse, H. reflexivity. Qed.

Lemma reencode_scan_line_keep (line : string) (row : string)
  (st : Loop string) (s : Store) :
  parse line = Some row ->
  Z.rem (wrap_int (count st + 1)) BATCH_SIZE <> 0 ->
  scan_line E line st s
  = mkOutcome s []
      (Return (mkLoop (wrap_int (count st + 1)) (errors st)
                 (rowData st ++ [row]))).
Proof. intros H Hc. rewrite reencode_scan_line_parse, H. apply reencode_accept_keep, Hc. Qed.

Lemma reencode_scan_line_flush (line : string) (row : string)
  (st : Loop string) (s : Store) :
  parse line = Some row ->
  Z.rem (wrap_int (count st + 1)) BATCH_SIZE = 0 ->
  scan_line E line st s
  = mkOutcome
      (fst (pool_Exec E s (batch_query (rowData st ++ [row]))
              (batch_args (rowData st ++ [row]))))
      (Log "processing %d..." [VInt (wrap_int (count st + 1))]
         :: batch_events (rowData st ++ [row])
              (snd (pool_Exec E s (batch_query (rowData st ++ [row]))
                      (batch_args (rowData st ++ [row])))))
      (Return (mkLoop (wrap_int (count st + 1))
                 (wrap_int (errors st + batch_errors
                    (snd (pool_Exec E s (batch_query (rowData st ++ [row]))
                            (batch_args (rowData st ++ [row]))))))
                 [])).
Proof. intros H Hc. rewrite reencode_scan_line_parse, H. apply reencode_accept_flush, Hc. Qed.

(** The whole run, once the start-up has gone through and the file reads
    without error. *)
Lemma reencode_run_summary (conn filename date : string) (s s1 : Store)
  (evs : list Event) (time : Time) (lines : list string) :
  setup E HIBP_TABLE_SCHEMA conn filename date s
  = mkOutcome s1 evs (Return (time, mkFile lines None)) ->
  Z.of_nat (List.length lines) < int_max ->
  exists (full : list (Batch string)) (last : Batch string)
         (lerr : option error),
    result_of (hibpEtl E conn filename date s)
    = Return (Z.of_nat (List.length (rows_of (parse) lines)))
    /\ filter is_exec (events_of (hibpEtl E conn filename date s))
       = filter is_exec evs
           ++ map (write_event batch_query batch_args) (full ++ [last])
           ++ [ledger_entry "pwned-passwords-sha1"
                 (rejected (parse) lines + failures (full ++ [last]))
                 time lerr]
    /\ Forall (fun b => Z.of_nat (List.length (fst b)) = BATCH_SIZE) full
    /\ List.concat (map fst (full ++ [last])) = rows_of (parse) lines
    /\ Z.of_nat (List.length (fst last))
       = Z.of_nat (List.length (rows_of (parse) lines)) mod BATCH_SIZE.
Proof.
  intros Hsetup Hlen. unfold int_max in Hlen.
  destruct (scan_summary BATCH_SIZE (scan_line E) (parse)
              batch_query batch_args (pool_Exec E) batch_events
              ltac:(reflexivity) reencode_batch_events_exec
              reencode_scan_line_reject reencode_scan_line_keep reencode_scan_line_flush
              lines (mkLoop 0 0 []) s1)
    as (st & s2 & sevs & full & Hscan & Hc & He & Hx & Hf & Hcat & Hl & Hn);
    cbn [count errors rowData List.length]; unfold int_max; try lia.
  { reflexivity. }
  cbn [count errors rowData app] in Hc, He, Hcat.
  rewrite Z.add_0_l in Hc, He.
  set (rows := rows_of (parse) lines) in *.
  assert (Hrows : Z.of_nat (List.length rows) <= Z.of_nat (List.length lines)).
  { unfold rejected in He. fold rows in He.
    pose proof (failures_range full). unfold rows, rows_of.
    clear. induction lines as [|l ls IH]; [cbn; lia|].
    cbn [flat_map]. rewrite length_app. cbn [List.length].
    destruct (parse l); cbn [List.length]; lia. }
  set (r := pool_Exec E s2 (batch_query (rowData st)) (batch_args (rowData st))).
  pose proof (failures_range full) as Hfr.
  assert (Hbe : 0 <= batch_errors (snd r) <= 1) by (destruct (snd r); cbn; lia).
  assert (Hload :
    load E conn filename date s
    = mkOutcome (fst r) (evs ++ sevs ++ batch_events (rowData st) (snd r))
        (Return (Z.of_nat (List.length rows),
                 rejected (parse) lines
                 + failures (full ++ [(rowData st, snd r)]),
                 time))).
  { rewrite (Reencode_load_run E _ _ _ _ _ _ _ _ Hsetup). cbn [tokens].
    rewrite (bind_Return _ _ _ _ _ _ Hscan).
    unfold check_scan. cbn [scan_err]. rewrite bind_ret.
    rewrite (bind_Return _ _ _ _ _ _ (reencode_batch_run E _ _)).
    fold r. unfold prepend, ret. cbn [store_of events_of result_of].
    rewrite !app_nil_r.
    assert (Herr : wrap_int (errors st + batch_errors (snd r))
                   = rejected (parse) lines
                     + failures (full ++ [(rowData st, snd r)])).
    { rewrite He. unfold failures. rewrite filter_app, length_app.
      cbn [filter snd]. unfold failures in Hfr. unfold rejected in *.
      fold rows in He |- *.
      destruct (snd r); cbn [batch_errors List.length] in *;
        (rewrite wrap_int_small; [lia | unfold int_min, int_max; lia]). }
    rewrite Herr, Hc. reflexivity. }
  rewrite (Reencode_hibpEtl_run E _ _ _ _ _ _ _ _ _ Hload). cbv zeta.
  cbn [events_of result_of].
  exists full, (rowData st, snd r),
    (snd (pool_Exec E (fst r) IMPORTS_INSERT
            [VString "pwned-passwords-sha1";
             VString (state_of (rejected (parse) lines
                                + failures (full ++ [(rowData st, snd r)])));
             VTime time])).
  split; [reflexivity|]. split.
  { rewrite !filter_app, Hx, reencode_batch_events_exec.
    rewrite map_app. cbn [map]. unfold write_event at 2. cbn [fst snd].
    rewrite <- !app_assoc. do 3 f_equal.
    unfold report_events. rewrite filter_app.
    destruct (_ >? 0); destruct (snd (pool_Exec E (fst r) _ _)); reflexivity. }
  split; [exact Hf|]. split.
  { rewrite map_app, concat_app. cbn [map List.concat fst].
    rewrite app_nil_r. exact Hcat. }
  cbn [fst]. rewrite Hl, Hc. reflexivity.
Qed.

Lemma reencode_writes_not_ledger (ws : list (Batch string)) :
  filter is_ledger (map (write_event batch_query batch_args) ws) = [].
Proof. induction ws as [|w ws IH]; [reflexivity | exact IH]. Qed.

Lemma reencode_writes_are_batch_writes (ws : list (Batch string)) :
  filter is_batch_write (map (write_event batch_query batch_args) ws)
  = map (write_event batch_query batch_args) ws.
Proof.
  induction ws as [|w ws IH]; [reflexivity|].
  cbn [map]. unfold write_event at 1. cbn [filter is_batch_write].
  change (String.prefix "INSERT INTO hibp " (batch_query (fst w))) with true.
  cbv iota. rewrite IH. reflexivity.
Qed.

Lemma reencode_run_events (conn filename date : string) (s s1 : Store)
  (evs : list Event) (r : Result (Time * File))
  (ws : list (Batch string)) (ledger : Event) (all : list Event) :
  setup E HIBP_TABLE_SCHEMA conn filename date s = mkOutcome s1 evs r ->
  is_ledger ledger = true ->
  filter is_exec all
  = filter is_exec evs
      ++ map (write_event batch_query batch_args) ws ++ [ledger] ->
  filter is_ledger all = [ledger]
  /\ filter is_batch_write all
     = map (write_event batch_query batch_args) ws.
Proof.
  intros Hsetup Hledger Hx.
  pose proof (setup_quiet E is_ledger HIBP_TABLE_SCHEMA conn filename date
                (fun _ _ => eq_refl) (fun _ => eq_refl) (fun _ => eq_refl) s)
    as Hq1.
  pose proof (setup_quiet E is_batch_write HIBP_TABLE_SCHEMA conn filename date
                (fun _ _ => eq_refl) (fun _ => eq_refl) (fun _ => eq_refl) s)
    as Hq2.
  rewrite Hsetup in Hq1, Hq2. cbn [events_of] in Hq1, Hq2.
  split.
  - rewrite <- (filter_refines is_ledger is_exec all is_ledger_exec), Hx.
    rewrite !filter_app, (filter_refines _ _ _ is_ledger_exec), Hq1.
    rewrite reencode_writes_not_ledger. cbn [filter app]. rewrite Hledger. reflexivity.
  - rewrite <- (filter_refines is_batch_write is_exec all is_batch_write_exec).
    rewrite Hx, !filter_app, (filter_refines _ _ _ is_batch_write_exec), Hq2.
    rewrite reencode_writes_are_batch_writes. cbn [filter app].
    destruct ledger as [f a|sql a e]; [discriminate|].
    cbn [is_ledger] in Hledger. apply String.eqb_eq in Hledger. subst sql.
    cbn. rewrite app_nil_r. reflexivity.
Qed.

(** X3.  A re-encoding run whose start-up goes through and whose file reads
    without error returns the number of accepted lines, whether or not
    the store took their batches; its one ledger entry carries the state
    of an error count that is the number of rejected lines plus the number
    of refused batch writes. *)
Theorem reencode_run_accounts (conn filename date : string) (s s1 : Store)
  (evs : list Event) (time : Time) (lines : list string) :
  setup E HIBP_TABLE_SCHEMA conn filename date s
  = mkOutcome s1 evs (Return (time, mkFile lines None)) ->
  Z.of_nat (List.length lines) < int_max ->
  exists (writes : list (Batch string)) (lerr : option error),
    result_of (hibpEtl E conn filename date s)
    = Return (Z.of_nat (List.length (rows_of (parse) lines)))
    /\ filter is_batch_write (events_of (hibpEtl E conn filename date s))
       = map (write_event batch_query batch_args) writes
    /\ filter is_ledger (events_of (hibpEtl E conn filename date s))
       = [ledger_entry "pwned-passwords-sha1"
            (rejected (parse) lines + failures writes) time lerr].
Proof.
  intros Hsetup Hlen.
  destruct (reencode_run_summary conn filename date s s1 evs time lines Hsetup Hlen)
    as (full & last & lerr & Hr & Hx & _).
  exists (full ++ [last]), lerr.
  destruct (reencode_run_events conn filename date s s1 evs _ (full ++ [last])
              (ledger_entry "pwned-passwords-sha1"
                 (rejected (parse) lines + failures (full ++ [last]))
                 time lerr) _ Hsetup eq_refl Hx)
    as [Hl Hb].
  split; [exact Hr|]. split; [exact Hb | exact Hl].
Qed.

(** X4.  A re-encoding run whose start-up goes through and whose file reads
    without error writes every accepted row exactly once, in the order of
    the input: the batch writes but the last hold [BATCH_SIZE] rows each,
    and the last one, made after the end of the input, holds the
    remaining rows, none when their number is a multiple of
    [BATCH_SIZE]. *)
Theorem reencode_run_batches (conn filename date : string) (s s1 : Store)
  (evs : list Event) (time : Time) (lines : list string) :
  setup E HIBP_TABLE_SCHEMA conn filename date s
  = mkOutcome s1 evs (Return (time, mkFile lines None)) ->
  Z.of_nat (List.length lines) < int_max ->
  exists (full : list (Batch string)) (last : Batch string),
    filter is_batch_write (events_of (hibpEtl E conn filename date s))
    = map (write_event batch_query batch_args) (full ++ [last])
    /\ Forall (fun b => Z.of_nat (List.length (fst b)) = BATCH_SIZE) full
    /\ List.concat (map fst (full ++ [last])) = rows_of (parse) lines
    /\ Z.of_nat (List.length (fst last))
       = Z.of_nat (List.length (rows_of (parse) lines)) mod BATCH_SIZE.
Proof.
  intros Hsetup Hlen.
  destruct (reencode_run_summary conn filename date s s1 evs time lines Hsetup Hlen)
    as (full & last & lerr & Hr & Hx & Hf & Hcat & Hl).
  exists full, last.
  destruct (reencode_run_events conn filename date s s1 evs _ (full ++ [last])
              (ledger_entry "pwned-passwords-sha1"
                 (rejected (parse) lines + failures (full ++ [last]))
                 time lerr) _ Hsetup eq_refl Hx)
    as [_ Hb].
  split; [exact Hb|]. split; [exact Hf|]. split; [exact Hcat | exact Hl].
Qed.

End Summary.

Lemma reencode_run_accounts_witness :
  exists (writes : list (Batch string)) (lerr : option error),
    result_of (hibpEtl (serving ["ab:1"; "oops"; "CD:2"] unreachable_rows)
                 "db" "pwned.txt" "November 19 2020" tt)
    = Return 2
    /\ filter is_batch_write
         (events_of (hibpEtl (serving ["ab:1"; "oops"; "CD:2"] unreachable_rows)
                       "db" "pwned.txt" "November 19 2020" tt))
       = map (write_event batch_query batch_args) writes
    /\ filter is_ledger
         (events_of (hibpEtl (serving ["ab:1"; "oops"; "CD:2"] unreachable_rows)
                       "db" "pwned.txt" "November 19 2020" tt))
       = [ledger_entry "pwned-passwords-sha1"
            (rejected parse ["ab:1"; "oops"; "CD:2"] + failures writes)
            (mkTime 2020 11 19) lerr].
Proof.
  exact (reencode_run_accounts
           (serving ["ab:1"; "oops"; "CD:2"] unreachable_rows)
           "db" "pwned.txt" "November 19 2020" tt tt
           [Log "File import time %s" [VTime (mkTime 2020 11 19)];
            Log "HIBP Processing file %s for %s"
              [VString "pwned.txt"; VString "November 19 2020"];
            Exec HIBP_TABLE_SCHEMA [] None;
            Exec IMPORT_TABLE_SCHEMA [] None]
           (mkTime 2020 11 19) ["ab:1"; "oops"; "CD:2"] eq_refl eq_refl).
Defined.

Lemma reencode_run_batches_witness :
  exists (full : list (Batch string)) (last : Batch string),
    filter is_batch_write
      (events_of (hibpEtl (serving ["ab:1"; "oops"; "CD:2"] accepting)
                    "db" "pwned.txt" "November 19 2020" tt))
    = map (write_event batch_query batch_args) (full ++ [last])
    /\ Forall (fun b => Z.of_nat (List.length (fst b)) = BATCH_SIZE) full
    /\ List.concat (map fst (full ++ [last]))
       = rows_of parse ["ab:1"; "oops"; "CD:2"]
    /\ Z.of_nat (List.length (fst last)) = 2 mod BATCH_SIZE.
Proof.
  exact (reencode_run_batches (serving ["ab:1"; "oops"; "CD:2"] accepting)
           "db" "pwned.txt" "November 19 2020" tt tt
           [Log "File import time %s" [VTime (mkTime 2020 11 19)];
            Log "HIBP Processing file %s for %s"
              [VString "pwned.txt"; VString "November 19 2020"];
            Exec HIBP_TABLE_SCHEMA [] None;
            Exec IMPORT_TABLE_SCHEMA [] None]
           (mkTime 2020 11 19) ["ab:1"; "oops"; "CD:2"] eq_refl eq_refl).
Defined.

End Reencode_summary.

(** ** The password loader *)

Module Passwords_facts.
Import Passwords strings_facts.

Section Loader_facts.

Context {Store : Type} (E : Env Store).
Variable B : Z.
Variable schema : string.

Lemma passwords_batch_run (rows : list hibpPasswordData) (s : Store) :
  hibpPasswordProcessRowDataBatch E rows s
  = mkOutcome (fst (pool_Exec E s (batch_query rows) (batch_args rows)))
      (batch_events rows
         (snd (pool_Exec E s (batch_query rows) (batch_args rows))))
      (Return (batch_errors
         (snd (pool_Exec E s (batch_query rows) (batch_args rows))))).
Proof.
  unfold hibpPasswordProcessRowDataBatch, bind, dbPool_Exec.
  destruct (pool_Exec E s (batch_query rows) (batch_args rows)) as [s' [e|]];
    reflexivity.
Qed.

Lemma passwords_batch_events_exec (rows : list hibpPasswordData)
  (err : option error) :
  filter is_exec (batch_events rows err)
  = [Exec (batch_query rows) (batch_args rows) err].
Proof. destruct err; reflexivity. Qed.

Lemma passwords_scan_line_reject (line : string)
  (st : Loop hibpPasswordData) (s : Store) :
  parse E line = None ->
  scan_line E B line st s
  = mkOutcome s []
      (Return (mkLoop (count st) (wrap_int (errors st + 1)) (rowData st))).
Proof.
  unfold parse, scan_line.
  destruct (strings.SplitN line ":" 2) as [|d0 [|d1 [|d2 l]]];
    try reflexivity. discriminate.
Qed.

Lemma passwords_scan_line_keep (line : string) (row : hibpPasswordData)
  (st : Loop hibpPasswordData) (s : Store) :
  parse E line = Some row ->
  Z.rem (wrap_int (count st + 1)) B <> 0 ->
  scan_line E B line st s
  = mkOutcome s []
      (Return (mkLoop (wrap_int (count st + 1)) (errors st)
                 (rowData st ++ [row]))).
Proof.
  unfold parse, scan_line. intros Hp Hc.
  destruct (strings.SplitN line ":" 2) as [|d0 [|d1 [|d2 l]]];
    try discriminate.
  injection Hp as <-. cbv zeta. apply Z.eqb_neq in Hc. rewrite Hc.
  reflexivity.
Qed.

Lemma passwords_scan_line_flush (line : string) (row : hibpPasswordData)
  (st : Loop hibpPasswordData) (s : Store) :
  parse E line = Some row ->
  Z.rem (wrap_int (count st + 1)) B = 0 ->
  scan_line E B line st s
  = mkOutcome
      (fst (pool_Exec E s (batch_query (rowData st ++ [row]))
              (batch_args (rowData st ++ [row]))))
      (Log "processing %d..." [VInt (wrap_int (count st + 1))]
         :: batch_events (rowData st ++ [row])
              (snd (pool_Exec E s (batch_query (rowData st ++ [row]))
                      (batch_args (rowData st ++ [row])))))
      (Return (mkLoop (wrap_int (count st + 1))
                 (wrap_int (errors st + batch_errors
                    (snd (pool_Exec E s (batch_query (rowData st ++ [row]))
                            (batch_args (rowData st ++ [row]))))))
                 [])).
Proof.
  unfold parse, scan_line. intros Hp Hc.
  destruct (strings.SplitN line ":" 2) as [|d0 [|d1 [|d2 l]]];
    try discriminate.
  injection Hp as <-. cbv zeta. rewrite Hc. cbn [Z.eqb].
  rewrite bind_log.
  rewrite (bind_Return _ _ _ _ _ _ (passwords_batch_run _ s)).
  unfold prepend, ret. cbn. rewrite app_nil_r. reflexivity.
Qed.

(** X5.  A password line is cut at the first [:] only.  The password is the
    rest of the line as it stands, further [:] included, and may be empty;
    such a line is always accepted, with the lower-cased key as identifier.
    Only a line without [:] is counted as an error. *)
Theorem password_line (line : string) (st : Loop hibpPasswordData)
  (s : Store) :
  match strings.IndexByte line ":" with
  | None =>
      scan_line E B line st s
      = mkOutcome s []
          (Return (mkLoop (count st) (wrap_int (errors st + 1)) (rowData st)))
  | Some m =>
      let key := substring 0 m line in
      let rest := substring (m + 1) (String.length line - (m + 1)) line in
      let row := mkPassword (strings.ToLower (unicodeLower E) key) rest in
      let rows := rowData st ++ [row] in
      let c := wrap_int (count st + 1) in
      let r := pool_Exec E s (batch_query rows) (batch_args rows) in
      line = (key ++ String ":" rest)%string
      /\ scan_line E B line st s
         = if Z.rem c B =? 0 then
             mkOutcome (fst r)
               (Log "processing %d..." [VInt c] :: batch_events rows (snd r))
               (Return (mkLoop c (wrap_int (errors st + batch_errors (snd r)))
                          []))
           else mkOutcome s [] (Return (mkLoop c (errors st) rows))
  end.
Proof.
  destruct (IndexByte_shape line ":") as [H | (h & v & -> & H)].
  - rewrite H. apply passwords_scan_line_reject.
    unfold parse. rewrite SplitN_absent by exact H. reflexivity.
  - pose proof (SplitN_first h v ":" H) as Hs.
    assert (Hparse : parse E (h ++ String ":" v)
                     = Some (mkPassword (strings.ToLower (unicodeLower E) h) v))
      by (unfold parse; rewrite Hs; reflexivity).
    unfold strings.SplitN in Hs.
    rewrite IndexByte_append by exact H. cbv zeta.
    assert (Hh : substring 0 (String.length h) (h ++ String ":" v) = h)
      by apply substring_0_append.
    assert (Hv : substring (String.length h + 1)
                   (String.length (h ++ String ":" v) - (String.length h + 1))
                   (h ++ String ":" v) = v).
    { rewrite append_length in Hs |- *. cbn [String.length] in Hs |- *.
      replace (Nat.min 2 (String.length h + S (String.length v) + 1) - 1)%nat
        with 1%nat in Hs by lia.
      cbn [strings.genSplit] in Hs.
      rewrite IndexByte_append in Hs by exact H.
      rewrite append_length in Hs. cbn [String.length] in Hs.
      injection Hs as _ Hs. exact Hs. }
    rewrite Hh, Hv. split; [reflexivity|].
    destruct (Z.rem (wrap_int (count st + 1)) B =? 0) eqn:Hc.
    + apply passwords_scan_line_flush; [exact Hparse|].
      apply Z.eqb_eq. exact Hc.
    + apply passwords_scan_line_keep; [exact Hparse|].
      apply Z.eqb_neq. exact Hc.
Qed.

End Loader_facts.

End Passwords_facts.

Module Passwords_summary.
Import Passwords Passwords_facts.

Section Summary.

Context {Store : Type} (E : Env Store).
Variable B : Z.
Variable schema : string.
Hypothesis B_pos : 0 < B.

Lemma start_quiet (P : Event -> bool) (conn filename date : string) :
  (forall format args, P (Log format args) = false) ->
  (forall err, P (Exec schema [] err) = false) ->
  (forall err, P (Exec IMPORT_TABLE_SCHEMA [] err) = false) ->
  forall s, filter P (events_of (start E schema conn filename date s)) = [].
Proof.
  intros Hlog Hs1 Hs2. unfold start.
  assert (Hschema : forall sql,
             (forall err, P (Exec sql [] err) = false) ->
             forall s, filter P (events_of (dbSchemaCreate E sql s)) = []).
  { intros sql Hsql s. unfold dbSchemaCreate, bind, dbPool_Exec.
    destruct (pool_Exec E s sql []) as [s' [e|]]; cbn; rewrite Hsql;
      reflexivity. }
  apply filter_events_bind.
  { intros s. unfold stringToDate.
    destruct (String.eqb date EmptyString); [reflexivity|].
    destruct (time_Parse E DATE_FORMAT date); [reflexivity|].
    cbn. rewrite Hlog. reflexivity. }
  intros time. apply filter_events_bind.
  { intros s. cbn. rewrite Hlog. reflexivity. }
  intros _. apply filter_events_bind.
  { intros s. unfold connect.
    destruct (pgxpool_Connect E conn); reflexivity. }
  intros _. apply filter_events_bind; [apply Hschema, Hs1|].
  intros _. apply filter_events_bind; [apply Hschema, Hs2|].
  intros _. apply filter_events_bind.
  { intros s. unfold open. destruct (os_Open E filename); reflexivity. }
  reflexivity.
Qed.

Lemma passwords_load_run (conn filename date : string) (s s1 : Store)
  (evs : list Event) (time : Time) (f : File) :
  start E schema conn filename date s = mkOutcome s1 evs (Return (time, f)) ->
  load E B schema conn filename date s
  = prepend evs
      (bind (scan (scan_line E B) (tokens f) (mkLoop 0 0 []))
         (fun st =>
            bind (check_scan f)
              (fun _ =>
                 bind (hibpPasswordProcessRowDataBatch E (rowData st))
                   (fun e =>
                      ret (count st, wrap_int (errors st + e), time)))) s1).
Proof.
  intros H. unfold load. rewrite (bind_Return _ _ _ _ _ _ H). reflexivity.
Qed.

Lemma passwords_etl_run (conn filename date : string) (s s1 : Store)
  (evs : list Event) (n errors : Z) (time : Time) :
  load E B schema conn filename date s
  = mkOutcome s1 evs (Return (n, errors, time)) ->
  hibpPasswordsEtl E B schema conn filename date s
  = let r := pool_Exec E s1 IMPORTS_INSERT
               [VString "pwned-passwords-plain"; VString (state_of errors);
                VTime time] in
    mkOutcome (fst r)
      (evs ++ report_events "pwned-passwords-plain" errors time (snd r))
      (Return n).
Proof.
  intros H. unfold hibpPasswordsEtl.
  rewrite (bind_Return _ _ _ _ _ _ H).
  rewrite (bind_Return _ _ _ _ _ _ (report_run E _ errors time s1)).
  unfold prepend, ret. cbn. rewrite app_nil_r. reflexivity.
Qed.

Lemma passwords_run_summary (conn filename date : string) (s s1 : Store)
  (evs : list Event) (time : Time) (lines : list string) :
  start E schema conn filename date s
  = mkOutcome s1 evs (Return (time, mkFile lines None)) ->
  Z.of_nat (List.length lines) < int_max ->
  exists (full : list (Batch hibpPasswordData)) (last : Batch hibpPasswordData)
         (lerr : option error),
    result_of (hibpPasswordsEtl E B schema conn filename date s)
    = Return (Z.of_nat (List.length (rows_of (parse E) lines)))
    /\ filter is_exec
         (events_of (hibpPasswordsEtl E B schema conn filename date s))
       = filter is_exec evs
           ++ map (write_event batch_query batch_args) (full ++ [last])
           ++ [ledger_entry "pwned-passwords-plain"
                 (rejected (parse E) lines + failures (full ++ [last]))
                 time lerr]
    /\ Forall (fun b => Z.of_nat (List.length (fst b)) = B) full
    /\ List.concat (map fst (full ++ [last])) = rows_of (parse E) lines
    /\ Z.of_nat (List.length (fst last))
       = Z.of_nat (List.length (rows_of (parse E) lines)) mod B.
Proof.
  intros Hsetup Hlen. unfold int_max in Hlen.
  destruct (scan_summary B (scan_line E B) (parse E)
              batch_query batch_args (pool_Exec E) batch_events
              B_pos passwords_batch_events_exec
              (passwords_scan_line_reject E B)
              (passwords_scan_line_keep E B)
              (passwords_scan_line_flush E B)
              lines (mkLoop 0 0 []) s1)
    as (st & s2 & sevs & full & Hscan & Hc & He & Hx & Hf & Hcat & Hl & Hn);
    cbn [count errors rowData List.length]; unfold int_max; try lia.
  { rewrite Z.mod_0_l by lia. reflexivity. }
  cbn [count errors rowData app] in Hc, He, Hcat.
  rewrite Z.add_0_l in Hc, He.
  set (rows := rows_of (parse E) lines) in *.
  assert (Hrows : Z.of_nat (List.length rows) <= Z.of_nat (List.length lines)).
  { unfold rows, rows_of.
    clear. induction lines as [|l ls IH]; [cbn; lia|].
    cbn [flat_map]. rewrite length_app. cbn [List.length].
    destruct (parse E l); cbn [List.length]; lia. }
  set (r := pool_Exec E s2 (batch_query (rowData st)) (batch_args (rowData st))).
  pose proof (failures_range full) as Hfr.
  assert (Hbe : 0 <= batch_errors (snd r) <= 1) by (destruct (snd r); cbn; lia).
  assert (Hload :
    load E B schema conn filename date s
    = mkOutcome (fst r) (evs ++ sevs ++ batch_events (rowData st) (snd r))
        (Return (Z.of_nat (List.length rows),
                 rejected (parse E) lines
                 + failures (full ++ [(rowData st, snd r)]),
                 time))).
  { rewrite (passwords_load_run _ _ _ _ _ _ _ _ Hsetup). cbn [tokens].
    rewrite (bind_Return _ _ _ _ _ _ Hscan).
    unfold check_scan. cbn [scan_err]. rewrite bind_ret.
    rewrite (bind_Return _ _ _ _ _ _ (passwords_batch_run E _ _)).
    fold r. unfold prepend, ret. cbn [store_of events_of result_of].
    rewrite !app_nil_r.
    assert (Herr : wrap_int (errors st + batch_errors (snd r))
                   = rejected (parse E) lines
                     + failures (full ++ [(rowData st, snd r)])).
    { rewrite He. unfold failures. rewrite filter_app, length_app.
      cbn [filter snd]. unfold failures in Hfr. unfold rejected in *.
      fold rows in He |- *.
      destruct (snd r); cbn [batch_errors List.length] in *;
        (rewrite wrap_int_small; [lia | unfold int_min, int_max; lia]). }
    rewrite Herr, Hc. reflexivity. }
  rewrite (passwords_etl_run _ _ _ _ _ _ _ _ _ Hload). cbv zeta.
  cbn [events_of result_of].
  exists full, (rowData st, snd r),
    (snd (pool_Exec E (fst r) IMPORTS_INSERT
            [VString "pwned-passwords-plain";
             VString (state_of (rejected (parse E) lines
                                + failures (full ++ [(rowData st, snd r)])));
             VTime time])).
  split; [reflexivity|]. split.
  { rewrite !filter_app, Hx, passwords_batch_events_exec.
    rewrite map_app. cbn [map]. unfold write_event at 2. cbn [fst snd].
    rewrite <- !app_assoc. do 3 f_equal.
    unfold report_events. rewrite filter_app.
    destruct (_ >? 0); destruct (snd (pool_Exec E (fst r) _ _)); reflexivity. }
  split; [exact Hf|]. split.
  { rewrite map_app, concat_app. cbn [map List.concat fst].
    rewrite app_nil_r. exact Hcat. }
  cbn [fst]. rewrite Hl, Hc. reflexivity.
Qed.

Lemma passwords_writes_not_ledger (ws : list (Batch hibpPasswordData)) :
  filter is_ledger (map (write_event batch_query batch_args) ws) = [].
Proof. induction ws as [|w ws IH]; [reflexivity | exact IH]. Qed.

(** X6.  A password run whose start-up goes through and whose file reads
    without error returns the number of accepted lines, whether or not
    the store took their batches; it executes, after the start-up, the
    batch writes and then one ledger statement, for the source
    [pwned-passwords-plain], with the state of an error count that is the
    number of rejected lines plus the number of refused batch writes. *)
Theorem passwords_run_accounts (conn filename date : string) (s s1 : Store)
  (evs : list Event) (time : Time) (lines : list string) :
  start E schema conn filename date s
  = mkOutcome s1 evs (Return (time, mkFile lines None)) ->
  Z.of_nat (List.length lines) < int_max ->
  exists (writes : list (Batch hibpPasswordData)) (lerr : option error),
    result_of (hibpPasswordsEtl E B schema conn filename date s)
    = Return (Z.of_nat (List.length (rows_of (parse E) lines)))
    /\ filter is_exec
         (events_of (hibpPasswordsEtl E B schema conn filename date s))
       = filter is_exec evs
           ++ map (write_event batch_query batch_args) writes
           ++ [ledger_entry "pwned-passwords-plain"
                 (rejected (parse E) lines + failures writes) time lerr].
Proof.
  intros Hsetup Hlen.
  destruct (passwords_run_summary conn filename date s s1 evs time lines
              Hsetup Hlen)
    as (full & last & lerr & Hr & Hx & _).
  exists (full ++ [last]), lerr. split; [exact Hr | exact Hx].
Qed.

(** X7.  A password run whose start-up goes through and whose file reads
    without error writes every accepted row exactly once, in the order of
    the input: the batch writes but the last hold [BATCH_SIZE] rows each,
    and the last one holds the remaining rows, none when their number is a
    multiple of [BATCH_SIZE]. *)
Theorem passwords_run_batches (conn filename date : string) (s s1 : Store)
  (evs : list Event) (time : Time) (lines : list string) :
  start E schema conn filename date s
  = mkOutcome s1 evs (Return (time, mkFile lines None)) ->
  Z.of_nat (List.length lines) < int_max ->
  exists (full : list (Batch hibpPasswordData)) (last : Batch hibpPasswordData)
         (ledger : Event),
    filter is_exec
      (events_of (hibpPasswordsEtl E B schema conn filename date s))
    = filter is_exec evs
        ++ map (write_event batch_query batch_args) (full ++ [last])
        ++ [ledger]
    /\ is_ledger ledger = true
    /\ Forall (fun b => Z.of_nat (List.length (fst b)) = B) full
    /\ List.concat (map fst (full ++ [last])) = rows_of (parse E) lines
    /\ Z.of_nat (List.length (fst last))
       = Z.of_nat (List.length (rows_of (parse E) lines)) mod B.
Proof.
  intros Hsetup Hlen.
  destruct (passwords_run_summary conn filename date s s1 evs time lines
              Hsetup Hlen)
    as (full & last & lerr & Hr & Hx & Hf & Hcat & Hl).
  exists full, last, (ledger_entry "pwned-passwords-plain"
                        (rejected (parse E) lines + failures (full ++ [last]))
                        time lerr).
  split; [exact Hx|]. split; [reflexivity|].
  split; [exact Hf|]. split; [exact Hcat | exact Hl].
Qed.

End Summary.

Lemma passwords_run_accounts_witness :
  exists (writes : list (Batch hibpPasswordData)) (lerr : option error),
    result_of (hibpPasswordsEtl (serving ["ab:p:q"; "oops"; "CD:"] accepting)
                 CountMode.BATCH_SIZE CountMode.HIBP_TABLE_SCHEMA
                 "db" "plain.txt" "November 19 2020" tt)
    = Return 2
    /\ filter is_exec
         (events_of (hibpPasswordsEtl
                       (serving ["ab:p:q"; "oops"; "CD:"] accepting)
                       CountMode.BATCH_SIZE CountMode.HIBP_TABLE_SCHEMA
                       "db" "plain.txt" "November 19 2020" tt))
       = [Exec CountMode.HIBP_TABLE_SCHEMA [] None;
          Exec IMPORT_TABLE_SCHEMA [] None]
           ++ map (write_event batch_query batch_args) writes
           ++ [ledger_entry "pwned-passwords-plain"
                 (rejected (parse (serving ["ab:p:q"; "oops"; "CD:"] accepting))
                    ["ab:p:q"; "oops"; "CD:"] + failures writes)
                 (mkTime 2020 11 19) lerr].
Proof.
  exact (passwords_run_accounts
           (serving ["ab:p:q"; "oops"; "CD:"] accepting)
           CountMode.BATCH_SIZE CountMode.HIBP_TABLE_SCHEMA eq_refl
           "db" "plain.txt" "November 19 2020" tt tt
           [Log "File import time %s" [VTime (mkTime 2020 11 19)];
            Log "HIBP Passwords Processing file %s for %s"
              [VString "plain.txt"; VString "November 19 2020"];
            Exec CountMode.HIBP_TABLE_SCHEMA [] None;
            Exec IMPORT_TABLE_SCHEMA [] None]
           (mkTime 2020 11 19) ["ab:p:q"; "oops"; "CD:"] eq_refl eq_refl).
Defined.

Lemma passwords_run_batches_witness :
  exists (full : list (Batch hibpPasswordData)) (last : Batch hibpPasswordData)
         (ledger : Event),
    filter is_exec
      (events_of (hibpPasswordsEtl
                    (serving ["ab:p:q"; "oops"; "CD:"] accepting)
                    Reencode.BATCH_SIZE Reencode.HIBP_TABLE_SCHEMA
                    "db" "plain.txt" "November 19 2020" tt))
    = [Exec Reencode.HIBP_TABLE_SCHEMA [] None;
       Exec IMPORT_TABLE_SCHEMA [] None]
        ++ map (write_event batch_query batch_args) (full ++ [last])
        ++ [ledger]
    /\ is_ledger ledger = true
    /\ Forall (fun b => Z.of_nat (List.length (fst b)) = Reencode.BATCH_SIZE)
         full
    /\ List.concat (map fst (full ++ [last]))
       = [mkPassword "ab" "p:q"; mkPassword "cd" EmptyString]
    /\ Z.of_nat (List.length (fst last)) = 2 mod Reencode.BATCH_SIZE.
Proof.
  exact (passwords_run_batches
           (serving ["ab:p:q"; "oops"; "CD:"] accepting)
           Reencode.BATCH_SIZE Reencode.HIBP_TABLE_SCHEMA eq_refl
           "db" "plain.txt" "November 19 2020" tt tt
           [Log "File import time %s" [VTime (mkTime 2020 11 19)];
            Log "HIBP Passwords Processing file %s for %s"
              [VString "plain.txt"; VString "November 19 2020"];
            Exec Reencode.HIBP_TABLE_SCHEMA [] None;
            Exec IMPORT_TABLE_SCHEMA [] None]
           (mkTime 2020 11 19) ["ab:p:q"; "oops"; "CD:"] eq_refl eq_refl).
Defined.

End Passwords_summary.


(** ** Runs that stop early *)

Section Early_exit.

Context {Store : Type} (E : Env Store).

Lemma reencode_scan_line_no_ledger (line : string) (st : Loop string)
  (s : Store) :
  filter is_ledger (events_of (Reencode.scan_line E line st s)) = [].
Proof.
  rewrite Reencode_line.reencode_scan_line_parse.
  destruct (Reencode.parse line) as [hibp|]; [|reflexivity].
  destruct (Z.eq_dec (Z.rem (wrap_int (count st + 1)) Reencode.BATCH_SIZE) 0)
    as [H|H].
  - rewrite Reencode_line.reencode_accept_flush by exact H.
    cbn [events_of filter is_ledger].
    destruct (snd _); reflexivity.
  - rewrite Reencode_line.reencode_accept_keep by exact H. reflexivity.
Qed.

Lemma reencode_load_no_ledger (conn filename date : string) (s : Store) :
  filter is_ledger (events_of (Reencode.load E conn filename date s)) = [].
Proof.
  revert s. unfold Reencode.load. apply filter_events_bind.
  { apply setup_quiet; intros; reflexivity. }
  intros [time f]. apply filter_events_bind.
  { apply filter_events_scan. apply reencode_scan_line_no_ledger. }
  intros st. apply filter_events_bind.
  { intros s. rewrite check_scan_run. reflexivity. }
  intros _. apply filter_events_bind.
  { intros s. rewrite Reencode_line.reencode_batch_run.
    destruct (snd _); reflexivity. }
  reflexivity.
Qed.

Lemma passwords_scan_line_no_ledger (B : Z) (line : string)
  (st : Loop Passwords.hibpPasswordData) (s : Store) :
  filter is_ledger (events_of (Passwords.scan_line E B line st s)) = [].
Proof.
  destruct (Passwords.parse E line) as [row|] eqn:Hp.
  - destruct (Z.eq_dec (Z.rem (wrap_int (count st + 1)) B) 0) as [H|H].
    + rewrite (Passwords_facts.passwords_scan_line_flush E B line row st s Hp H).
      cbn [events_of filter is_ledger]. destruct (snd _); reflexivity.
    + rewrite (Passwords_facts.passwords_scan_line_keep E B line row st s Hp H).
      reflexivity.
  - rewrite (Passwords_facts.passwords_scan_line_reject E B line st s Hp).
    reflexivity.
Qed.

Lemma passwords_load_no_ledger (B : Z) (schema conn filename date : string)
  (s : Store) :
  String.eqb schema IMPORTS_INSERT = false ->
  filter is_ledger
    (events_of (Passwords.load E B schema conn filename date s)) = [].
Proof.
  intros Hschema. revert s. unfold Passwords.load. apply filter_events_bind.
  { apply Passwords_summary.start_quiet; intros; try reflexivity.
    cbn [is_ledger]. exact Hschema. }
  intros [time f]. apply filter_events_bind.
  { apply filter_events_scan. apply passwords_scan_line_no_ledger. }
  intros st. apply filter_events_bind.
  { intros s. rewrite check_scan_run. reflexivity. }
  intros _. apply filter_events_bind.
  { intros s. rewrite Passwords_facts.passwords_batch_run.
    destruct (snd _); reflexivity. }
  reflexivity.
Qed.

(** The end of a loader: [report] and [return count] after [load]. *)
Lemma ledger_iff_returned_gen (name : string) (load : M Store (Z * Z * Time))
  (s : Store) :
  filter is_ledger (events_of (load s)) = [] ->
  let run := (r <- load ;;
              let '(count, errors, time) := r in
              report E name errors time ;; ret count) in
  filter is_ledger (events_of (run s)) = []
  <-> (forall n, result_of (run s) <> Return n).
Proof.
  intros Hq run. subst run. unfold bind at 1 3.
  destruct (load s) as [s1 ev [[[n e] t]| |]];
    cbn [result_of events_of store_of] in *.
  - rewrite (bind_Return _ _ _ _ _ _ (report_run E name e t s1)).
    cbn [prepend events_of result_of store_of ret].
    rewrite filter_app, Hq, !filter_app. unfold report_events.
    rewrite filter_app. cbn [filter is_ledger app].
    change (is_ledger (ledger_entry name e t ?x)) with true.
    cbv iota. split.
    + intros H. destruct (e >? 0); discriminate H.
    + intros H. exfalso. apply (H n). reflexivity.
  - split; [intros _ n; discriminate | intros _; exact Hq].
  - split; [intros _ n; discriminate | intros _; exact Hq].
Qed.

(** X8.  A count-mode run writes a ledger entry exactly when it returns: a
    run that [log.Fatal] ends, at the start-up or at a read error of the
    input, leaves no trace in [imports], whatever it had written to [hibp]
    before. *)
Theorem count_ledger_iff_returned (conn filename date : string) (s : Store) :
  filter is_ledger (events_of (CountMode.hibpEtl E conn filename date s)) = []
  <-> (forall n, result_of (CountMode.hibpEtl E conn filename date s)
                 <> Return n).
Proof.
  apply (ledger_iff_returned_gen "pwned-passwords-sha1"
           (CountMode.load E conn filename date) s).
  apply CountMode_ledger.load_no_ledger.
Qed.

(** X9.  A run of the identifier loader writes a ledger entry exactly when it
    returns. *)
Theorem reencode_ledger_iff_returned (conn filename date : string)
  (s : Store) :
  filter is_ledger (events_of (Reencode.hibpEtl E conn filename date s)) = []
  <-> (forall n, result_of (Reencode.hibpEtl E conn filename date s)
                 <> Return n).
Proof.
  apply (ledger_iff_returned_gen "pwned-passwords-sha1"
           (Reencode.load E conn filename date) s).
  apply reencode_load_no_ledger.
Qed.

(** X10.  A run of the password loader writes a ledger entry exactly when it
    returns, in both revisions. *)
Theorem passwords_ledger_iff_returned (conn filename date : string)
  (s : Store) :
  (filter is_ledger
     (events_of (Passwords.hibpPasswordsEtl E CountMode.BATCH_SIZE
                   CountMode.HIBP_TABLE_SCHEMA conn filename date s)) = []
   <-> (forall n,
          result_of (Passwords.hibpPasswordsEtl E CountMode.BATCH_SIZE
                       CountMode.HIBP_TABLE_SCHEMA conn filename date s)
          <> Return n))
  /\ (filter is_ledger
        (events_of (Passwords.hibpPasswordsEtl E Reencode.BATCH_SIZE
                      Reencode.HIBP_TABLE_SCHEMA conn filename date s)) = []
      <-> (forall n,
             result_of (Passwords.hibpPasswordsEtl E Reencode.BATCH_SIZE
                          Reencode.HIBP_TABLE_SCHEMA conn filename date s)
             <> Return n)).
Proof.
  split.
  - apply (ledger_iff_returned_gen "pwned-passwords-plain"
             (Passwords.load E CountMode.BATCH_SIZE
                CountMode.HIBP_TABLE_SCHEMA conn filename date) s).
    apply passwords_load_no_ledger. reflexivity.
  - apply (ledger_iff_returned_gen "pwned-passwords-plain"
             (Passwords.load E Reencode.BATCH_SIZE
                Reencode.HIBP_TABLE_SCHEMA conn filename date) s).
    apply passwords_load_no_ledger. reflexivity.
Qed.

End Early_exit.

(** ** A read error of the input *)

Section Read_error.

Context {Store Row : Type}.
Variable B : Z.
Variable body : string -> Loop Row -> M Store (Loop Row).
Variable parse : string -> option Row.
Variable query : list Row -> string.
Variable args : list Row -> list Value.
Variable exec : Store -> string -> list Value -> Store * option error.
Variable batch_events : list Row -> option error -> list Event.
Variable writer : list Row -> M Store Z.

Hypothesis B_pos : 0 < B.

Hypothesis batch_events_exec : forall rows err,
  filter is_exec (batch_events rows err) = [Exec (query rows) (args rows) err].

Hypothesis body_reject : forall line st s,
  parse line = None ->
  body line st s
  = mkOutcome s []
      (Return (mkLoop (count st) (wrap_int (errors st + 1)) (rowData st))).

Hypothesis body_keep : forall line row st s,
  parse line = Some row ->
  Z.rem (wrap_int (count st + 1)) B <> 0 ->
  body line st s
  = mkOutcome s []
      (Return (mkLoop (wrap_int (count st + 1)) (errors st)
                 (rowData st ++ [row]))).

Hypothesis body_flush : forall line row st s,
  parse line = Some row ->
  Z.rem (wrap_int (count st + 1)) B = 0 ->
  body line st s
  = mkOutcome
      (fst (exec s (query (rowData st ++ [row])) (args (rowData st ++ [row]))))
      (Log "processing %d..." [VInt (wrap_int (count st + 1))]
         :: batch_events (rowData st ++ [row])
              (snd (exec s (query (rowData st ++ [row]))
                      (args (rowData st ++ [row])))))
      (Return (mkLoop (wrap_int (count st + 1))
                 (wrap_int (errors st + batch_errors
                    (snd (exec s (query (rowData st ++ [row]))
                            (args (rowData st ++ [row]))))))
                 [])).

(** The loop runs to the end of what the scanner yielded; the check of
    [s.Err()] then ends the run before the final flush. *)
Lemma scan_interrupted (lines : list string) (e : error) (time : Time)
  (s1 : Store) :
  Z.of_nat (List.length lines) < int_max ->
  exists (s2 : Store) (sevs : list Event) (full : list (Batch Row))
         (lost : list Row),
    bind (scan body lines (mkLoop 0 0 []))
      (fun st =>
         bind (check_scan (mkFile lines (Some e)))
           (fun _ =>
              bind (writer (rowData st))
                (fun er => ret (count st, wrap_int (errors st + er), time))))
      s1
    = mkOutcome s2 sevs (Fatal [VError e])
    /\ filter is_exec sevs = map (write_event query args) full
    /\ Forall (fun b => Z.of_nat (List.length (fst b)) = B) full
    /\ List.concat (map fst full) ++ lost = rows_of parse lines
    /\ Z.of_nat (List.length lost)
       = Z.of_nat (List.length (rows_of parse lines)) mod B.
Proof.
  intros Hlen. unfold int_max in Hlen.
  destruct (scan_summary B body parse query args exec batch_events
              B_pos batch_events_exec body_reject body_keep body_flush
              lines (mkLoop 0 0 []) s1)
    as (st & s2 & sevs & full & Hscan & Hc & He & Hx & Hf & Hcat & Hl & Hn);
    cbn [count errors rowData List.length]; unfold int_max; try lia.
  { rewrite Z.mod_0_l by lia. reflexivity. }
  cbn [count errors rowData app] in Hc, He, Hcat.
  rewrite Z.add_0_l in Hc.
  exists s2, sevs, full, (rowData st).
  split.
  { rewrite (bind_Return _ _ _ _ _ _ Hscan).
    unfold check_scan. cbn [scan_err].
    rewrite (bind_Fatal _ _ s2 s2 [] [VError e]) by reflexivity.
    unfold prepend. cbn [store_of events_of result_of].
    rewrite app_nil_r. reflexivity. }
  split; [exact Hx|]. split; [exact Hf|]. split; [exact Hcat|].
  rewrite Hl, Hc. reflexivity.
Qed.

End Read_error.

Module CountMode_read_error.
Import CountMode CountMode_facts CountMode_summary.

Section Read.

Context {Store : Type} (E : Env Store).

(** X11.  When the scanner stops with a read error, a count-mode run ends in
    [log.Fatal] with that error, before the final flush: the rows of the
    lines read so far have been written in full batches only; the
    accepted rows after the last full batch, as many as their number
    modulo [BATCH_SIZE], are never written; and the ledger has no
    entry. *)
Theorem count_read_error (conn filename date : string) (s s1 : Store)
  (evs : list Event) (time : Time) (lines : list string) (e : error) :
  setup E HIBP_TABLE_SCHEMA conn filename date s
  = mkOutcome s1 evs (Return (time, mkFile lines (Some e))) ->
  Z.of_nat (List.length lines) < int_max ->
  exists (full : list (Batch hibpData)) (lost : list hibpData),
    result_of (hibpEtl E conn filename date s) = Fatal [VError e]
    /\ filter is_batch_write (events_of (hibpEtl E conn filename date s))
       = map (write_event batch_query batch_args) full
    /\ Forall (fun b => Z.of_nat (List.length (fst b)) = BATCH_SIZE) full
    /\ List.concat (map fst full) ++ lost = rows_of (parse E) lines
    /\ Z.of_nat (List.length lost)
       = Z.of_nat (List.length (rows_of (parse E) lines)) mod BATCH_SIZE
    /\ filter is_ledger (events_of (hibpEtl E conn filename date s)) = [].
Proof.
  intros Hsetup Hlen.
  destruct (scan_interrupted BATCH_SIZE (scan_line E) (parse E)
              batch_query batch_args (pool_Exec E) batch_events
              (hibpProcessRowDataBatch E)
              ltac:(reflexivity) (batch_events_exec)
              (scan_line_reject E) (scan_line_keep E) (scan_line_flush E)
              lines e time s1 Hlen)
    as (s2 & sevs & full & lost & Hrun & Hx & Hf & Hcat & Hl).
  assert (Hload : load E conn filename date s
                  = mkOutcome s2 (evs ++ sevs) (Fatal [VError e])).
  { rewrite (CountMode_load_run E _ _ _ _ _ _ _ _ Hsetup). cbn [tokens].
    rewrite Hrun. reflexivity. }
  assert (Hetl : hibpEtl E conn filename date s
                 = mkOutcome s2 (evs ++ sevs) (Fatal [VError e])).
  { unfold hibpEtl. apply bind_Fatal. exact Hload. }
  pose proof (CountMode_ledger.load_no_ledger E conn filename date s) as Hq.
  rewrite Hload in Hq. cbn [events_of] in Hq.
  rewrite Hetl. cbn [result_of events_of].
  exists full, lost. split; [reflexivity|]. split.
  { rewrite filter_app.
    rewrite (CountMode_runs.setup_no_batch_write E _ _ _ _ _ _ _ Hsetup).
    rewrite <- (filter_refines is_batch_write is_exec sevs is_batch_write_exec).
    rewrite Hx. apply writes_are_batch_writes. }
  split; [exact Hf|]. split; [exact Hcat|]. split; [exact Hl | exact Hq].
Qed.

End Read.

Lemma count_read_error_witness :
  exists (full : list (Batch hibpData)) (lost : list hibpData),
    result_of (hibpEtl (interrupted ["ab:1"; "oops"; "cd:2"] accepting)
                 "db" "pwned.txt" "November 19 2020" tt)
    = Fatal [VError "bufio.Scanner: token too long"]
    /\ filter is_batch_write
         (events_of (hibpEtl (interrupted ["ab:1"; "oops"; "cd:2"] accepting)
                       "db" "pwned.txt" "November 19 2020" tt))
       = map (write_event batch_query batch_args) full
    /\ Forall (fun b => Z.of_nat (List.length (fst b)) = BATCH_SIZE) full
    /\ List.concat (map fst full) ++ lost = [mkData "ab" 1; mkData "cd" 2]
    /\ Z.of_nat (List.length lost) = 2 mod BATCH_SIZE
    /\ filter is_ledger
         (events_of (hibpEtl (interrupted ["ab:1"; "oops"; "cd:2"] accepting)
                       "db" "pwned.txt" "November 19 2020" tt)) = [].
Proof.
  exact (count_read_error (interrupted ["ab:1"; "oops"; "cd:2"] accepting)
           "db" "pwned.txt" "November 19 2020" tt tt
           [Log "File import time %s" [VTime (mkTime 2020 11 19)];
            Log "HIBP Processing file %s for %s"
              [VString "pwned.txt"; VString "November 19 2020"];
            Exec HIBP_TABLE_SCHEMA [] None;
            Exec IMPORT_TABLE_SCHEMA [] None]
           (mkTime 2020 11 19) ["ab:1"; "oops"; "cd:2"]
           "bufio.Scanner: token too long" eq_refl eq_refl).
Defined.

End CountMode_read_error.

Module Reencode_read_error.
Import Reencode Reencode_line Reencode_summary.

Section Read.

Context {Store : Type} (E : Env Store).

(** X12.  When the scanner stops with a read error, a run of the identifier
    loader ends in [log.Fatal] with that error, before the final flush:
    full batches only have been written, the accepted identifiers after
    the last full batch are never written, and the ledger has no entry. *)
Theorem reencode_read_error (conn filename date : string) (s s1 : Store)
  (evs : list Event) (time : Time) (lines : list string) (e : error) :
  setup E HIBP_TABLE_SCHEMA conn filename date s
  = mkOutcome s1 evs (Return (time, mkFile lines (Some e))) ->
  Z.of_nat (List.length lines) < int_max ->
  exists (full : list (Batch string)) (lost : list string),
    result_of (hibpEtl E conn filename date s) = Fatal [VError e]
    /\ filter is_batch_write (events_of (hibpEtl E conn filename date s))
       = map (write_event batch_query batch_args) full
    /\ Forall (fun b => Z.of_nat (List.length (fst b)) = BATCH_SIZE) full
    /\ List.concat (map fst full) ++ lost = rows_of parse lines
    /\ Z.of_nat (List.length lost)
       = Z.of_nat (List.length (rows_of parse lines)) mod BATCH_SIZE
    /\ filter is_ledger (events_of (hibpEtl E conn filename date s)) = [].
Proof.
  intros Hsetup Hlen.
  destruct (scan_interrupted BATCH_SIZE (scan_line E) parse
              batch_query batch_args (pool_Exec E) batch_events
              (hibpProcessRowDataBatch E)
              ltac:(reflexivity) (reencode_batch_events_exec)
              (reencode_scan_line_reject E) (reencode_scan_line_keep E)
              (reencode_scan_line_flush E)
              lines e time s1 Hlen)
    as (s2 & sevs & full & lost & Hrun & Hx & Hf & Hcat & Hl).
  assert (Hload : load E conn filename date s
                  = mkOutcome s2 (evs ++ sevs) (Fatal [VError e])).
  { rewrite (Reencode_load_run E _ _ _ _ _ _ _ _ Hsetup). cbn [tokens].
    rewrite Hrun. reflexivity. }
  assert (Hetl : hibpEtl E conn filename date s
                 = mkOutcome s2 (evs ++ sevs) (Fatal [VError e])).
  { unfold hibpEtl. apply bind_Fatal. exact Hload. }
  pose proof (reencode_load_no_ledger E conn filename date s) as Hq.
  rewrite Hload in Hq. cbn [events_of] in Hq.
  pose proof (setup_quiet E is_batch_write HIBP_TABLE_SCHEMA conn filename date
                (fun _ _ => eq_refl) (fun _ => eq_refl) (fun _ => eq_refl) s)
    as Hq2.
  rewrite Hsetup in Hq2. cbn [events_of] in Hq2.
  rewrite Hetl. cbn [result_of events_of].
  exists full, lost. split; [reflexivity|]. split.
  { rewrite filter_app, Hq2.
    rewrite <- (filter_refines is_batch_write is_exec sevs is_batch_write_exec).
    rewrite Hx. apply reencode_writes_are_batch_writes. }
  split; [exact Hf|]. split; [exact Hcat|]. split; [exact Hl | exact Hq].
Qed.

End Read.

Lemma reencode_read_error_witness :
  exists (full : list (Batch string)) (lost : list string),
    result_of (hibpEtl (interrupted ["ab:1"; "oops"; "CD:2"] accepting)
                 "db" "pwned.txt" "November 19 2020" tt)
    = Fatal [VError "bufio.Scanner: token too long"]
    /\ filter is_batch_write
         (events_of (hibpEtl (interrupted ["ab:1"; "oops"; "CD:2"] accepting)
                       "db" "pwned.txt" "November 19 2020" tt))
       = map (write_event batch_query batch_args) full
    /\ Forall (fun b => Z.of_nat (List.length (fst b)) = BATCH_SIZE) full
    /\ List.concat (map fst full) ++ lost
       = rows_of parse ["ab:1"; "oops"; "CD:2"]
    /\ Z.of_nat (List.length lost) = 2 mod BATCH_SIZE
    /\ filter is_ledger
         (events_of (hibpEtl (interrupted ["ab:1"; "oops"; "CD:2"] accepting)
                       "db" "pwned.txt" "November 19 2020" tt)) = [].
Proof.
  exact (reencode_read_error (interrupted ["ab:1"; "oops"; "CD:2"] accepting)
           "db" "pwned.txt" "November 19 2020" tt tt
           [Log "File import time %s" [VTime (mkTime 2020 11 19)];
            Log "HIBP Processing file %s for %s"
              [VString "pwned.txt"; VString "November 19 2020"];
            Exec HIBP_TABLE_SCHEMA [] None;
            Exec IMPORT_TABLE_SCHEMA [] None]
           (mkTime 2020 11 19) ["ab:1"; "oops"; "CD:2"]
           "bufio.Scanner: token too long" eq_refl eq_refl).
Defined.

End Reencode_read_error.

Module Passwords_read_error.
Import Passwords Passwords_facts Passwords_summary.

Section Read.

Context {Store : Type} (E : Env Store).
Variable B : Z.
Variable schema : string.
Hypothesis B_pos : 0 < B.

(** X13.  When the scanner stops with a read error, a run of the password
    loader ends in [log.Fatal] with that error, before the final flush:
    after the start-up it has executed the writes of the full batches and
    nothing else, so the accepted rows after the last full batch are
    never written and the ledger has no entry. *)
Theorem passwords_read_error (conn filename date : string) (s s1 : Store)
  (evs : list Event) (time : Time) (lines : list string) (e : error) :
  start E schema conn filename date s
  = mkOutcome s1 evs (Return (time, mkFile lines (Some e))) ->
  Z.of_nat (List.length lines) < int_max ->
  exists (full : list (Batch hibpPasswordData))
         (lost : list hibpPasswordData),
    result_of (hibpPasswordsEtl E B schema conn filename date s)
    = Fatal [VError e]
    /\ filter is_exec
         (events_of (hibpPasswordsEtl E B schema conn filename date s))
       = filter is_exec evs ++ map (write_event batch_query batch_args) full
    /\ Forall (fun b => Z.of_nat (List.length (fst b)) = B) full
    /\ List.concat (map fst full) ++ lost = rows_of (parse E) lines
    /\ Z.of_nat (List.length lost)
       = Z.of_nat (List.length (rows_of (parse E) lines)) mod B.
Proof.
  intros Hsetup Hlen.
  destruct (scan_interrupted B (scan_line E B) (parse E)
              batch_query batch_args (pool_Exec E) batch_events
              (hibpPasswordProcessRowDataBatch E)
              B_pos (passwords_batch_events_exec)
              (passwords_scan_line_reject E B) (passwords_scan_line_keep E B)
              (passwords_scan_line_flush E B)
              lines e time s1 Hlen)
    as (s2 & sevs & full & lost & Hrun & Hx & Hf & Hcat & Hl).
  assert (Hload : load E B schema conn filename date s
                  = mkOutcome s2 (evs ++ sevs) (Fatal [VError e])).
  { rewrite (passwords_load_run E B schema _ _ _ _ _ _ _ _ Hsetup).
    cbn [tokens]. rewrite Hrun. reflexivity. }
  assert (Hetl : hibpPasswordsEtl E B schema conn filename date s
                 = mkOutcome s2 (evs ++ sevs) (Fatal [VError e])).
  { unfold hibpPasswordsEtl. apply bind_Fatal. exact Hload. }
  rewrite Hetl. cbn [result_of events_of].
  exists full, lost. split; [reflexivity|]. split.
  { rewrite filter_app, Hx. reflexivity. }
  split; [exact Hf|]. split; [exact Hcat | exact Hl].
Qed.

End Read.

Lemma passwords_read_error_witness :
  exists (full : list (Batch hibpPasswordData))
         (lost : list hibpPasswordData),
    result_of (hibpPasswordsEtl
                 (interrupted ["ab:p:q"; "oops"; "CD:"; "ef:r"] accepting)
                 2 CountMode.HIBP_TABLE_SCHEMA
                 "db" "plain.txt" "November 19 2020" tt)
    = Fatal [VError "bufio.Scanner: token too long"]
    /\ filter is_exec
         (events_of (hibpPasswordsEtl
                       (interrupted ["ab:p:q"; "oops"; "CD:"; "ef:r"] accepting)
                       2 CountMode.HIBP_TABLE_SCHEMA
                       "db" "plain.txt" "November 19 2020" tt))
       = [Exec CountMode.HIBP_TABLE_SCHEMA [] None;
          Exec IMPORT_TABLE_SCHEMA [] None]
           ++ map (write_event batch_query batch_args) full
    /\ Forall (fun b => Z.of_nat (List.length (fst b)) = 2) full
    /\ List.concat (map fst full) ++ lost
       = [mkPassword "ab" "p:q"; mkPassword "cd" EmptyString;
          mkPassword "ef" "r"]
    /\ Z.of_nat (List.length lost) = 3 mod 2.
Proof.
  exact (passwords_read_error
           (interrupted ["ab:p:q"; "oops"; "CD:"; "ef:r"] accepting)
           2 CountMode.HIBP_TABLE_SCHEMA eq_refl
           "db" "plain.txt" "November 19 2020" tt tt
           [Log "File import time %s" [VTime (mkTime 2020 11 19)];
            Log "HIBP Passwords Processing file %s for %s"
              [VString "plain.txt"; VString "November 19 2020"];
            Exec CountMode.HIBP_TABLE_SCHEMA [] None;
            Exec IMPORT_TABLE_SCHEMA [] None]
           (mkTime 2020 11 19) ["ab:p:q"; "oops"; "CD:"; "ef:r"]
           "bufio.Scanner: token too long" eq_refl eq_refl).
Defined.

End Passwords_read_error.

(** ** The start-up *)

Section Start_up.

Context {Store : Type} (E : Env Store).

Lemma setup_date_refused (schema conn filename date : string) (s : Store)
  (a : list Value) :
  result_of (stringToDate E date s) = Fatal a ->
  setup E schema conn filename date s = mkOutcome s [] (Fatal a).
Proof.
  intros H. unfold setup. apply bind_Fatal.
  unfold stringToDate in *.
  destruct (String.eqb date EmptyString).
  - cbn in H. injection H as <-. reflexivity.
  - destruct (time_Parse E DATE_FORMAT date) as [err|time].
    + cbn in H. injection H as <-. reflexivity.
    + rewrite bind_log in H. discriminate H.
Qed.

Lemma start_date_refused (schema conn filename date : string) (s : Store)
  (a : list Value) :
  result_of (stringToDate E date s) = Fatal a ->
  Passwords.start E schema conn filename date s = mkOutcome s [] (Fatal a).
Proof.
  intros H. unfold Passwords.start. apply bind_Fatal.
  unfold stringToDate in *.
  destruct (String.eqb date EmptyString).
  - cbn in H. injection H as <-. reflexivity.
  - destruct (time_Parse E DATE_FORMAT date) as [err|time].
    + cbn in H. injection H as <-. reflexivity.
    + rewrite bind_log in H. discriminate H.
Qed.

(** X14.  The date is checked before anything else: when [stringToDate] ends
    the run, on a missing date or on one that [time.Parse] refuses, each
    of the three loaders stops with that very failure, having logged
    nothing, opened no connection and executed no statement. *)
Theorem date_checked_first (conn filename date : string) (B : Z)
  (schema : string) (s : Store) (a : list Value) :
  result_of (stringToDate E date s) = Fatal a ->
  forall run,
    In run [CountMode.hibpEtl E conn filename date;
            Reencode.hibpEtl E conn filename date;
            Passwords.hibpPasswordsEtl E B schema conn filename date] ->
    run s = mkOutcome s [] (Fatal a).
Proof.
  intros H run [<-|[<-|[<-|[]]]].
  - unfold CountMode.hibpEtl, CountMode.load.
    do 2 apply bind_Fatal. apply setup_date_refused, H.
  - unfold Reencode.hibpEtl, Reencode.load.
    do 2 apply bind_Fatal. apply setup_date_refused, H.
  - unfold Passwords.hibpPasswordsEtl, Passwords.load.
    do 2 apply bind_Fatal. apply start_date_refused, H.
Qed.

Lemma setup_not_connected (schema conn filename date : string) (s : Store)
  (err : error) :
  pgxpool_Connect E conn = Some err ->
  store_of (setup E schema conn filename date s) = s
  /\ filter is_exec (events_of (setup E schema conn filename date s)) = []
  /\ exists a, result_of (setup E schema conn filename date s) = Fatal a.
Proof.
  intros H. unfold setup, stringToDate.
  destruct (String.eqb date EmptyString).
  { rewrite (bind_Fatal _ _ s s [] _ eq_refl). cbn. repeat split.
    eexists. reflexivity. }
  destruct (time_Parse E DATE_FORMAT date) as [e|time].
  { rewrite (bind_Fatal _ _ s s [] _ eq_refl). cbn. repeat split.
    eexists. reflexivity. }
  rewrite (bind_Return _ _ s s [Log "File import time %s" [VTime time]] time)
    by reflexivity.
  rewrite bind_log.
  unfold connect. rewrite H.
  rewrite (bind_Fatal _ _ s s [] [VError err] eq_refl).
  cbn. repeat split. eexists. reflexivity.
Qed.

Lemma start_not_connected (schema conn filename date : string) (s : Store)
  (err : error) :
  pgxpool_Connect E conn = Some err ->
  store_of (Passwords.start E schema conn filename date s) = s
  /\ filter is_exec
       (events_of (Passwords.start E schema conn filename date s)) = []
  /\ exists a,
       result_of (Passwords.start E schema conn filename date s) = Fatal a.
Proof.
  intros H. unfold Passwords.start, stringToDate.
  destruct (String.eqb date EmptyString).
  { rewrite (bind_Fatal _ _ s s [] _ eq_refl). cbn. repeat split.
    eexists. reflexivity. }
  destruct (time_Parse E DATE_FORMAT date) as [e|time].
  { rewrite (bind_Fatal _ _ s s [] _ eq_refl). cbn. repeat split.
    eexists. reflexivity. }
  rewrite (bind_Return _ _ s s [Log "File import time %s" [VTime time]] time)
    by reflexivity.
  rewrite bind_log.
  unfold connect. rewrite H.
  rewrite (bind_Fatal _ _ s s [] [VError err] eq_refl).
  cbn. repeat split. eexists. reflexivity.
Qed.

Lemma bind_stopped {A C : Type} (m : M Store A) (k : A -> M Store C)
  (s : Store) (a : list Value) :
  result_of (m s) = Fatal a ->
  store_of (bind m k s) = store_of (m s)
  /\ events_of (bind m k s) = events_of (m s)
  /\ result_of (bind m k s) = Fatal a.
Proof.
  intros H. unfold bind. rewrite H. repeat split.
Qed.

(** X15.  No connection, no statement: when [pgxpool.Connect] fails, each of
    the three loaders ends in [log.Fatal] without having executed a
    statement, and the store is as it was. *)
Theorem no_statement_without_connection (conn filename date : string)
  (B : Z) (schema : string) (s : Store) (err : error) :
  pgxpool_Connect E conn = Some err ->
  forall run,
    In run [CountMode.hibpEtl E conn filename date;
            Reencode.hibpEtl E conn filename date;
            Passwords.hibpPasswordsEtl E B schema conn filename date] ->
    store_of (run s) = s
    /\ filter is_exec (events_of (run s)) = []
    /\ exists a, result_of (run s) = Fatal a.
Proof.
  intros H run [<-|[<-|[<-|[]]]].
  - destruct (setup_not_connected CountMode.HIBP_TABLE_SCHEMA conn filename
                date s err H) as (Hs & He & a & Ha).
    unfold CountMode.hibpEtl, CountMode.load.
    destruct (bind_stopped _
                (fun r : Time * File =>
                   let '(time, f) := r in
                   st <- scan (CountMode.scan_line E) (tokens f)
                           (mkLoop 0 0 []) ;;
                   check_scan f ;;
                   e <- CountMode.hibpProcessRowDataBatch E (rowData st) ;;
                   ret (count st, wrap_int (errors st + e), time))
                s a Ha) as (Hs1 & He1 & Ha1).
    match goal with
    | |- context [bind ?m ?k s] =>
        destruct (bind_stopped m k s a Ha1) as (Hs2 & He2 & Ha2)
    end.
    rewrite Hs2, He2, Ha2, Hs1, He1, Hs, He. repeat split.
    exists a. reflexivity.
  - destruct (setup_not_connected Reencode.HIBP_TABLE_SCHEMA conn filename
                date s err H) as (Hs & He & a & Ha).
    unfold Reencode.hibpEtl, Reencode.load.
    destruct (bind_stopped _
                (fun r : Time * File =>
                   let '(time, f) := r in
                   st <- scan (Reencode.scan_line E) (tokens f)
                           (mkLoop 0 0 []) ;;
                   check_scan f ;;
                   e <- Reencode.hibpProcessRowDataBatch E (rowData st) ;;
                   ret (count st, wrap_int (errors st + e), time))
                s a Ha) as (Hs1 & He1 & Ha1).
    match goal with
    | |- context [bind ?m ?k s] =>
        destruct (bind_stopped m k s a Ha1) as (Hs2 & He2 & Ha2)
    end.
    rewrite Hs2, He2, Ha2, Hs1, He1, Hs, He. repeat split.
    exists a. reflexivity.
  - destruct (start_not_connected schema conn filename
                date s err H) as (Hs & He & a & Ha).
    unfold Passwords.hibpPasswordsEtl, Passwords.load.
    destruct (bind_stopped _
                (fun r : Time * File =>
                   let '(time, f) := r in
                   st <- scan (Passwords.scan_line E B) (tokens f)
                           (mkLoop 0 0 []) ;;
                   check_scan f ;;
                   e <- Passwords.hibpPasswordProcessRowDataBatch E
                          (rowData st) ;;
                   ret (count st, wrap_int (errors st + e), time))
                s a Ha) as (Hs1 & He1 & Ha1).
    match goal with
    | |- context [bind ?m ?k s] =>
        destruct (bind_stopped m k s a Ha1) as (Hs2 & He2 & Ha2)
    end.
    rewrite Hs2, He2, Ha2, Hs1, He1, Hs, He. repeat split.
    exists a. reflexivity.
Qed.

End Start_up.

Lemma date_checked_first_witness :
  CountMode.hibpEtl (serving ["ab:1"] accepting) "db" "pwned.txt"
    EmptyString tt
  = mkOutcome tt []
      (Fatal [VString "Missing required date field e.g. November 19 2020"])
  /\ Reencode.hibpEtl (serving ["ab:1"] accepting) "db" "pwned.txt"
       EmptyString tt
     = mkOutcome tt []
         (Fatal [VString "Missing required date field e.g. November 19 2020"])
  /\ Passwords.hibpPasswordsEtl (serving ["ab:1"] accepting)
       CountMode.BATCH_SIZE CountMode.HIBP_TABLE_SCHEMA
       "db" "pwned.txt" EmptyString tt
     = mkOutcome tt []
         (Fatal [VString "Missing required date field e.g. November 19 2020"]).
Proof.
  pose proof (date_checked_first (serving ["ab:1"] accepting) "db" "pwned.txt"
                EmptyString CountMode.BATCH_SIZE CountMode.HIBP_TABLE_SCHEMA tt
                [VString "Missing required date field e.g. November 19 2020"]
                eq_refl) as H.
  split; [|split]; apply H.
  - left. reflexivity.
  - right. left. reflexivity.
  - right. right. left. reflexivity.
Defined.

Lemma no_statement_without_connection_witness :
  (store_of (CountMode.hibpEtl offline "db" "pwned.txt" "November 19 2020" tt)
   = tt
   /\ filter is_exec
        (events_of (CountMode.hibpEtl offline "db" "pwned.txt"
                      "November 19 2020" tt)) = []
   /\ exists a,
        result_of (CountMode.hibpEtl offline "db" "pwned.txt"
                     "November 19 2020" tt) = Fatal a)
  /\ (store_of (Passwords.hibpPasswordsEtl offline
                  Reencode.BATCH_SIZE Reencode.HIBP_TABLE_SCHEMA
                  "db" "pwned.txt" "November 19 2020" tt) = tt
      /\ filter is_exec
           (events_of (Passwords.hibpPasswordsEtl offline
                         Reencode.BATCH_SIZE Reencode.HIBP_TABLE_SCHEMA
                         "db" "pwned.txt" "November 19 2020" tt)) = []
      /\ exists a,
           result_of (Passwords.hibpPasswordsEtl offline
                        Reencode.BATCH_SIZE Reencode.HIBP_TABLE_SCHEMA
                        "db" "pwned.txt" "November 19 2020" tt) = Fatal a).
Proof.
  pose proof (no_statement_without_connection offline "db" "pwned.txt"
                "November 19 2020" Reencode.BATCH_SIZE
                Reencode.HIBP_TABLE_SCHEMA tt "dial tcp: connection refused"
                eq_refl) as H.
  split; apply H.
  - left. reflexivity.
  - right. right. left. reflexivity.
Defined.

(** ** No run panics *)

Section No_panic.

Context {Store : Type} (E : Env Store).

Lemma bind_no_panic {A C : Type} (m : M Store A) (k : A -> M Store C) :
  (forall s, result_of (m s) <> Panic) ->
  (forall a s, result_of (k a s) <> Panic) ->
  forall s, result_of (bind m k s) <> Panic.
Proof.
  intros Hm Hk s. unfold bind.
  destruct (result_of (m s)) as [a| |] eqn:Hr; cbn.
  - apply Hk.
  - discriminate.
  - exfalso. apply (Hm s). exact Hr.
Qed.

Lemma scan_no_panic {St : Type} (body : string -> St -> M Store St) :
  (forall line st s, result_of (body line st s) <> Panic) ->
  forall lines st s, result_of (scan body lines st s) <> Panic.
Proof.
  intros Hb lines. induction lines as [|l lines IH]; intros st s.
  - discriminate.
  - cbn [scan]. apply bind_no_panic; [apply Hb | exact IH].
Qed.

Lemma dbSchemaCreate_no_panic (sql : string) (s : Store) :
  result_of (dbSchemaCreate E sql s) <> Panic.
Proof.
  unfold dbSchemaCreate, bind, dbPool_Exec.
  destruct (pool_Exec E s sql []) as [s' [e|]]; discriminate.
Qed.

Lemma setup_no_panic (schema conn filename date : string) (s : Store) :
  result_of (setup E schema conn filename date s) <> Panic.
Proof.
  revert s. unfold setup. apply bind_no_panic.
  { intros s. unfold stringToDate.
    destruct (String.eqb date EmptyString); [discriminate|].
    destruct (time_Parse E DATE_FORMAT date); [discriminate|].
    rewrite bind_log. discriminate. }
  intros time. apply bind_no_panic; [discriminate|].
  intros _. apply bind_no_panic.
  { intros s. unfold connect.
    destruct (pgxpool_Connect E conn); discriminate. }
  intros _. apply bind_no_panic; [apply dbSchemaCreate_no_panic|].
  intros _. apply bind_no_panic; [apply dbSchemaCreate_no_panic|].
  intros _. apply bind_no_panic.
  { intros s. unfold open. destruct (os_Open E filename); discriminate. }
  discriminate.
Qed.

Lemma reencode_scan_line_no_panic (line : string) (st : Loop string)
  (s : Store) :
  result_of (Reencode.scan_line E line st s) <> Panic.
Proof.
  rewrite Reencode_line.reencode_scan_line_parse.
  destruct (Reencode.parse line) as [hibp|]; [|discriminate].
  destruct (Reencode_line.reencode_accept_returns E hibp st s) as [st' ->].
  discriminate.
Qed.

(** X16.  A run of the identifier loader never panics: the buffer of
    [ascii85.MaxEncodedLen] bytes is long enough for [ascii85.Encode]
    whatever the key, and nothing else in the run indexes a slice. *)
Theorem reencode_never_panics (conn filename date : string) (s : Store) :
  result_of (Reencode.hibpEtl E conn filename date s) <> Panic.
Proof.
  revert s. unfold Reencode.hibpEtl, Reencode.load.
  apply bind_no_panic.
  - apply bind_no_panic; [apply setup_no_panic|].
    intros [time f]. apply bind_no_panic.
    { apply scan_no_panic, reencode_scan_line_no_panic. }
    intros st. apply bind_no_panic.
    { intros s. rewrite check_scan_run. cbn.
      destruct (scan_err f); discriminate. }
    intros _. apply bind_no_panic.
    { intros s. rewrite Reencode_line.reencode_batch_run. discriminate. }
    discriminate.
  - intros [[n e] t]. apply bind_no_panic.
    { intros s. rewrite report_run. discriminate. }
    discriminate.
Qed.

End No_panic.

(** ** The statement of a batch write *)

Lemma map_seq_succ {A : Type} (f : nat -> A) (n : nat) :
  map f (seq 1 n) = map (fun j => f (S j)) (seq 0 n).
Proof. rewrite <- seq_shift, map_map. reflexivity. Qed.

Module CountMode_statement.
Import CountMode.

Lemma placeholders_shape (rows : list hibpData) :
  forall (i : Z) (values : list string) (args : list Value),
    placeholders rows i values args
    = (values
         ++ map (fun j : nat =>
                   ("($" ++ fmt_d ((i + Z.of_nat j) * 2 + 1) ++ ", $"
                         ++ fmt_d ((i + Z.of_nat j) * 2 + 2) ++ ")")%string)
              (seq 0 (List.length rows)),
       args ++ flat_map (fun row => [VString (hash row); VInt (hcount row)])
                 rows).
Proof.
  induction rows as [|row rows IH]; intros i values args.
  - cbn. rewrite !app_nil_r. reflexivity.
  - cbn [placeholders List.length flat_map]. rewrite IH.
    cbn [seq map]. rewrite map_seq_succ, Z.add_0_r.
    rewrite <- !app_assoc. cbn [app]. f_equal. f_equal. f_equal.
    apply map_ext. intros j.
    replace (i + 1 + Z.of_nat j) with (i + Z.of_nat (S j)) by lia.
    reflexivity.
Qed.

(** X17.  The statement the count-mode Writer builds for [n] rows has the [n]
    tuples [($1, $2)], [($3, $4)], ... in its [VALUES] list, and its
    arguments are the identifier and the count of each row, in the order
    of the rows: tuple [j] names the two arguments of row [j]. *)
Theorem count_statement_shape (rows : list hibpData) :
  batch_query rows
  = ("INSERT INTO hibp (hibp_id, count) VALUES "
       ++ strings.Join
            (map (fun j : nat =>
                    ("($" ++ fmt_d (Z.of_nat j * 2 + 1) ++ ", $"
                          ++ fmt_d (Z.of_nat j * 2 + 2) ++ ")")%string)
               (seq 0 (List.length rows))) ","
       ++ " ON CONFLICT (hibp_id) DO UPDATE SET count = EXCLUDED.count")%string
  /\ batch_args rows
     = flat_map (fun row => [VString (hash row); VInt (hcount row)]) rows
  /\ List.length (batch_args rows) = (2 * List.length rows)%nat.
Proof.
  unfold batch_query, batch_args. rewrite placeholders_shape.
  cbn [fst snd app]. split; [reflexivity|]. split; [reflexivity|].
  induction rows as [|row rows IH]; [reflexivity|].
  cbn [flat_map List.length app]. rewrite IH. lia.
Qed.

End CountMode_statement.

Module Reencode_statement.
Import Reencode.

Lemma reencode_placeholders_shape (rows : list string) :
  forall (i : Z) (values : list string) (args : list Value),
    placeholders rows i values args
    = (values
         ++ map (fun j : nat =>
                   ("($" ++ fmt_d (i + Z.of_nat j + 1) ++ ")")%string)
              (seq 0 (List.length rows)),
       args ++ map VString rows).
Proof.
  induction rows as [|row rows IH]; intros i values args.
  - cbn. rewrite !app_nil_r. reflexivity.
  - cbn [placeholders List.length map]. rewrite IH.
    cbn [seq map]. rewrite map_seq_succ, Z.add_0_r.
    rewrite <- !app_assoc. cbn [app]. f_equal. f_equal. f_equal.
    apply map_ext. intros j.
    replace (i + 1 + Z.of_nat j) with (i + Z.of_nat (S j)) by lia.
    reflexivity.
Qed.

(** X18.  The statement the Writer of the identifier loader builds for [n]
    rows has the [n] tuples [($1)], [($2)], ... in its [VALUES] list, and
    its arguments are the identifiers, in the order of the rows. *)
Theorem reencode_statement_shape (rows : list string) :
  batch_query rows
  = ("INSERT INTO hibp (hibp_id) VALUES "
       ++ strings.Join
            (map (fun j : nat => ("($" ++ fmt_d (Z.of_nat j + 1) ++ ")")%string)
               (seq 0 (List.length rows))) ","
       ++ " ON CONFLICT (hibp_id) DO NOTHING")%string
  /\ batch_args rows = map VString rows
  /\ List.length (batch_args rows) = List.length rows.
Proof.
  unfold batch_query, batch_args. rewrite reencode_placeholders_shape.
  cbn [fst snd app]. split; [reflexivity|]. split; [reflexivity|].
  apply length_map.
Qed.

End Reencode_statement.

Module Passwords_statement.
Import Passwords.

Lemma passwords_placeholders_shape (rows : list hibpPasswordData) :
  forall (i : Z) (values : list string) (args : list Value),
    placeholders rows i values args
    = (values
         ++ map (fun j : nat =>
                   ("($" ++ fmt_d ((i + Z.of_nat j) * 2 + 1) ++ ", $"
                         ++ fmt_d ((i + Z.of_nat j) * 2 + 2) ++ ")")%string)
              (seq 0 (List.length rows)),
       args ++ flat_map (fun row => [VString (hash row); VString (password row)])
                 rows).
Proof.
  induction rows as [|row rows IH]; intros i values args.
  - cbn. rewrite !app_nil_r. reflexivity.
  - cbn [placeholders List.length flat_map]. rewrite IH.
    cbn [seq map]. rewrite map_seq_succ, Z.add_0_r.
    rewrite <- !app_assoc. cbn [app]. f_equal. f_equal. f_equal.
    apply map_ext. intros j.
    replace (i + 1 + Z.of_nat j) with (i + Z.of_nat (S j)) by lia.
    reflexivity.
Qed.

(** X19.  The statement the Writer of the password loader builds for [n] rows
    has the [n] tuples [($1, $2)], [($3, $4)], ... in its [VALUES] list,
    and its arguments are the identifier and the password of each row, in
    the order of the rows. *)
Theorem passwords_statement_shape (rows : list hibpPasswordData) :
  batch_query rows
  = ("INSERT INTO hibp (hibp_id, password) VALUES "
       ++ strings.Join
            (map (fun j : nat =>
                    ("($" ++ fmt_d (Z.of_nat j * 2 + 1) ++ ", $"
                          ++ fmt_d (Z.of_nat j * 2 + 2) ++ ")")%string)
               (seq 0 (List.length rows))) ","
       ++ " ON CONFLICT (hibp_id) DO UPDATE SET password = EXCLUDED.password")%string
  /\ batch_args rows
     = flat_map (fun row => [VString (hash row); VString (password row)]) rows
  /\ List.length (batch_args rows) = (2 * List.length rows)%nat.
Proof.
  unfold batch_query, batch_args. rewrite passwords_placeholders_shape.
  cbn [fst snd app]. split; [reflexivity|]. split; [reflexivity|].
  induction rows as [|row rows IH]; [reflexivity|].
  cbn [flat_map List.length app]. rewrite IH. lia.
Qed.

End Passwords_statement.

(** ** What the identifier of a line depends on *)

Module Reencode_identity.
Import Reencode strings strings_facts.

Lemma append_String_assoc (h w : string) (c : ascii) (v : string) :
  ((h ++ String c w) ++ String c v)%string
  = (h ++ String c (w ++ String c v))%string.
Proof. induction h as [|a h IH]; cbn; [reflexivity|]. f_equal. exact IH. Qed.

(** The first field of a line does not depend on what follows the
    separator. *)
Lemma SplitN_head (k : string) (c : ascii) :
  exists d0, forall v, exists d1, SplitN (k ++ String c v) c 2 = [d0; d1].
Proof.
  destruct (IndexByte_shape k c) as [H | (h & w & -> & H)].
  - exists k. intros v. exists v. apply SplitN_first, H.
  - exists h. intros v. exists (w ++ String c v)%string.
    rewrite append_String_assoc. apply SplitN_first, H.
Qed.

Section Value.

Context {Store : Type} (E : Env Store).

(** X20.  The identifier loader never looks at the value field: two lines with
    the same key are treated alike, whatever follows the separator. *)
Theorem reencode_value_ignored (k v1 v2 : string) (st : Loop string)
  (s : Store) :
  scan_line E (k ++ String ":" v1) st s
  = scan_line E (k ++ String ":" v2) st s.
Proof.
  rewrite !Reencode_line.reencode_scan_line_parse.
  destruct (SplitN_head k ":") as [d0 Hd].
  unfold parse.
  destruct (Hd v1) as [d1 ->]. destruct (Hd v2) as [d2 ->].
  reflexivity.
Qed.

End Value.

Lemma ascii_to_Z_inj (c1 c2 : ascii) :
  ascii_to_Z c1 = ascii_to_Z c2 -> c1 = c2.
Proof.
  unfold ascii_to_Z. intros H. apply N2Z.inj in H.
  rewrite <- (ascii_N_embedding c1), <- (ascii_N_embedding c2), H.
  reflexivity.
Qed.

Lemma ascii_to_Z_range (c : ascii) : 0 <= ascii_to_Z c < 256.
Proof.
  unfold ascii_to_Z. pose proof (N_ascii_bounded c). lia.
Qed.

Lemma lowerByte_Z (c : ascii) :
  ascii_to_Z (lowerByte c)
  = if isUpper c then ascii_to_Z c + 32 else ascii_to_Z c.
Proof.
  unfold lowerByte. destruct (isUpper c) eqn:Hu; [|reflexivity].
  unfold isUpper in Hu. apply andb_prop in Hu. destruct Hu as [H1 H2].
  apply Z.leb_le in H1, H2.
  unfold ascii_to_Z in *. rewrite N_ascii_embedding; lia.
Qed.

Ltac cmp_cases :=
  repeat match goal with
         | |- context [?a <=? ?b] =>
             let H := fresh "H" in destruct (Z.leb_spec a b) as [H|H]
         | H : context [?a <=? ?b] |- _ =>
             let H' := fresh "H" in destruct (Z.leb_spec a b) as [H'|H']
         | |- context [?a <? ?b] =>
             let H := fresh "H" in destruct (Z.ltb_spec a b) as [H|H]
         end; cbn [andb orb] in *.

(** The value of a hex digit determines the digit up to letter case. *)
Lemma fromHexChar_lower (c : ascii) (a : Z) :
  fromHexChar c = Some a ->
  0 <= a < 16
  /\ ascii_to_Z (lowerByte c) = if a <? 10 then a + 48 else a + 87.
Proof.
  rewrite lowerByte_Z. unfold fromHexChar, isUpper.
  pose proof (ascii_to_Z_range c) as Hc.
  set (n := ascii_to_Z c) in *. clearbody n.
  intros H. cmp_cases; try discriminate; injection H as <-;
    cmp_cases; lia.
Qed.

Lemma fromHexChar_lowerByte (c : ascii) :
  fromHexChar (lowerByte c) = fromHexChar c.
Proof.
  unfold fromHexChar at 1. rewrite lowerByte_Z. unfold fromHexChar, isUpper.
  pose proof (ascii_to_Z_range c) as Hc.
  set (n := ascii_to_Z c) in *. clearbody n.
  cmp_cases; try reflexivity; try lia; f_equal; lia.
Qed.

Lemma hex_byte_inj (a b a' b' : Z) :
  0 <= a < 16 -> 0 <= b < 16 -> 0 <= a' < 16 -> 0 <= b' < 16 ->
  byte_of_Z (Z.lor (Z.shiftl a 4) b) = byte_of_Z (Z.lor (Z.shiftl a' 4) b') ->
  a = a' /\ b = b'.
Proof.
  intros Ha Hb Ha' Hb' H.
  apply (f_equal byte_to_Z) in H. rewrite !byte_to_of_Z in H.
  rewrite (Z.lor_comm _ b), (Z.lor_comm _ b') in H.
  rewrite !lor_shiftl_add in H by lia.
  change (2 ^ 4) with 16 in H.
  rewrite !Z.mod_small in H by lia. lia.
Qed.

(** Two keys that decode to the same bytes are equal up to letter case. *)
Lemma hex_DecodeString_same :
  forall (k1 k2 : string) (raw : list byte),
    hex_DecodeString k1 = inr raw -> hex_DecodeString k2 = inr raw ->
    mapBytes lowerByte k1 = mapBytes lowerByte k2.
Proof.
  fix IH 1. intros [|p1 [|q1 r1]] k2 raw H1 H2.
  - cbn in H1. injection H1 as <-.
    destruct k2 as [|p2 [|q2 r2]]; [reflexivity| |]; cbn in H2.
    + destruct (fromHexChar p2); discriminate.
    + destruct (fromHexChar p2); [|discriminate].
      destruct (fromHexChar q2); [|discriminate].
      destruct (hex_DecodeString r2); discriminate.
  - cbn in H1. destruct (fromHexChar p1); discriminate.
  - cbn [hex_DecodeString] in H1.
    destruct (fromHexChar p1) as [a1|] eqn:Hp1; [|discriminate].
    destruct (fromHexChar q1) as [b1|] eqn:Hq1; [|discriminate].
    destruct (hex_DecodeString r1) as [e|raw1] eqn:Hr1; [discriminate|].
    injection H1 as <-.
    destruct k2 as [|p2 [|q2 r2]]; cbn [hex_DecodeString] in H2.
    + discriminate.
    + destruct (fromHexChar p2); discriminate.
    + destruct (fromHexChar p2) as [a2|] eqn:Hp2; [|discriminate].
      destruct (fromHexChar q2) as [b2|] eqn:Hq2; [|discriminate].
      destruct (hex_DecodeString r2) as [e|raw2] eqn:Hr2; [discriminate|].
      injection H2 as Hb Hraw. subst raw2.
      destruct (fromHexChar_lower _ _ Hp1) as [Ra1 La1].
      destruct (fromHexChar_lower _ _ Hq1) as [Rb1 Lb1].
      destruct (fromHexChar_lower _ _ Hp2) as [Ra2 La2].
      destruct (fromHexChar_lower _ _ Hq2) as [Rb2 Lb2].
      destruct (hex_byte_inj _ _ _ _ Ra2 Rb2 Ra1 Rb1 Hb) as [-> ->].
      cbn [mapBytes]. f_equal; [|f_equal].
      * apply ascii_to_Z_inj. rewrite La1, La2. reflexivity.
      * apply ascii_to_Z_inj. rewrite Lb1, Lb2. reflexivity.
      * apply (IH r1 r2 raw1 Hr1 Hr2).
Qed.

(** Decoding does not see the letter case of the key. *)
Lemma hex_DecodeString_lower :
  forall (k : string) (raw : list byte),
    hex_DecodeString (mapBytes lowerByte k) = inr raw
    <-> hex_DecodeString k = inr raw.
Proof.
  fix IH 1. intros [|p [|q r]] raw.
  - reflexivity.
  - cbn [mapBytes hex_DecodeString]. rewrite fromHexChar_lowerByte.
    destruct (fromHexChar p); split; discriminate.
  - cbn [mapBytes hex_DecodeString]. rewrite !fromHexChar_lowerByte.
    destruct (fromHexChar p) as [a|]; [|split; discriminate].
    destruct (fromHexChar q) as [b|]; [|split; discriminate].
    pose proof (IH r) as Hr.
    destruct (hex_DecodeString (mapBytes lowerByte r)) as [e1|raw1];
      destruct (hex_DecodeString r) as [e2|raw2].
    + split; discriminate.
    + pose proof (proj2 (Hr raw2) eq_refl) as H. discriminate H.
    + pose proof (proj1 (Hr raw1) eq_refl) as H. discriminate H.
    + pose proof (proj1 (Hr raw1) eq_refl) as H. injection H as <-.
      reflexivity.
Qed.

Lemma string_of_list_byte_inj (l1 l2 : list byte) :
  string_of_list_byte l1 = string_of_list_byte l2 -> l1 = l2.
Proof.
  intros H. apply (f_equal list_byte_of_string) in H.
  rewrite !list_byte_of_string_of_list_byte in H. exact H.
Qed.

(** The identifier determines the bytes: [ascii85] decodes it back. *)
Lemma reencode_inj (raw1 raw2 : list byte) (hibp : string) :
  reencode raw1 = Some hibp -> reencode raw2 = Some hibp -> raw1 = raw2.
Proof.
  rewrite !Reencode_facts.reencode_encode. intros [= H1] [= H2].
  rewrite <- H2 in H1. apply string_of_list_byte_inj in H1.
  pose proof (ascii85_facts.decode_encode raw1 0) as D1.
  pose proof (ascii85_facts.decode_encode raw2 0) as D2.
  rewrite H1, D2 in D1. injection D1 as ->. reflexivity.
Qed.

Lemma parse_key (k v : string) :
  IndexByte k ":" = None ->
  parse (k ++ String ":" v)
  = match hex_DecodeString k with
    | inl _ => None
    | inr hash => reencode hash
    end.
Proof. intros H. unfold parse. rewrite SplitN_first by exact H. reflexivity. Qed.

(** X21.  Two lines get the same identifier exactly when their keys are equal
    up to letter case: the identifier is that of the bytes the key
    denotes, distinct hashes never share one, and the values play no
    part. *)
Theorem reencode_same_identifier (k1 k2 v1 v2 hibp : string) :
  IndexByte k1 ":" = None ->
  IndexByte k2 ":" = None ->
  parse (k1 ++ String ":" v1) = Some hibp ->
  (parse (k2 ++ String ":" v2) = Some hibp
   <-> mapBytes lowerByte k2 = mapBytes lowerByte k1).
Proof.
  intros Hk1 Hk2. rewrite !parse_key by assumption.
  destruct (hex_DecodeString k1) as [e1|raw1] eqn:H1; [discriminate|].
  intros Hid. split.
  - destruct (hex_DecodeString k2) as [e2|raw2] eqn:H2; [discriminate|].
    intros Hid2. rewrite (reencode_inj raw2 raw1 hibp Hid2 Hid) in H2.
    apply (hex_DecodeString_same k2 k1 raw1 H2 H1).
  - intros Hk.
    pose proof (proj2 (hex_DecodeString_lower k1 raw1) H1) as L1.
    rewrite <- Hk in L1.
    apply (proj1 (hex_DecodeString_lower k2 raw1)) in L1.
    rewrite L1. exact Hid.
Qed.

Lemma reencode_same_identifier_witness :
  parse "48656C6C6F:7" = Some "87cURDZ"
  <-> mapBytes lowerByte "48656C6C6F" = mapBytes lowerByte "48656c6c6f".
Proof.
  exact (reencode_same_identifier "48656c6c6f" "48656C6C6F" "3" "7" "87cURDZ"
           eq_refl eq_refl eq_refl).
Defined.

End Reencode_identity.

(** ** The count field *)

Module CountMode_count.
Import CountMode CountMode_facts strings strings_facts strconv strconv_facts.

Lemma Atoi_digits_sep (s : string) :
  IndexByte s ":" <> None ->
  forall n, exists e, Atoi_digits s n = inl e.
Proof.
  induction s as [|c s IH]; intros H n; [contradiction|].
  cbn [Atoi_digits]. cbv zeta. cbn [IndexByte] in H.
  destruct (Ascii.eqb c ":") eqn:Hc.
  - apply Ascii.eqb_eq in Hc. subst c. eexists. reflexivity.
  - destruct (_ >? 9); [eexists; reflexivity|].
    apply IH. destruct (IndexByte s ":"); [discriminate | exact H].
Qed.

Lemma ParseUint_digits_sep (s : string) :
  IndexByte s ":" <> None ->
  forall n, exists e, ParseUint_digits s n = inl e.
Proof.
  induction s as [|c s IH]; intros H n; [contradiction|].
  cbn [ParseUint_digits]. cbv zeta. cbn [IndexByte] in H.
  destruct (Ascii.eqb c ":") eqn:Hc.
  - apply Ascii.eqb_eq in Hc. subst c. eexists. reflexivity.
  - destruct (_ && _); [|eexists; reflexivity].
    destruct (_ >=? _); [eexists; reflexivity|].
    destruct (_ >? _); [eexists; reflexivity|].
    apply IH. destruct (IndexByte s ":"); [discriminate | exact H].
Qed.

(** [Atoi] refuses a string with a separator in it. *)
Lemma Atoi_sep (s : string) :
  IndexByte s ":" <> None -> exists e, Atoi s = inl e.
Proof.
  intros H. destruct s as [|c rest]; [contradiction|].
  assert (Hd : IndexByte
                 (if Ascii.eqb c "-" || Ascii.eqb c "+" then rest
                  else String c rest) ":" <> None).
  { destruct (Ascii.eqb c "-") eqn:Hm.
    - apply Ascii.eqb_eq in Hm. subst c. cbn in H |- *.
      destruct (IndexByte rest ":"); [discriminate | exact H].
    - destruct (Ascii.eqb c "+") eqn:Hp; [|exact H].
      apply Ascii.eqb_eq in Hp. subst c. cbn in H |- *.
      destruct (IndexByte rest ":"); [discriminate | exact H]. }
  unfold Atoi.
  destruct ((0 <? String.length (String c rest))%nat
            && (String.length (String c rest) <? 19)%nat).
  - cbv zeta.
    destruct (Atoi_digits_sep _ Hd 0) as [e He].
    destruct (_ && (String.length _ <? 1)%nat); [eexists; reflexivity|].
    rewrite He. eexists. reflexivity.
  - unfold ParseInt. cbv zeta.
    rewrite (orb_comm (Ascii.eqb c "+")).
    destruct (ParseUint_digits_sep _ Hd 0) as [e He].
    unfold ParseUint.
    destruct (if Ascii.eqb c "-" || Ascii.eqb c "+" then rest
              else String c rest) as [|d ds]; [contradiction|].
    rewrite He. eexists. reflexivity.
Qed.

Section Count.

Context {Store : Type} (E : Env Store).

(** X22.  The count of a line is read back from its decimal form: for every
    [int], the line made of a key, the separator and the number as [%d]
    prints it is accepted with that number as its count. *)
Theorem count_reads_decimal (h : string) (n : Z) :
  IndexByte h ":" = None ->
  int_min <= n <= int_max ->
  parse E (h ++ String ":" (fmt_d n))
  = Some (mkData (ToLower (unicodeLower E) h) n).
Proof.
  intros Hh Hn. rewrite parse_wellformed by exact Hh.
  rewrite Atoi_fmt_d by exact Hn. reflexivity.
Qed.

(** X23.  In count mode a line with a second separator is counted as an error
    and produces no row: the split is at the first separator, and the
    rest, with a separator in it, is no number. *)
Theorem count_rejects_second_separator (h v w : string)
  (st : Loop hibpData) (s : Store) :
  IndexByte h ":" = None ->
  scan_line E (h ++ String ":" (v ++ String ":" w)) st s
  = mkOutcome s []
      (Return (mkLoop (count st) (wrap_int (errors st + 1)) (rowData st))).
Proof.
  intros Hh. rewrite scan_line_parse, parse_wellformed by exact Hh.
  destruct (Atoi_sep (v ++ String ":" w)) as [e ->]; [|reflexivity].
  destruct (IndexByte_shape v ":") as [Hv | (a & b & -> & Ha)].
  - rewrite IndexByte_append by exact Hv. discriminate.
  - rewrite Reencode_identity.append_String_assoc.
    rewrite IndexByte_append by exact Ha. discriminate.
Qed.

End Count.

Lemma count_reads_decimal_witness :
  parse (serving [] accepting) "21BD1:-9223372036854775808"
  = Some (mkData "21bd1" (-9223372036854775808)).
Proof.
  apply (count_reads_decimal (serving [] accepting) "21BD1"
           (-9223372036854775808)).
  - reflexivity.
  - split; discriminate.
Defined.

Lemma count_rejects_second_separator_witness :
  scan_line (serving [] accepting) "21BD1:3:4" (mkLoop 7 0 []) tt
  = mkOutcome tt [] (Return (mkLoop 7 1 [])).
Proof.
  exact (count_rejects_second_separator (serving [] accepting)
           "21BD1" "3" "4" (mkLoop 7 0 []) tt eq_refl).
Defined.

End CountMode_count.


(** ** The date of a run *)

Section Run_date.

Context {Store : Type} (E : Env Store).

Lemma result_prepend {A : Type} (evs : list Event) (o : Outcome Store A) :
  result_of (prepend evs o) = result_of o.
Proof. reflexivity. Qed.

Lemma stringToDate_returns (date : string) (s : Store) (t : Time) :
  result_of (stringToDate E date s) = Return t ->
  time_Parse E DATE_FORMAT date = inr t.
Proof.
  unfold stringToDate.
  destruct (String.eqb date EmptyString); [discriminate|].
  destruct (time_Parse E DATE_FORMAT date) as [err|time]; [discriminate|].
  rewrite bind_log. cbn. intros [= ->]. reflexivity.
Qed.

(** What the start-up returns is the parsed date flag. *)
Lemma start_up_time (banner schema conn filename date : string) (s : Store)
  (t : Time) (f : File) :
  result_of
    ((time <- stringToDate E date ;;
      log_Printf banner [VString filename; VString date] ;;
      connect E conn ;;
      dbSchemaCreate E schema ;;
      dbSchemaCreate E IMPORT_TABLE_SCHEMA ;;
      f <- open E filename ;;
      ret (time, f)) s) = Return (t, f) ->
  time_Parse E DATE_FORMAT date = inr t.
Proof.
  intros H.
  destruct (bind_inv _ _ _ _ H) as (time & Hd & Hrun).
  rewrite Hrun, result_prepend in H.
  apply stringToDate_returns in Hd. rewrite Hd. f_equal.
  repeat match type of H with
         | result_of (bind ?m ?k ?s0) = Return _ =>
             let a := fresh "a" in
             let Ha := fresh "Ha" in
             let Hk := fresh "Hk" in
             destruct (bind_inv m k s0 _ H) as (a & Ha & Hk);
             rewrite Hk, result_prepend in H; clear Hk
         end.
  cbn in H. injection H as <- _. reflexivity.
Qed.

(** The rest of a loader hands the time of the start-up on. *)
Lemma tail_time {Row : Type} (body : string -> Loop Row -> M Store (Loop Row))
  (writer : list Row -> M Store Z) (f : File) (time t : Time) (n e : Z)
  (s : Store) :
  result_of
    ((st <- scan body (tokens f) (mkLoop 0 0 []) ;;
      check_scan f ;;
      er <- writer (rowData st) ;;
      ret (count st, wrap_int (errors st + er), time)) s)
  = Return (n, e, t) ->
  t = time.
Proof.
  intros H.
  repeat match type of H with
         | result_of (bind ?m ?k ?s0) = Return _ =>
             let a := fresh "a" in
             let Ha := fresh "Ha" in
             let Hk := fresh "Hk" in
             destruct (bind_inv m k s0 _ H) as (a & Ha & Hk);
             rewrite Hk, result_prepend in H; clear Hk
         end.
  cbn in H. injection H as _ _ <-. reflexivity.
Qed.

(** The end of a loader: one ledger entry, for the time [load] returned. *)
Lemma ledger_of_returned (name : string) (load : M Store (Z * Z * Time))
  (s : Store) (n : Z) :
  filter is_ledger (events_of (load s)) = [] ->
  result_of ((r <- load ;;
              let '(count, errors, time) := r in
              report E name errors time ;; ret count) s) = Return n ->
  exists e t lerr,
    result_of (load s) = Return (n, e, t)
    /\ filter is_ledger
         (events_of ((r <- load ;;
                      let '(count, errors, time) := r in
                      report E name errors time ;; ret count) s))
       = [ledger_entry name e t lerr].
Proof.
  intros Hq. unfold bind at 1 3.
  destruct (load s) as [s1 ev [[[c e] t]| |]];
    cbn [result_of events_of store_of] in *; try discriminate.
  rewrite (bind_Return _ _ _ _ _ _ (report_run E name e t s1)).
  cbn [prepend events_of result_of store_of ret].
  intros [= ->].
  exists e, t, (snd (pool_Exec E s1 IMPORTS_INSERT
                       [VString name; VString (state_of e); VTime t])).
  split; [reflexivity|].
  rewrite filter_app, Hq, !filter_app. unfold report_events.
  rewrite filter_app. cbn [filter app].
  change (is_ledger (ledger_entry name e t ?x)) with true. cbv iota.
  destruct (e >? 0); destruct (snd _); reflexivity.
Qed.

(** A loader that returns has written one ledger entry, under its source
    name and the parsed date flag. *)
Lemma count_ledger_of_returned (conn filename date : string) (s : Store)
  (n : Z) :
  result_of (CountMode.hibpEtl E conn filename date s) = Return n ->
  exists e t lerr,
    time_Parse E DATE_FORMAT date = inr t
    /\ filter is_ledger (events_of (CountMode.hibpEtl E conn filename date s))
       = [ledger_entry "pwned-passwords-sha1" e t lerr].
Proof.
  intros H.
  destruct (ledger_of_returned "pwned-passwords-sha1"
              (CountMode.load E conn filename date) s n
              (CountMode_ledger.load_no_ledger E conn filename date s) H)
    as (e & t & lerr & Hload & Hl).
  exists e, t, lerr. split; [|exact Hl].
  unfold CountMode.load in Hload.
  destruct (bind_inv _ _ _ _ Hload) as ([time f] & Hs & Hk).
  rewrite Hk, result_prepend in Hload.
  apply tail_time in Hload. subst t.
  apply (start_up_time _ _ _ _ _ _ _ _ Hs).
Qed.

Lemma reencode_ledger_of_returned (conn filename date : string) (s : Store)
  (n : Z) :
  result_of (Reencode.hibpEtl E conn filename date s) = Return n ->
  exists e t lerr,
    time_Parse E DATE_FORMAT date = inr t
    /\ filter is_ledger (events_of (Reencode.hibpEtl E conn filename date s))
       = [ledger_entry "pwned-passwords-sha1" e t lerr].
Proof.
  intros H.
  destruct (ledger_of_returned "pwned-passwords-sha1"
              (Reencode.load E conn filename date) s n
              (reencode_load_no_ledger E conn filename date s) H)
    as (e & t & lerr & Hload & Hl).
  exists e, t, lerr. split; [|exact Hl].
  unfold Reencode.load in Hload.
  destruct (bind_inv _ _ _ _ Hload) as ([time f] & Hs & Hk).
  rewrite Hk, result_prepend in Hload.
  apply tail_time in Hload. subst t.
  apply (start_up_time _ _ _ _ _ _ _ _ Hs).
Qed.

Lemma passwords_ledger_of_returned (B : Z) (schema conn filename date : string)
  (s : Store) (n : Z) :
  String.eqb schema IMPORTS_INSERT = false ->
  result_of (Passwords.hibpPasswordsEtl E B schema conn filename date s)
  = Return n ->
  exists e t lerr,
    time_Parse E DATE_FORMAT date = inr t
    /\ filter is_ledger
         (events_of (Passwords.hibpPasswordsEtl E B schema conn filename date s))
       = [ledger_entry "pwned-passwords-plain" e t lerr].
Proof.
  intros Hschema H.
  destruct (ledger_of_returned "pwned-passwords-plain"
              (Passwords.load E B schema conn filename date) s n
              (passwords_load_no_ledger E B schema conn filename date s
                 Hschema) H)
    as (e & t & lerr & Hload & Hl).
  exists e, t, lerr. split; [|exact Hl].
  unfold Passwords.load in Hload.
  destruct (bind_inv _ _ _ _ Hload) as ([time f] & Hs & Hk).
  rewrite Hk, result_prepend in Hload.
  apply tail_time in Hload. subst t.
  apply (start_up_time _ _ _ _ _ _ _ _ Hs).
Qed.

End Run_date.

(** ** [main] *)

Module Main_facts.
Import Main.

Section Program_facts.

Context {Store : Type} (E : Env Store).
Variable pool_QueryRow : Store -> string -> Store * (error + string).

Lemma dbVersion_no_ledger (url : string) (s : Store) :
  filter is_ledger (events_of (dbVersion E pool_QueryRow url s)) = [].
Proof.
  unfold dbVersion, bind, connect.
  destruct (pgxpool_Connect E url); [reflexivity|].
  cbn. destruct (pool_QueryRow s VERSION_QUERY) as [s' [err|v]]; reflexivity.
Qed.

(** X24.  The imports run one after the other, and a failure ends the program:
    when the first loader is ended by [log.Fatal], [main] ends with that
    failure, after the events of the version check and of that loader,
    and the password loader is never called, whatever it is. *)
Theorem main_stops_at_first_failure
  (h p : string -> string -> string -> M Store Z)
  (url : string) (flags : Flags) (s s1 s2 : Store)
  (ev1 ev2 : list Event) (version : string) (a : list Value) :
  String.eqb url EmptyString = false ->
  dbVersion E pool_QueryRow url s = mkOutcome s1 ev1 (Return version) ->
  String.eqb (hibp_file flags) EmptyString = false ->
  h url (hibp_file flags) (hibp_date flags) s1 = mkOutcome s2 ev2 (Fatal a) ->
  main E pool_QueryRow h p url flags s
  = mkOutcome s2
      (ev1 ++ Log ("Connecting to PG: %s" ++ String "010"%char EmptyString)
                [VString version] :: ev2)
      (Fatal a).
Proof.
  intros Hurl Hv Hfile Hh. unfold main. cbv zeta. rewrite Hurl, Hfile.
  cbn [negb]. rewrite bind_ret.
  rewrite (bind_Return _ _ _ _ _ _ Hv). rewrite bind_log.
  rewrite (bind_Fatal _ _ s1 s2 ev2 a).
  - reflexivity.
  - apply bind_Fatal. exact Hh.
Qed.

(** X25.  With both file flags set, a run of [main] that returns has written
    exactly two ledger entries, the one of the hash import and then the
    one of the password import, both under the parsed date flag.  This
    holds with the hash loader of either revision. *)
Theorem main_imports_both (B : Z) (schema url : string) (flags : Flags)
  (s : Store) :
  String.eqb schema IMPORTS_INSERT = false ->
  String.eqb (hibp_file flags) EmptyString = false ->
  String.eqb (hibp_passwords_file flags) EmptyString = false ->
  forall h,
    In h [CountMode.hibpEtl E; Reencode.hibpEtl E] ->
    result_of (main E pool_QueryRow h
                 (Passwords.hibpPasswordsEtl E B schema) url flags s)
    = Return tt ->
    exists (e1 e2 : Z) (t : Time) (l1 l2 : option error),
      time_Parse E DATE_FORMAT (hibp_date flags) = inr t
      /\ filter is_ledger
           (events_of (main E pool_QueryRow h
                         (Passwords.hibpPasswordsEtl E B schema) url flags s))
         = [ledger_entry "pwned-passwords-sha1" e1 t l1;
            ledger_entry "pwned-passwords-plain" e2 t l2].
Proof.
  intros Hschema Hf1 Hf2 h Hin.
  assert (Hh : forall conn filename date s0 n,
             result_of (h conn filename date s0) = Return n ->
             exists e t lerr,
               time_Parse E DATE_FORMAT date = inr t
               /\ filter is_ledger (events_of (h conn filename date s0))
                  = [ledger_entry "pwned-passwords-sha1" e t lerr]).
  { destruct Hin as [<-|[<-|[]]]; intros conn filename date s0 n.
    - apply count_ledger_of_returned.
    - apply reencode_ledger_of_returned. }
  clear Hin. unfold main. cbv zeta. rewrite Hf1, Hf2. cbn [negb].
  destruct (String.eqb url EmptyString); [discriminate|].
  rewrite bind_ret.
  pose proof (dbVersion_no_ledger url s) as Hq1.
  destruct (dbVersion E pool_QueryRow url s) as [s1 ev1 [version| |]] eqn:Hv;
    [|unfold bind; rewrite Hv; discriminate..].
  rewrite (bind_Return _ _ _ _ _ _ Hv), bind_log.
  cbn [events_of] in Hq1.
  destruct (h url (hibp_file flags) (hibp_date flags) s1)
    as [s2 ev2 [n1| |]] eqn:Hh1.
  2,3: unfold bind at 1 2; rewrite Hh1; discriminate.
  assert (Hi : (n <- h url (hibp_file flags) (hibp_date flags) ;;
                log_Printf "hibp import %d records" [VInt n]) s1
               = mkOutcome s2
                   (ev2 ++ [Log "hibp import %d records" [VInt n1]])
                   (Return tt)).
  { rewrite (bind_Return _ _ _ _ _ _ Hh1). reflexivity. }
  rewrite (bind_Return _ _ _ _ _ _ Hi).
  destruct (Passwords.hibpPasswordsEtl E B schema url
              (hibp_passwords_file flags) (hibp_date flags) s2)
    as [s3 ev3 [n2| |]] eqn:Hp1.
  2,3: unfold bind; rewrite Hp1; discriminate.
  rewrite (bind_Return _ _ _ _ _ _ Hp1).
  intros _.
  destruct (Hh url (hibp_file flags) (hibp_date flags) s1 n1)
    as (e1 & t & l1 & Ht & Hl1); [rewrite Hh1; reflexivity|].
  destruct (passwords_ledger_of_returned E B schema url
              (hibp_passwords_file flags) (hibp_date flags) s2 n2 Hschema)
    as (e2 & t' & l2 & Ht' & Hl2); [rewrite Hp1; reflexivity|].
  rewrite Ht in Ht'. injection Ht' as <-.
  rewrite Hh1 in Hl1. rewrite Hp1 in Hl2. cbn [events_of] in Hl1, Hl2.
  exists e1, e2, t, l1, l2. split; [exact Ht|].
  cbn [prepend events_of store_of log_Printf].
  rewrite !filter_app. cbn [filter is_ledger app].
  rewrite Hq1, Hl1, Hl2. reflexivity.
Qed.

End Program_facts.

Lemma main_stops_at_first_failure_witness :
  main (serving ["ab:1"] accepting) answering
    (CountMode.hibpEtl (serving ["ab:1"] accepting))
    (Passwords.hibpPasswordsEtl (serving ["ab:1"] accepting)
       CountMode.BATCH_SIZE CountMode.HIBP_TABLE_SCHEMA)
    "postgres://db" (mkFlags "pwned.txt" EmptyString "plain.txt") tt
  = mkOutcome tt
      ([Exec VERSION_QUERY [] None]
         ++ Log ("Connecting to PG: %s" ++ String "010"%char EmptyString)
              [VString "PostgreSQL 13.1"] :: [])
      (Fatal [VString "Missing required date field e.g. November 19 2020"]).
Proof.
  apply (main_stops_at_first_failure (serving ["ab:1"] accepting) answering
           (CountMode.hibpEtl (serving ["ab:1"] accepting))
           (Passwords.hibpPasswordsEtl (serving ["ab:1"] accepting)
              CountMode.BATCH_SIZE CountMode.HIBP_TABLE_SCHEMA)
           "postgres://db" (mkFlags "pwned.txt" EmptyString "plain.txt")
           tt tt tt).
  - reflexivity.
  - reflexivity.
  - reflexivity.
  - reflexivity.
Defined.

Lemma main_imports_both_witness :
  exists (e1 e2 : Z) (t : Time) (l1 l2 : option error),
    time_Parse (serving ["ab:1"] accepting) DATE_FORMAT "November 19 2020"
    = inr t
    /\ filter is_ledger
         (events_of (main (serving ["ab:1"] accepting) answering
                       (Reencode.hibpEtl (serving ["ab:1"] accepting))
                       (Passwords.hibpPasswordsEtl
                          (serving ["ab:1"] accepting)
                          Reencode.BATCH_SIZE Reencode.HIBP_TABLE_SCHEMA)
                       "postgres://db"
                       (mkFlags "pwned.txt" "November 19 2020" "plain.txt")
                       tt))
       = [ledger_entry "pwned-passwords-sha1" e1 t l1;
          ledger_entry "pwned-passwords-plain" e2 t l2].
Proof.
  apply (main_imports_both (serving ["ab:1"] accepting) answering
           Reencode.BATCH_SIZE Reencode.HIBP_TABLE_SCHEMA "postgres://db"
           (mkFlags "pwned.txt" "November 19 2020" "plain.txt") tt).
  - reflexivity.
  - reflexivity.
  - reflexivity.
  - right. left. reflexivity.
  - reflexivity.
Defined.

End Main_facts.


(** ** The identifier and its column *)

Module Identifier_width.
Import strings strings_facts.

Lemma zero_groups_le (src : list byte) :
  (4 * ascii85.zero_groups src <= List.length src)%nat.
Proof.
  induction src as [|a|a b|a b c|a b c d rest IH]
    using ascii85_facts.list_ind4; cbn [ascii85.zero_groups List.length];
    try lia.
  cbv zeta. destruct (_ =? 0); lia.
Qed.

(** X26.  A key of 40 hex digits, a SHA-1 hash, gets an identifier of at most
    25 characters, the width of the [hibp_id] column of this revision:
    25 less 4 for every aligned four-byte group of the hash that is all
    zero. *)
Theorem sha1_identifier_fits (k v hibp : string) :
  String.length k = 40%nat ->
  IndexByte k ":" = None ->
  Reencode.parse (k ++ String ":" v) = Some hibp ->
  exists raw,
    hex_DecodeString k = inr raw
    /\ List.length raw = 20%nat
    /\ (String.length hibp + 4 * ascii85.zero_groups raw = 25)%nat
    /\ (5 <= String.length hibp <= 25)%nat.
Proof.
  intros Hlen Hk. rewrite Reencode_identity.parse_key by exact Hk.
  destruct (hex_DecodeString k) as [e|raw] eqn:Hraw; [discriminate|].
  rewrite Reencode_facts.reencode_encode. intros [= <-].
  pose proof (hex_DecodeString_length k raw Hraw) as Hl.
  assert (Hn : List.length raw = 20%nat) by lia.
  pose proof (ascii85_width.encode_length raw) as He.
  rewrite Hn in He. change (ascii85.width 20) with 25%nat in He.
  pose proof (zero_groups_le raw) as Hz. rewrite Hn in Hz.
  rewrite string_of_list_byte_length.
  exists raw. split; [reflexivity|]. split; [exact Hn|]. lia.
Qed.

Lemma sha1_identifier_fits_witness :
  exists raw,
    hex_DecodeString "7C4A8D09CA3762AF61E59520943DC26494F8941B" = inr raw
    /\ List.length raw = 20%nat
    /\ (String.length "HqKA)au<e5@HEasPWcloPk^I^"
        + 4 * ascii85.zero_groups raw = 25)%nat
    /\ (5 <= String.length "HqKA)au<e5@HEasPWcloPk^I^" <= 25)%nat.
Proof.
  apply (sha1_identifier_fits "7C4A8D09CA3762AF61E59520943DC26494F8941B"
           "24230577" "HqKA)au<e5@HEasPWcloPk^I^").
  - reflexivity.
  - reflexivity.
  - vm_compute. reflexivity.
Defined.

End Identifier_width.

(** ** The tables exist before a row is written *)

Section Tables_first.

Context {Store : Type} (E : Env Store).

Lemma dbSchemaCreate_run (sql : string) (s : Store) :
  dbSchemaCreate E sql s
  = mkOutcome (fst (pool_Exec E s sql []))
      [Exec sql [] (snd (pool_Exec E s sql []))]
      (match snd (pool_Exec E s sql []) with
       | Some e => Fatal [VError e]
       | None => Return tt
       end).
Proof.
  unfold dbSchemaCreate, bind, dbPool_Exec.
  destruct (pool_Exec E s sql []) as [s' [e|]]; reflexivity.
Qed.

(** A start-up that goes through has executed the two schema statements,
    both accepted, and nothing else. *)
Lemma start_up_execs (banner schema conn filename date : string) (s : Store)
  (r : Time * File) :
  let start :=
    (time <- stringToDate E date ;;
     log_Printf banner [VString filename; VString date] ;;
     connect E conn ;;
     dbSchemaCreate E schema ;;
     dbSchemaCreate E IMPORT_TABLE_SCHEMA ;;
     f <- open E filename ;;
     ret (time, f)) in
  result_of (start s) = Return r ->
  filter is_exec (events_of (start s))
  = [Exec schema [] None; Exec IMPORT_TABLE_SCHEMA [] None].
Proof.
  intros start. subst start. unfold stringToDate.
  destruct (String.eqb date EmptyString).
  { rewrite (bind_Fatal _ _ s s [] _ eq_refl). discriminate. }
  destruct (time_Parse E DATE_FORMAT date) as [e|time].
  { rewrite (bind_Fatal _ _ s s [] _ eq_refl). discriminate. }
  rewrite (bind_Return _ _ s s [Log "File import time %s" [VTime time]] time)
    by reflexivity.
  rewrite bind_log. unfold connect.
  destruct (pgxpool_Connect E conn) as [err|].
  { rewrite (bind_Fatal _ _ s s [] _ eq_refl). discriminate. }
  rewrite bind_ret.
  pose proof (dbSchemaCreate_run schema s) as H1.
  destruct (snd (pool_Exec E s schema [])) as [e1|].
  { rewrite (bind_Fatal _ _ _ _ _ _ H1). discriminate. }
  rewrite (bind_Return _ _ _ _ _ _ H1).
  set (s1 := fst (pool_Exec E s schema [])).
  pose proof (dbSchemaCreate_run IMPORT_TABLE_SCHEMA s1) as H2.
  destruct (snd (pool_Exec E s1 IMPORT_TABLE_SCHEMA [])) as [e2|].
  { rewrite (bind_Fatal _ _ _ _ _ _ H2). discriminate. }
  rewrite (bind_Return _ _ _ _ _ _ H2).
  set (s2 := fst (pool_Exec E s1 IMPORT_TABLE_SCHEMA [])).
  unfold open. destruct (os_Open E filename) as [e3|f].
  { rewrite (bind_Fatal _ _ s2 s2 [] [VError e3] eq_refl). discriminate. }
  rewrite bind_ret. intros _. reflexivity.
Qed.

(** A run made of a start-up and a rest: the rest runs only after a
    start-up that went through. *)
Lemma tables_first_gen {A C : Type} (start : M Store A) (rest : A -> M Store C)
  (schema : string) (s : Store) :
  filter is_batch_write (events_of (start s)) = [] ->
  (forall r, result_of (start s) = Return r ->
             filter is_exec (events_of (start s))
             = [Exec schema [] None; Exec IMPORT_TABLE_SCHEMA [] None]) ->
  filter is_batch_write (events_of (bind start rest s)) <> [] ->
  exists more,
    filter is_exec (events_of (bind start rest s))
    = Exec schema [] None :: Exec IMPORT_TABLE_SCHEMA [] None :: more.
Proof.
  intros Hq Hx. unfold bind.
  destruct (start s) as [s1 ev [r| |]]; cbn [result_of events_of store_of] in *.
  - intros _. exists (filter is_exec (events_of (rest r s1))).
    unfold prepend. cbn [events_of].
    rewrite filter_app, (Hx r eq_refl). reflexivity.
  - intros H. contradiction.
  - intros H. contradiction.
Qed.

Lemma bind_assoc {A B C : Type} (m : M Store A) (k : A -> M Store B)
  (k' : B -> M Store C) (s : Store) :
  bind (bind m k) k' s = bind m (fun a => bind (k a) k') s.
Proof.
  unfold bind.
  destruct (m s) as [s1 ev1 [a| |]]; cbn [result_of events_of store_of];
    try reflexivity.
  destruct (k a s1) as [s2 ev2 [b| |]]; cbn [result_of events_of store_of];
    try reflexivity.
  unfold prepend. cbn [result_of events_of store_of].
  rewrite app_assoc. reflexivity.
Qed.

(** X27.  No row is written before both tables exist: a run of a loader that
    executes a batch write has first executed the two schema statements,
    and the store accepted both. *)
Theorem tables_before_rows (conn filename date : string) (s : Store) :
  forall (schema : string) (run : M Store Z),
    In (schema, run)
      [(CountMode.HIBP_TABLE_SCHEMA, CountMode.hibpEtl E conn filename date);
       (Reencode.HIBP_TABLE_SCHEMA, Reencode.hibpEtl E conn filename date);
       (CountMode.HIBP_TABLE_SCHEMA,
        Passwords.hibpPasswordsEtl E CountMode.BATCH_SIZE
          CountMode.HIBP_TABLE_SCHEMA conn filename date);
       (Reencode.HIBP_TABLE_SCHEMA,
        Passwords.hibpPasswordsEtl E Reencode.BATCH_SIZE
          Reencode.HIBP_TABLE_SCHEMA conn filename date)] ->
    filter is_batch_write (events_of (run s)) <> [] ->
    exists more,
      filter is_exec (events_of (run s))
      = Exec schema [] None :: Exec IMPORT_TABLE_SCHEMA [] None :: more.
Proof.
  intros schema run [[= <- <-]|[[= <- <-]|[[= <- <-]|[[= <- <-]|[]]]]].
  - unfold CountMode.hibpEtl, CountMode.load. rewrite bind_assoc.
    apply tables_first_gen.
    + apply setup_quiet; intros; reflexivity.
    + intros r. apply start_up_execs.
  - unfold Reencode.hibpEtl, Reencode.load. rewrite bind_assoc.
    apply tables_first_gen.
    + apply setup_quiet; intros; reflexivity.
    + intros r. apply start_up_execs.
  - unfold Passwords.hibpPasswordsEtl, Passwords.load. rewrite bind_assoc.
    apply tables_first_gen.
    + apply Passwords_summary.start_quiet; intros; reflexivity.
    + intros r. apply start_up_execs.
  - unfold Passwords.hibpPasswordsEtl, Passwords.load. rewrite bind_assoc.
    apply tables_first_gen.
    + apply Passwords_summary.start_quiet; intros; reflexivity.
    + intros r. apply start_up_execs.
Qed.

End Tables_first.

Lemma tables_before_rows_witness :
  exists more,
    filter is_exec
      (events_of (CountMode.hibpEtl (serving ["ab:1"] accepting)
                    "db" "pwned.txt" "November 19 2020" tt))
    = Exec CountMode.HIBP_TABLE_SCHEMA [] None
        :: Exec IMPORT_TABLE_SCHEMA [] None :: more.
Proof.
  apply (tables_before_rows (serving ["ab:1"] accepting)
           "db" "pwned.txt" "November 19 2020" tt
           CountMode.HIBP_TABLE_SCHEMA
           (CountMode.hibpEtl (serving ["ab:1"] accepting)
              "db" "pwned.txt" "November 19 2020")).
  - left. reflexivity.
  - vm_compute. discriminate.
Defined.

Lemma reencode_never_panics_witness :
  result_of (Reencode.hibpEtl (serving ["ab:1"; "oops"] accepting)
               "db" "pwned.txt" "November 19 2020" tt) <> Panic.
Proof.
  exact (reencode_never_panics (serving ["ab:1"; "oops"] accepting)
           "db" "pwned.txt" "November 19 2020" tt).
Defined.
